(** * blogpost: a blog extension for a documentation builder

    Shallow embedding of the post aggregation, identifier assignment,
    navigation linking, directive parsing and text helpers of
    [blogpost/__init__.py], [blogpost/blogpostdirective.py] and the older
    single-file copy [blogpost/blogpost.py], with the properties the
    specification states about them. *)

From Stdlib Require Import ZArith Lia Ascii String List Sorted Permutation.
From stdpp Require Import base option list strings pretty gmap fin_maps sorting.

Local Open Scope string_scope.
Local Open Scope list_scope.

(** ** Python strings

    A [str] is modelled as a [string] whose characters are the code points
    0..255.  The operations below are the built-in [str] methods the
    sources call, restricted to that range. *)
Module PyStr.

(** [len(s)] *)
Definition len (s : string) : nat := String.length s.

(** [s[:n]] for a non-negative [n]. *)
Fixpoint slice_to (n : nat) (s : string) : string :=
  match n, s with
  | O, _ => ""
  | S _, "" => ""
  | S n', String c r => String c (slice_to n' r)
  end.

(** [s[i]] where it exists. *)
Fixpoint char_at (i : nat) (s : string) : option ascii :=
  match s, i with
  | "", _ => None
  | String c _, O => Some c
  | String _ r, S i' => char_at i' r
  end.

(** [c in s] for a single character [c]. *)
Fixpoint contains (c : ascii) (s : string) : bool :=
  match s with
  | "" => false
  | String d r => if Ascii.eqb d c then true else contains c r
  end.

(** The part of [s] before the last occurrence of [sep], when there is
    one: the head of [s.rsplit(sep, 1)] in the case where it splits. *)
Fixpoint before_last (sep : ascii) (s : string) : option string :=
  match s with
  | "" => None
  | String c r =>
      match before_last sep r with
      | Some h => Some (String c h)
      | None => if Ascii.eqb c sep then Some "" else None
      end
  end.

(** [s.rsplit(sep, 1)[0]]: everything before the last [sep], or all of
    [s] when [sep] does not occur. *)
Definition rsplit1_head (sep : ascii) (s : string) : string :=
  match before_last sep s with
  | Some h => h
  | None => s
  end.

(** [s.split(sep)] for a one-character separator: never empty, one more
    piece than there are separators. *)
Fixpoint split (sep : ascii) (s : string) : list string :=
  match s with
  | "" => [""]
  | String c r =>
      if Ascii.eqb c sep then "" :: split sep r
      else match split sep r with
           | h :: t => String c h :: t
           | [] => [String c ""]
           end
  end.

(** [sep.join(pieces)] *)
Fixpoint join (sep : string) (pieces : list string) : string :=
  match pieces with
  | [] => ""
  | [p] => p
  | p :: ps => p +:+ sep +:+ join sep ps
  end.

(** [str.isspace] on one character: the white space of the range
    0..255, namely TAB, LF, VT, FF, CR, FS, GS, RS, US, SPACE, NEL and
    the no-break space. *)
Definition isspace (c : ascii) : bool :=
  let n := nat_of_ascii c in
  (((9 <=? n) && (n <=? 13)) || ((28 <=? n) && (n <=? 32))
   || (n =? 133) || (n =? 160))%nat.

(** [s.lstrip()] *)
Fixpoint lstrip (s : string) : string :=
  match s with
  | "" => ""
  | String c r => if isspace c then lstrip r else s
  end.

(** [s.rstrip()] *)
Fixpoint rstrip (s : string) : string :=
  match s with
  | "" => ""
  | String c r =>
      match rstrip r with
      | "" => if isspace c then "" else String c ""
      | r' => String c r'
      end
  end.

(** [s.strip()] *)
Definition strip (s : string) : string := rstrip (lstrip s).

(** [str.isupper] on one character of the range 0..255: A-Z and the
    accented capitals 192..222 except the multiplication sign 215. *)
Definition isupper (c : ascii) : bool :=
  let n := nat_of_ascii c in
  (((65 <=? n) && (n <=? 90))
   || ((192 <=? n) && (n <=? 222) && negb (n =? 215)))%nat.

Definition lower_char (c : ascii) : ascii :=
  if isupper c then ascii_of_nat (nat_of_ascii c + 32) else c.

(** [s.lower()] *)
Fixpoint lower (s : string) : string :=
  match s with
  | "" => ""
  | String c r => String (lower_char c) (lower r)
  end.

(** Number of occurrences of a character. *)
Fixpoint count (c : ascii) (s : string) : nat :=
  match s with
  | "" => 0
  | String d r => (if Ascii.eqb d c then 1 else 0) + count c r
  end.

(** First and last character. *)
Definition first_char (s : string) : option ascii := char_at 0 s.

Fixpoint last_char (s : string) : option ascii :=
  match s with
  | "" => None
  | String c "" => Some c
  | String _ r => last_char r
  end.

(** Every character satisfies a test. *)
Fixpoint all_chars (P : ascii -> bool) (s : string) : bool :=
  match s with
  | "" => true
  | String c r => P c && all_chars P r
  end.

(** No white space at either end. *)
Definition trimmed (s : string) : Prop :=
  (forall c, first_char s = Some c -> isspace c = false)
  /\ (forall c, last_char s = Some c -> isspace c = false).

(** No capital letter. *)
Definition lowercase (s : string) : Prop :=
  all_chars (fun c => negb (isupper c)) s = true.

End PyStr.

(** ** Text helpers of [blogpostdirective.py] (and [blogpost.py]) *)

(** [shorten_text(text, length=50, suffix='...')] *)
Definition shorten_text (text : string) (length : nat) (suffix : string)
  : string :=
  if (PyStr.len text <=? length)%nat then text
  else PyStr.rsplit1_head " " (PyStr.slice_to length text) +:+ suffix.

(** The call with the default arguments. *)
Definition shorten_text_default (text : string) : string :=
  shorten_text text 50 "...".

(** [cvs_to_list(argument)]; [None] is the missing argument. *)
Definition cvs_to_list (argument : option string) : list string :=
  match argument with
  | None => []
  | Some a => (fun i => PyStr.lower (PyStr.strip i)) <$> PyStr.split "," a
  end.

(** [stripped(argument)] *)
Definition stripped (argument : option string) : string :=
  match argument with
  | None => ""
  | Some a => PyStr.strip a
  end.

(** ** Time stamps

    A [datetime] as [strptime] returns it for the post format: a naive
    value (no time zone, microsecond 0) with the six fields below. *)
Record datetime : Type := mk_datetime {
  dt_year : Z;
  dt_month : Z;
  dt_day : Z;
  dt_hour : Z;
  dt_minute : Z;
  dt_second : Z
}.

(** Comparison of two tuples of integers, as Python compares tuples. *)
Fixpoint tuple_cmp (a b : list Z) : comparison :=
  match a, b with
  | [], [] => Eq
  | [], _ :: _ => Lt
  | _ :: _, [] => Gt
  | x :: a', y :: b' =>
      match (x ?= y)%Z with
      | Eq => tuple_cmp a' b'
      | c => c
      end
  end.

Definition dt_tuple (d : datetime) : list Z :=
  [dt_year d; dt_month d; dt_day d; dt_hour d; dt_minute d; dt_second d].

(** [datetime._cmp]: the fields compared as a tuple. *)
Definition dt_cmp (a b : datetime) : comparison :=
  tuple_cmp (dt_tuple a) (dt_tuple b).

(** [a < b] and [a == b] on time stamps. *)
Definition dt_ltb (a b : datetime) : bool :=
  match dt_cmp a b with Lt => true | _ => false end.

Definition dt_eqb (a b : datetime) : bool :=
  match dt_cmp a b with Eq => true | _ => false end.


Global Instance datetime_eq_dec : EqDecision datetime.
Proof. solve_decision. Defined.

(** ** The built-in [sorted]

    [sorted(iterable, key=..., reverse=...)] is a stable sort that only
    uses [<] on the keys; with [reverse=True] the order is descending and
    elements with equal keys still keep their original order.  A sorted
    list with that stability is unique (see [stable_sorted_unique] below),
    so the stable insertion sort below is the function [sorted] computes. *)
Section PySorted.
Context {A K : Type} (lt : K -> K -> bool) (key : A -> K).

(** [y], already placed, stays in front of the earlier element [x]. *)
Definition stays_before (reverse : bool) (y x : A) : bool :=
  if reverse then lt (key x) (key y) else lt (key y) (key x).

Fixpoint insert_by (reverse : bool) (x : A) (l : list A) : list A :=
  match l with
  | [] => [x]
  | y :: l' =>
      if stays_before reverse y x then y :: insert_by reverse x l'
      else x :: l
  end.

Definition sorted (reverse : bool) (l : list A) : list A :=
  foldr (insert_by reverse) [] l.

(** [a] may come before [b] in the result. *)
Definition in_order (reverse : bool) (a b : A) : Prop :=
  stays_before reverse b a = false.
End PySorted.

(** ** Errors *)
Inductive exn : Type :=
| ValueError (msg : string)
| KeyError (key : string)
| AttributeError (attr : string)
| IndexError.

(** ** Document nodes *)

(** A [BlogNode] after [BlogPostDirective.run]: the ten options of
    [BLOG_ITEMS] (with [time] already parsed) and the keys the directive and
    the resolve phase add.  [None] is Python's [None] or an absent key. *)
Record BlogNode : Type := mk_BlogNode {
  n_author : string;
  n_author_email : string;
  n_tags : list string;
  n_title : string;
  n_category : string;
  n_location_city : string;
  n_location_country : string;
  n_time : datetime;
  n_summary : string;
  n_summary_image : string;
  n_short_time : string;
  n_category_ref : option string;
  n_docname : option string;
  n_tags_ref : list (option string);
  n_tags_and_ref : list (option string * option string);
  n_year : Z;
  n_dirname : option string;
  n_targetid : option string;
  n_prev_text : option string;
  n_next_text : option string;
  n_next : option string;
  n_prev : option string
}.

(** [nodes.target('', '', ids=[targetid])] *)
Record target : Type := mk_target { t_ids : list string }.

(** [nodes.reference(text, text)] with its [refuri]. *)
Record reference : Type := mk_reference {
  r_text : string;
  r_refuri : string
}.

(** The node a recent-posts directive leaves in the tree. *)
Record RecentNode : Type := mk_RecentNode {
  rn_length : Z;
  rn_items : list string;
  rn_nmax : Z
}.

Inductive node : Type :=
| NBlog (n : BlogNode)
| NTarget (t : target)
| NSubstitution (uri : string)
| NCategory
| NTag
| NTagList (docname : string)
| NArchive
| NRecent (r : RecentNode).

(** One entry of [env.all_posts]. *)
Record PostInfo : Type := mk_PostInfo {
  pi_time : datetime;
  pi_post_node : BlogNode;
  pi_docname : string;
  pi_datetime : datetime;
  pi_targetid : string;
  pi_targetnode : target
}.

(** One entry of a grouping: [{'time', 'refnode', 'post_node'}]. *)
Record Item : Type := mk_Item {
  it_time : datetime;
  it_refnode : reference;
  it_post_node : BlogNode
}.

(** One entry of the flattened list: an item with its ['docname']. *)
Record FlatItem : Type := mk_FlatItem {
  fi_time : datetime;
  fi_refnode : reference;
  fi_post_node : BlogNode;
  fi_docname : string
}.

(** ** The build environment

    The attributes the extension reads and adds on the host's environment
    object.  An attribute that [hasattr] can find missing is an [option]. *)
Record BuildEnv : Type := mk_BuildEnv {
  env_docname : string;
  temp_data : gmap string nat;
  images : list (string * string);
  all_posts : option (list PostInfo);
  category_docname : option string;
  tag_docname : option string;
  archive_docname : option string;
  recent_docname : option string;
  recent_nodes : option (list RecentNode);
  category_id : option (gmap string string);
  tag_id : option (gmap string string);
  archive_id : option (gmap Z string)
}.

Definition set_env_docname (v : string) (e : BuildEnv) : BuildEnv :=
  mk_BuildEnv v (temp_data e) (images e) (all_posts e) (category_docname e)
    (tag_docname e) (archive_docname e) (recent_docname e) (recent_nodes e)
    (category_id e) (tag_id e) (archive_id e).

Definition set_temp_data (v : gmap string nat) (e : BuildEnv) : BuildEnv :=
  mk_BuildEnv (env_docname e) v (images e) (all_posts e) (category_docname e)
    (tag_docname e) (archive_docname e) (recent_docname e) (recent_nodes e)
    (category_id e) (tag_id e) (archive_id e).

Definition set_images (v : list (string * string)) (e : BuildEnv) : BuildEnv :=
  mk_BuildEnv (env_docname e) (temp_data e) v (all_posts e) (category_docname e)
    (tag_docname e) (archive_docname e) (recent_docname e) (recent_nodes e)
    (category_id e) (tag_id e) (archive_id e).

Definition set_all_posts (v : list PostInfo) (e : BuildEnv) : BuildEnv :=
  mk_BuildEnv (env_docname e) (temp_data e) (images e) (Some v)
    (category_docname e) (tag_docname e) (archive_docname e)
    (recent_docname e) (recent_nodes e) (category_id e) (tag_id e)
    (archive_id e).

Definition set_category_docname (v : string) (e : BuildEnv) : BuildEnv :=
  mk_BuildEnv (env_docname e) (temp_data e) (images e) (all_posts e) (Some v)
    (tag_docname e) (archive_docname e) (recent_docname e) (recent_nodes e)
    (category_id e) (tag_id e) (archive_id e).

Definition set_tag_docname (v : string) (e : BuildEnv) : BuildEnv :=
  mk_BuildEnv (env_docname e) (temp_data e) (images e) (all_posts e)
    (category_docname e) (Some v) (archive_docname e) (recent_docname e)
    (recent_nodes e) (category_id e) (tag_id e) (archive_id e).

Definition set_archive_docname (v : string) (e : BuildEnv) : BuildEnv :=
  mk_BuildEnv (env_docname e) (temp_data e) (images e) (all_posts e)
    (category_docname e) (tag_docname e) (Some v) (recent_docname e)
    (recent_nodes e) (category_id e) (tag_id e) (archive_id e).

Definition set_recent_docname (v : string) (e : BuildEnv) : BuildEnv :=
  mk_BuildEnv (env_docname e) (temp_data e) (images e) (all_posts e)
    (category_docname e) (tag_docname e) (archive_docname e) (Some v)
    (recent_nodes e) (category_id e) (tag_id e) (archive_id e).

Definition set_recent_nodes (v : list RecentNode) (e : BuildEnv) : BuildEnv :=
  mk_BuildEnv (env_docname e) (temp_data e) (images e) (all_posts e)
    (category_docname e) (tag_docname e) (archive_docname e)
    (recent_docname e) (Some v) (category_id e) (tag_id e) (archive_id e).

Definition set_category_id (v : gmap string string) (e : BuildEnv)
  : BuildEnv :=
  mk_BuildEnv (env_docname e) (temp_data e) (images e) (all_posts e)
    (category_docname e) (tag_docname e) (archive_docname e)
    (recent_docname e) (recent_nodes e) (Some v) (tag_id e) (archive_id e).

Definition set_tag_id (v : gmap string string) (e : BuildEnv) : BuildEnv :=
  mk_BuildEnv (env_docname e) (temp_data e) (images e) (all_posts e)
    (category_docname e) (tag_docname e) (archive_docname e)
    (recent_docname e) (recent_nodes e) (category_id e) (Some v)
    (archive_id e).

Definition set_archive_id (v : gmap Z string) (e : BuildEnv) : BuildEnv :=
  mk_BuildEnv (env_docname e) (temp_data e) (images e) (all_posts e)
    (category_docname e) (tag_docname e) (archive_docname e)
    (recent_docname e) (recent_nodes e) (category_id e) (tag_id e) (Some v).

(** The environment at the start of a build: nothing added yet. *)
Definition fresh_env (docname : string) : BuildEnv :=
  mk_BuildEnv docname ∅ [] None None None None None None None None None.

(** [env.new_serialno(category)] of the host: the current value of the
    counter of that category, which is then incremented. *)
Definition new_serialno (category : string) (e : BuildEnv) : nat * BuildEnv :=
  let key := category +:+ "serialno" in
  let cur := default 0%nat (temp_data e !! key) in
  (cur, set_temp_data (<[key := S cur]> (temp_data e)) e).

(** ** Computations that change a state and may raise

    A raised exception leaves the state as it was at the raise. *)
Definition M (S A : Type) : Type := S -> (exn + A) * S.

Definition ret {S A} (a : A) : M S A := fun s => (inr a, s).

Definition raise {S A} (e : exn) : M S A := fun s => (inl e, s).

Definition bind {S A B} (m : M S A) (k : A -> M S B) : M S B :=
  fun s =>
    match m s with
    | (inr a, s') => k a s'
    | (inl e, s') => (inl e, s')
    end.

Definition get {S} : M S S := fun s => (inr s, s).

Definition modify {S} (f : S -> S) : M S unit := fun s => (inr tt, f s).

(** Lift a result that may be an exception. *)
Definition lift {S A} (r : exn + A) : M S A := fun s => (r, s).

(** [try: body except AttributeError: handler] *)
Definition except_AttributeError {S A} (body handler : M S A) : M S A :=
  fun s =>
    match body s with
    | (inl (AttributeError _), s') => handler s'
    | r => r
    end.

Declare Scope blog_scope.
Delimit Scope blog_scope with blog.
Notation "'let*' x ':=' m 'in' k" := (bind m (fun x => k))
  (at level 10, x name, m at level 100, k at level 200) : blog_scope.
Notation "m '>>' k" := (bind m (fun _ => k))
  (at level 199, right associativity) : blog_scope.

Local Open Scope blog_scope.

(** ** The host

    What the extension calls on the host and on the standard library and
    does not define itself. *)
Class Host : Type := {
  (** [datetime.strptime(data, format)]: the time stamp, or the
      [ValueError] it raises. *)
  strptime : string -> string -> exn + datetime;
  (** [time.strftime(format)] *)
  strftime : datetime -> string -> string;
  (** [app.builder.get_relative_uri(from, to)]; [from] is a document name
      or the [None] of a node parsed outside a build. *)
  get_relative_uri : option string -> string -> string;
  (** [targetnode['refid']], as the host has set it on the target. *)
  target_refid : target -> string;
  (** [os.path.dirname] *)
  dirname : string -> string
}.

(** ** Python lists and dictionaries *)

(** [l[i]] for an integer [i]: negative indices count from the end. *)
Definition list_get {A} (l : list A) (i : Z) : exn + A :=
  let n := Z.of_nat (length l) in
  let j := if (i <? 0)%Z then (n + i)%Z else i in
  if ((0 <=? j) && (j <? n))%Z then
    match l !! Z.to_nat j with
    | Some a => inr a
    | None => inl IndexError
    end
  else inl IndexError.

(** [if k not in d: d[k] = []] followed by [d[k].append(v)]. *)
Definition dict_append `{Countable K} {V} (d : gmap K (list V)) (k : K) (v : V)
  : gmap K (list V) :=
  let d' := match d !! k with
            | None => <[k := []]> d
            | Some _ => d
            end in
  <[k := default [] (d' !! k) ++ [v]]> d'.

(** What a key holds after more values were appended to it. *)
Definition extend {V} (o : option (list V)) (vs : list V) : option (list V) :=
  match o, vs with
  | Some l, _ => Some (l ++ vs)
  | None, [] => None
  | None, _ :: _ => Some vs
  end.

(** The keys of a dictionary, as iterating over it yields them. *)
Definition dict_keys `{Countable K} {V} (d : gmap K V) : list K :=
  (map_to_list d).*1.

Section Blog.
Context `{H : Host}.

(** *** [blogpostdirective.py]: the directives *)

Definition date_format : string := "%d.%m.%Y, %H:%M:%S".
Definition short_date_format : string := "%B %d, %Y".

(** [self.options[key]] when the option was given, else
    [empty_defaults[key]], which is [option_spec[key](None)]; the host
    has applied [option_spec[key]] to the text of a given option. *)
Definition option_or_default {V} (conv : option string -> V)
    (options : gmap string (option string)) (key : string) : V :=
  match options !! key with
  | Some argument => conv argument
  | None => conv None
  end.

(** The state of a directive is [self.state.document.settings], which
    has an [env] attribute inside a build and none outside.  [on_env f]
    reads or changes the environment object behind [settings.env] and
    raises [AttributeError] where there is none. *)
Definition on_env {A} (f : BuildEnv -> A * BuildEnv)
  : M (option BuildEnv) A :=
  fun s =>
    match s with
    | Some e => let (a, e') := f e in (inr a, Some e')
    | None => (inl (AttributeError "env"), s)
    end.

Definition settings_env : M (option BuildEnv) BuildEnv :=
  on_env (fun e => (e, e)).

Definition update_env (f : BuildEnv -> BuildEnv) : M (option BuildEnv) unit :=
  on_env (fun e => (tt, f e)).

(** [BlogPostDirective.run] *)
Definition BlogPostDirective_run (options : gmap string (option string))
  : M (option BuildEnv) (list node) :=
  let time_text := option_or_default stripped options "time" in
  let tags := option_or_default cvs_to_list options "tags" in
  let* time := lift (strptime time_text date_format) in
  let node0 :=
    {| n_author := option_or_default stripped options "author";
       n_author_email := option_or_default stripped options "author_email";
       n_tags := tags;
       n_title := option_or_default stripped options "title";
       n_category := option_or_default stripped options "category";
       n_location_city :=
         option_or_default stripped options "location_city";
       n_location_country :=
         option_or_default stripped options "location_country";
       n_time := time;
       n_summary := option_or_default stripped options "summary";
       n_summary_image :=
         option_or_default stripped options "summary_image";
       n_short_time := strftime time short_date_format;
       n_category_ref := None;
       n_docname := None;
       n_tags_ref := (fun _ => None) <$> tags;
       n_tags_and_ref := (fun _ => (None, None)) <$> tags;
       n_year := dt_year time;
       n_dirname := None;
       n_targetid := None;
       n_prev_text := None;
       n_next_text := None;
       n_next := None;
       n_prev := None |} in
  except_AttributeError
    (let* env := settings_env in
     let* serial := on_env (new_serialno "post") in
     let targetid := "post-" +:+ pretty serial in
     let targetnode := mk_target [targetid] in
     let node1 :=
       mk_BlogNode (n_author node0) (n_author_email node0) (n_tags node0)
         (n_title node0) (n_category node0) (n_location_city node0)
         (n_location_country node0) (n_time node0) (n_summary node0)
         (n_summary_image node0) (n_short_time node0)
         (n_category_ref node0) (Some (env_docname env))
         (n_tags_ref node0) (n_tags_and_ref node0) (n_year node0)
         (Some (dirname (env_docname env))) (Some targetid)
         (n_prev_text node0) (n_next_text node0) (n_next node0)
         (n_prev node0) in
     let* return_nodes :=
       (if decide (n_summary_image node1 = "") then ret []
        else
          update_env (fun e =>
            set_images (images e ++ [("", n_summary_image node1)]) e)
          >> ret [NSubstitution (n_summary_image node1)]) in
     update_env (fun e =>
       set_all_posts
         (default [] (all_posts e)
          ++ [mk_PostInfo time node1 (env_docname env) time targetid
                targetnode]) e)
     >> ret (return_nodes ++ [NTarget targetnode; NBlog node1]))
    (ret [NBlog node0]).

(** [BlogCategoryDirective.run] *)
Definition BlogCategoryDirective_run : M (option BuildEnv) (list node) :=
  let* env := settings_env in
  match category_docname env with
  | None =>
      update_env (set_category_docname (env_docname env))
      >> ret [NCategory]
  | Some _ => raise (ValueError "Only one category list is supported!")
  end.

(** [BlogTagDirective.run] *)
Definition BlogTagDirective_run : M (option BuildEnv) (list node) :=
  let* env := settings_env in
  match tag_docname env with
  | None =>
      update_env (set_tag_docname (env_docname env)) >> ret [NTag]
  | Some _ => raise (ValueError "Only one tag list is supported!")
  end.

(** [BlogTagListDirective.run] *)
Definition BlogTagListDirective_run : M (option BuildEnv) (list node) :=
  let* env := settings_env in
  ret [NTagList (env_docname env)].

(** [BlogArchiveDirective.run] *)
Definition BlogArchiveDirective_run : M (option BuildEnv) (list node) :=
  let* env := settings_env in
  match archive_docname env with
  | None =>
      update_env (set_archive_docname (env_docname env)) >> ret [NArchive]
  | Some _ => raise (ValueError "Only one archive list is supported!")
  end.

(** [BlogRecentDirective.run]; [options] holds the one option
    [length] when it was given. *)
Definition BlogRecentDirective_run (options : gmap string Z)
  : M (option BuildEnv) (list node) :=
  let* len := lift (match options !! "length" with
                    | Some v => inr v
                    | None => inl (KeyError "length")
                    end) in
  let node := mk_RecentNode len [] 0 in
  let* env := settings_env in
  match recent_docname env with
  | None =>
      update_env (set_recent_docname (env_docname env)) >>
      update_env (fun e =>
        set_recent_nodes (default [] (recent_nodes e) ++ [node]) e) >>
      ret [NRecent node]
  | Some _ => raise (ValueError "Recent posts can only be inserted once!")
  end.

(** *** [__init__.py]: aggregation *)

(** [env.all_posts]: an [AttributeError] before the first post. *)
Definition env_all_posts : M BuildEnv (list PostInfo) :=
  fun e =>
    match all_posts e with
    | Some posts => (inr posts, e)
    | None => (inl (AttributeError "all_posts"), e)
    end.

(** The reference [make_references] builds for one post. *)
Definition make_reference (fromdocname : string) (post_info : PostInfo)
  : reference :=
  let post_node := pi_post_node post_info in
  mk_reference (n_title post_node)
    (get_relative_uri (Some fromdocname) (pi_docname post_info)
     +:+ "#" +:+ target_refid (pi_targetnode post_info)).

(** [make_references(app, fromdocname)] *)
Definition make_references (fromdocname : string)
  : M BuildEnv (list reference) :=
  let* posts := env_all_posts in
  ret (make_reference fromdocname <$> posts).

Definition make_item (post_info : PostInfo) (refnode : reference) : Item :=
  mk_Item (pi_time post_info) refnode (pi_post_node post_info).

Definition make_flat_item (post_info : PostInfo) (refnode : reference)
  : FlatItem :=
  mk_FlatItem (pi_time post_info) refnode (pi_post_node post_info)
    (pi_docname post_info).

(** [sorted(items, key=lambda x: x['time'], reverse=True)] *)
Definition sort_items (items : list Item) : list Item :=
  sorted dt_ltb it_time true items.

Definition sort_flat_items (items : list FlatItem) : list FlatItem :=
  sorted dt_ltb fi_time true items.

(** The body of the loop that issues the identifiers of one grouping
    kind: [ids[key] = prefix % env.new_serialno(kind)]. *)
Definition issue_id `{Countable K} (prefix kind : string)
    (acc : gmap K string * BuildEnv) (key : K) : gmap K string * BuildEnv :=
  let (n, e') := new_serialno kind (snd acc) in
  (<[key := prefix +:+ pretty n]> (fst acc), e').

(** [for key in keys: ...], starting from the empty dictionary. *)
Definition assign_ids `{Countable K} (prefix kind : string) (keys : list K)
    (e : BuildEnv) : gmap K string * BuildEnv :=
  fold_left (issue_id prefix kind) keys (∅, e).

(** The first loop of [build_category_info]. *)
Definition collect_categories (posts : list (PostInfo * reference))
  : gmap string (list Item) :=
  fold_left
    (fun categories pr =>
       dict_append categories (n_category (pi_post_node (fst pr)))
         (make_item (fst pr) (snd pr)))
    posts ∅.

(** [build_category_info(app, fromdocname)] *)
Definition build_category_info (fromdocname : string)
  : M BuildEnv (gmap string (list Item)) :=
  let* references := make_references fromdocname in
  let* posts := env_all_posts in
  let categories := collect_categories (zip posts references) in
  let categories := sort_items <$> categories in
  let* env := get in
  match category_id env with
  | None =>
      modify (fun e =>
        let (ids, e') :=
          assign_ids "category-" "category"
            (sorted String.ltb id false (dict_keys categories)) e in
        set_category_id ids e')
      >> ret categories
  | Some _ => ret categories
  end.

(** The first loop of [build_tag_info]. *)
Definition collect_tags (posts : list (PostInfo * reference))
  : gmap string (list Item) :=
  fold_left
    (fun tags pr =>
       fold_left
         (fun tags tag => dict_append tags tag (make_item (fst pr) (snd pr)))
         (n_tags (pi_post_node (fst pr))) tags)
    posts ∅.

(** [build_tag_info(app, fromdocname)] *)
Definition build_tag_info (fromdocname : string)
  : M BuildEnv (gmap string (list Item)) :=
  let* references := make_references fromdocname in
  let* posts := env_all_posts in
  let tags := collect_tags (zip posts references) in
  let tags := sort_items <$> tags in
  let* env := get in
  match tag_id env with
  | None =>
      modify (fun e =>
        let (ids, e') :=
          assign_ids "tag-" "tag"
            (sorted String.ltb id false (dict_keys tags)) e in
        set_tag_id ids e')
      >> ret tags
  | Some _ => ret tags
  end.

(** The first loop of [build_archive_info]. *)
Definition collect_archive (posts : list (PostInfo * reference))
  : gmap Z (list Item) * list FlatItem :=
  fold_left
    (fun (acc : gmap Z (list Item) * list FlatItem) pr =>
       (dict_append (fst acc) (n_year (pi_post_node (fst pr)))
          (make_item (fst pr) (snd pr)),
        snd acc ++ [make_flat_item (fst pr) (snd pr)]))
    posts (∅, []).

(** [build_archive_info(app, fromdocname)] *)
Definition build_archive_info (fromdocname : string)
  : M BuildEnv (gmap Z (list Item) * list FlatItem) :=
  let* references := make_references fromdocname in
  let* posts := env_all_posts in
  let (archive, archive_flat) := collect_archive (zip posts references) in
  let archive := sort_items <$> archive in
  let archive_flat := sort_flat_items archive_flat in
  let* env := get in
  match archive_id env with
  | None =>
      modify (fun e =>
        let (ids, e') :=
          assign_ids "year-" "year"
            (sorted Z.ltb id false (dict_keys archive)) e in
        set_archive_id ids e')
      >> ret (archive, archive_flat)
  | Some _ => ret (archive, archive_flat)
  end.

(** *** What the aggregation calls compute *)

(** The entry of a post in a grouping listed from [fromdocname]. *)
Definition post_item (fromdocname : string) (p : PostInfo) : Item :=
  make_item p (make_reference fromdocname p).

Definition post_flat_item (fromdocname : string) (p : PostInfo) : FlatItem :=
  make_flat_item p (make_reference fromdocname p).

(** The identifiers of a grouping kind after an aggregation call. *)
Definition issue_ids `{Countable K} {V} (prefix kind : string)
    (lt : K -> K -> bool) (present : option (gmap K string))
    (d : gmap K V) (set : gmap K string -> BuildEnv -> BuildEnv) (env : BuildEnv)
  : BuildEnv :=
  match present with
  | None =>
      let (ids, e') :=
        assign_ids prefix kind (sorted lt id false (dict_keys d)) env in
      set ids e'
  | Some _ => env
  end.

Definition categories_of (fromdocname : string) (posts : list PostInfo)
  : gmap string (list Item) :=
  sort_items
    <$> collect_categories (zip posts (make_reference fromdocname <$> posts)).

Definition tags_of (fromdocname : string) (posts : list PostInfo) : gmap string (list Item) :=
  sort_items
    <$> collect_tags (zip posts (make_reference fromdocname <$> posts)).

Definition archive_of (fromdocname : string) (posts : list PostInfo)
  : gmap Z (list Item) :=
  sort_items
    <$> fst (collect_archive
               (zip posts (make_reference fromdocname <$> posts))).

Definition archive_flat_of (fromdocname : string) (posts : list PostInfo) : list FlatItem :=
  sort_flat_items
    (snd (collect_archive
            (zip posts (make_reference fromdocname <$> posts)))).



(** The posts of the store filed under a category, a year and a tag, in
    store order; a post is filed under a tag once for each time the tag
    stands in its tag list. *)
Definition category_entries (fromdocname : string) (posts : list PostInfo)
    (cat : string) : list Item :=
  post_item fromdocname
    <$> filter (fun p => n_category (pi_post_node p) = cat) posts.

Definition year_entries (fromdocname : string) (posts : list PostInfo)
    (year : Z) : list Item :=
  post_item fromdocname
    <$> filter (fun p => n_year (pi_post_node p) = year) posts.

Definition tag_entries (fromdocname : string) (posts : list PostInfo)
    (tag : string) : list Item :=
  posts ≫= fun p =>
    (fun _ => post_item fromdocname p)
      <$> filter (fun t => t = tag) (n_tags (pi_post_node p)).



Definition tag_posts (posts : list PostInfo) (tag : string)
  : list PostInfo :=
  posts ≫= fun p =>
    (fun _ => p) <$> filter (fun t => t = tag) (n_tags (pi_post_node p)).

(** An entry of a grouping stands for a post of the store: it has the
    publish time and the node of the post, and its reference has the title
    of the post and leads from [fromdocname] to the target of the post. *)
Definition stands_for (fromdocname : string) (item : Item) (p : PostInfo)
  : Prop :=
  it_time item = pi_time p
  /\ it_post_node item = pi_post_node p
  /\ r_text (it_refnode item) = n_title (pi_post_node p)
  /\ r_refuri (it_refnode item)
     = get_relative_uri (Some fromdocname) (pi_docname p)
       +:+ "#" +:+ target_refid (pi_targetnode p).



(** The identifiers [ids] go to the keys [d_keys] in ascending order of
    the keys, with the numbers [first], [first + 1], ... *)
Definition issued_in_key_order {K} `{Countable K} (lt : K -> K -> bool)
    (prefix : string) (first : nat) (d_keys : list K) (ids : gmap K string)
  : Prop :=
  exists keys,
    keys ≡ₚ d_keys
    /\ StronglySorted (fun a b => lt a b = true) keys
    /\ (forall i k, keys !! i = Some k ->
          ids !! k = Some (prefix +:+ pretty (first + i)%nat))
    /\ (forall k, k ∉ keys -> ids !! k = None).

(** The value [env.new_serialno(kind)] would return next. *)
Definition next_serialno (kind : string) (e : BuildEnv) : nat :=
  default 0%nat (temp_data e !! (kind +:+ "serialno")).

(** The first assignment of a grouping kind: [ids'] is the dictionary
    the call leaves in the environment; the counter of the kind has moved
    on by the number of keys and the counters of the other kinds have not
    moved. *)
Definition first_assignment {K} `{Countable K} (lt : K -> K -> bool)
    (prefix kind : string) (env env' : BuildEnv) (d_keys : list K)
    (ids' : option (gmap K string)) : Prop :=
  exists ids,
    ids' = Some ids
    /\ issued_in_key_order lt prefix (next_serialno kind env) d_keys ids
    /\ next_serialno kind env'
       = (next_serialno kind env + length d_keys)%nat
    /\ forall kind', kind' <> kind ->
         next_serialno kind' env' = next_serialno kind' env.

(** *** Navigation *)

(** The four direction labels; the two copies of [add_next_prev] differ
    in them only. *)
Record nav_labels : Type := mk_nav_labels {
  wrap_newest : string;
  plain_previous : string;
  wrap_oldest : string;
  plain_next : string
}.

(** The labels of [__init__.py]. *)
Definition labels : nav_labels :=
  mk_nav_labels "&olarr; Newest" "&larr; Previous"
    "Oldest &orarr;" "Next &rarr;".

(** The labels of the older [blogpost.py]. *)
Definition legacy_labels : nav_labels :=
  mk_nav_labels "Newest &olarr;" "Previous &rarr;"
    "&orarr; Oldest" "&larr; Next".

Definition set_nav (prev_text next_text next prev : string) (n : BlogNode)
  : BlogNode :=
  mk_BlogNode (n_author n) (n_author_email n) (n_tags n) (n_title n)
    (n_category n) (n_location_city n) (n_location_country n) (n_time n)
    (n_summary n) (n_summary_image n) (n_short_time n) (n_category_ref n)
    (n_docname n) (n_tags_ref n) (n_tags_and_ref n) (n_year n)
    (n_dirname n) (n_targetid n) (Some prev_text) (Some next_text)
    (Some next) (Some prev).

(** The body of the loop of [add_next_prev] at a matching index [i]. *)
Definition link_at (l : nav_labels) (archive_flat : list FlatItem) (i : Z)
    (node : BlogNode) : exn + BlogNode :=
  let postmax := (Z.of_nat (length archive_flat) - 1)%Z in
  let idx_prev := (i + 1)%Z in
  let (idx_prev, prev_text) :=
    if (idx_prev >? postmax)%Z then (0%Z, wrap_newest l)
    else (idx_prev, plain_previous l) in
  let idx_next := (i - 1)%Z in
  let (idx_next, next_text) :=
    if (idx_next <? 0)%Z then (postmax, wrap_oldest l)
    else (idx_next, plain_next l) in
  match list_get archive_flat idx_next with
  | inl e => inl e
  | inr item_next =>
      match list_get archive_flat idx_prev with
      | inl e => inl e
      | inr item_prev =>
          inr (set_nav prev_text next_text
                 (get_relative_uri (n_docname node) (fi_docname item_next))
                 (get_relative_uri (n_docname node) (fi_docname item_prev))
                 node)
      end
  end.

(** [for i, item in enumerate(archive_flat)], from index [i] on. *)
Fixpoint add_next_prev_loop (l : nav_labels) (archive_flat : list FlatItem)
    (i : Z) (rest : list FlatItem) (node : BlogNode) : exn + BlogNode :=
  match rest with
  | [] => inr node
  | item :: rest' =>
      if dt_eqb (n_time node) (fi_time item) then
        match link_at l archive_flat i node with
        | inl e => inl e
        | inr node' =>
            add_next_prev_loop l archive_flat (i + 1) rest' node'
        end
      else add_next_prev_loop l archive_flat (i + 1) rest' node
  end.

(** [add_next_prev(app, node, archive_flat)] of [__init__.py]. *)
Definition add_next_prev (node : BlogNode) (archive_flat : list FlatItem)
  : exn + BlogNode :=
  add_next_prev_loop labels archive_flat 0 archive_flat node.

(** [add_next_prev(app, node, archive_flat)] of [blogpost.py]. *)
Definition legacy_add_next_prev (node : BlogNode)
    (archive_flat : list FlatItem) : exn + BlogNode :=
  add_next_prev_loop legacy_labels archive_flat 0 archive_flat node.

(** The node with the links of position [i] of the flattened list:
    previous is the entry after [i], or the first entry (with the
    newest-wrap label) when [i] is the last position; next is the entry
    before [i], or the last entry (with the oldest-wrap label) when [i]
    is the first position. *)
Definition neighbours_at (l : nav_labels) (archive_flat : list FlatItem)
    (i : nat) (node : BlogNode) : option BlogNode :=
  let n := length archive_flat in
  let i_prev := if decide (S i = n) then 0%nat else S i in
  let i_next := if decide (i = 0%nat) then (n - 1)%nat else (i - 1)%nat in
  match archive_flat !! i_prev, archive_flat !! i_next with
  | Some item_prev, Some item_next =>
      Some (set_nav
              (if decide (S i = n) then wrap_newest l else plain_previous l)
              (if decide (i = 0%nat) then wrap_oldest l else plain_next l)
              (get_relative_uri (n_docname node) (fi_docname item_next))
              (get_relative_uri (n_docname node) (fi_docname item_prev))
              node)
  | _, _ => None
  end.

(** The offset of the last entry of [rest] with the time stamp [t]. *)
Fixpoint last_match (t : datetime) (rest : list FlatItem) : option nat :=
  match rest with
  | [] => None
  | item :: rest' =>
      match last_match t rest' with
      | Some j => Some (S j)
      | None => if dt_eqb t (fi_time item) then Some 0%nat else None
      end
  end.

(** *** The parse phase *)

Inductive directive : Type :=
| BlogPost (options : gmap string (option string))
| BlogCategory
| BlogTag
| BlogTagList
| BlogArchive
| BlogRecent (options : gmap string Z).

Definition run (d : directive) : M (option BuildEnv) (list node) :=
  match d with
  | BlogPost options => BlogPostDirective_run options
  | BlogCategory => BlogCategoryDirective_run
  | BlogTag => BlogTagDirective_run
  | BlogTagList => BlogTagListDirective_run
  | BlogArchive => BlogArchiveDirective_run
  | BlogRecent options => BlogRecentDirective_run options
  end.

(** The host reads the documents one after the other; in each it sets
    [env.docname] and runs the directives in order, and the first
    exception ends the build. *)
Fixpoint run_directives (ds : list (string * directive))
  : M (option BuildEnv) (list node) :=
  match ds with
  | [] => ret []
  | (docname, d) :: ds' =>
      modify (fmap (set_env_docname docname)) >>
      let* nodes := run d in
      let* nodes' := run_directives ds' in
      ret (nodes ++ nodes')
  end.

(** The four listing directives of which a build may hold one: the
    attribute of the environment that records the document of the first
    occurrence, and whether two directives are of the same such kind. *)
Definition singleton_docname (d : directive) (e : BuildEnv)
  : option string :=
  match d with
  | BlogCategory => category_docname e
  | BlogTag => tag_docname e
  | BlogArchive => archive_docname e
  | BlogRecent _ => recent_docname e
  | BlogPost _ | BlogTagList => None
  end.

Definition same_singleton (d d' : directive) : bool :=
  match d, d' with
  | BlogCategory, BlogCategory | BlogTag, BlogTag
  | BlogArchive, BlogArchive | BlogRecent _, BlogRecent _ => true
  | _, _ => false
  end.

(** What a listing directive raises when its kind was met before. *)
Definition second_occurrence_error (d : directive) : exn :=
  match d with
  | BlogCategory => ValueError "Only one category list is supported!"
  | BlogTag => ValueError "Only one tag list is supported!"
  | BlogArchive => ValueError "Only one archive list is supported!"
  | BlogRecent options =>
      match options !! "length" with
      | Some _ => ValueError "Recent posts can only be inserted once!"
      | None => KeyError "length"
      end
  | BlogPost _ | BlogTagList => AttributeError ""
  end.

(** The message of an exception. *)
Definition message (e : exn) : string :=
  match e with
  | ValueError msg => msg
  | KeyError key => key
  | AttributeError attr => attr
  | IndexError => ""
  end.

End Blog.

(** ** The resolve phase of [__init__.py]: listing pages and post nodes *)

(** A [BlogOutputNode]: the summary of one post in a listing. *)
Record BlogOutputNode : Type := mk_BlogOutputNode {
  bo_title : string;
  bo_summary : string;
  bo_refid : string;
  bo_time : datetime
}.

(** [nodes.reference(text, text)] with its [refid]. *)
Record id_reference : Type := mk_id_reference {
  ir_text : string;
  ir_refid : string
}.

(** A [nodes.section]: its ids and names, the ['blog'] attribute where it
    has one, and the reference in its subtitle where the extension made
    it. *)
Record section : Type := mk_section {
  s_ids : list string;
  s_names : list string;
  s_blog : option string;
  s_title : option id_reference
}.

(** The content made for a listing node, [content = [par, par_sections]]:
    the bullet list of the section references in the first paragraph, and
    in the second the sections, each followed by the summaries under
    it. *)
Record listing : Type := mk_listing {
  l_section_list : list id_reference;
  l_sections : list (section * list BlogOutputNode)
}.

(** A node of a document: one that a directive left there, or one of the
    two paragraphs that [replace_self] puts in the place of a listing node,
    [par] with the bullet list and [par_sections] with the sections.  A
    document is the list of these nodes in the order in which
    [doctree.traverse] meets them. *)
Inductive doc_node : Type :=
| Parsed (n : node)
| SectionList (section_list : list id_reference)
| Sections (sections : list (section * list BlogOutputNode)).

(** The double quote and the line feed. *)
Definition dquote : string := String (ascii_of_nat 34) "".
Definition linefeed : string := String (ascii_of_nat 10) "".

Section Resolve.
Context `{H : Host}.

(** [make_new_section(key, item_dict, env_id)]; [show] is how ['{}'.format]
    prints a key. *)
Definition make_new_section `{Countable K} (show : K -> string) (key : K)
    (item_dict : gmap K (list Item)) (env_id : gmap K string)
  : exn + (section * id_reference) :=
  match item_dict !! key with
  | None => inl (KeyError (show key))
  | Some items =>
      let titl := show key +:+ " (" +:+ pretty (length items) +:+ ")" in
      match env_id !! key with
      | None => inl (KeyError (show key))
      | Some key_id =>
          inr (mk_section [key_id] [key_id] (Some titl)
                 (Some (mk_id_reference titl key_id)),
               mk_id_reference titl key_id)
      end
  end.

(** [make_item_list(item_list)] *)
Definition make_item_list (item_list : list Item) : list BlogOutputNode :=
  (fun item =>
     mk_BlogOutputNode (n_title (it_post_node item))
       (n_summary (it_post_node item)) (r_refuri (it_refnode item))
       (it_time item)) <$> item_list.

(** The loop over the keys in [update_node_replace]: the content it
    computes for one node. *)
Fixpoint listing_of_keys `{Countable K} (show : K -> string) (keys : list K)
    (item_dict : gmap K (list Item)) (env_id : gmap K string)
  : exn + listing :=
  match keys with
  | [] => inr (mk_listing [] [])
  | key :: keys' =>
      match make_new_section show key item_dict env_id with
      | inl e => inl e
      | inr (sec, section_item) =>
          let section_content :=
            make_item_list (default [] (item_dict !! key)) in
          match listing_of_keys show keys' item_dict env_id with
          | inl e => inl e
          | inr rest =>
              inr (mk_listing (section_item :: l_section_list rest)
                     ((sec, section_content) :: l_sections rest))
          end
      end
  end.

Definition listing_content `{Countable K} (lt : K -> K -> bool)
    (show : K -> string) (item_dict : gmap K (list Item))
    (env_id : gmap K string) (reverse : bool) : exn + listing :=
  listing_of_keys show (sorted lt id reverse (dict_keys item_dict))
    item_dict env_id.

(** [update_node_replace(doctree, obj, item_dict, env_id, reverse)]; [obj]
    tells the nodes of the class looked for, among all nodes of the
    document.  The nodes [doctree.traverse(obj)] has found are visited one
    after the other, and [node.replace_self(content)] puts the two
    paragraphs of the content in the place of the node; the paragraphs put
    in are not visited. *)
Fixpoint update_node_replace `{Countable K} (lt : K -> K -> bool)
    (show : K -> string) (doctree : list doc_node) (obj : doc_node -> bool)
    (item_dict : gmap K (list Item)) (env_id : gmap K string)
    (reverse : bool) : exn + list doc_node :=
  match doctree with
  | [] => inr []
  | dn :: doctree' =>
      if obj dn then
        match listing_content lt show item_dict env_id reverse with
        | inl e => inl e
        | inr content =>
            match update_node_replace lt show doctree' obj item_dict env_id
                    reverse with
            | inl e => inl e
            | inr rest =>
                inr (SectionList (l_section_list content)
                     :: Sections (l_sections content) :: rest)
            end
        end
      else
        match update_node_replace lt show doctree' obj item_dict env_id
                reverse with
        | inl e => inl e
        | inr rest => inr (dn :: rest)
        end
  end.

(** The node classes of the three listings. *)
Definition is_CategoryNode (dn : doc_node) : bool :=
  match dn with Parsed NCategory => true | _ => false end.

Definition is_TagNode (dn : doc_node) : bool :=
  match dn with Parsed NTag => true | _ => false end.

Definition is_ArchiveNode (dn : doc_node) : bool :=
  match dn with Parsed NArchive => true | _ => false end.

(** The sections of a document, as [doctree.traverse(nodes.section)]
    meets those the extension made. *)
Definition doc_sections (doctree : list doc_node) : list section :=
  doctree ≫= fun dn =>
    match dn with
    | Parsed _ | SectionList _ => []
    | Sections sections => fst <$> sections
    end.

(** One entry of the table of contents. *)
Definition toc_entry (href text : string) : string :=
  "<li><a class=" +:+ dquote +:+ "reference internal" +:+ dquote
  +:+ " href=" +:+ dquote +:+ href +:+ dquote +:+ ">" +:+ text
  +:+ "</a></li>".

(** The lines [make_toc] collects for the sections of a document. *)
Fixpoint toc_lines (sections : list section) : exn + list string :=
  match sections with
  | [] => inr []
  | sec :: sections' =>
      match s_blog sec with
      | None => toc_lines sections'
      | Some blog =>
          match list_get (s_ids sec) 0 with
          | inl e => inl e
          | inr tag =>
              match toc_lines sections' with
              | inl e => inl e
              | inr rest => inr (toc_entry ("#" +:+ tag) blog :: rest)
              end
          end
      end
  end.

(** [make_toc(doctree, head='Tags')]; [sections] are the sections of the
    document. *)
Definition make_toc (sections : list section) (head : string)
  : exn + string :=
  match toc_lines sections with
  | inl e => inl e
  | inr lines =>
      inr (PyStr.join linefeed
             (["<ul>";
               "<li><a class=" +:+ dquote +:+ "reference internal" +:+ dquote
               +:+ " href=" +:+ dquote +:+ "#" +:+ dquote +:+ ">" +:+ head
               +:+ "</a><ul>"]
              ++ lines ++ ["</ul>"; "</li>"; "</ul>"]))
  end.

(** The references of the tags of a post node: the loop over
    [node['tags']] in [process_blog_posts]. *)
Fixpoint tag_refs (env : BuildEnv) (from : option string) (tags : list string)
  : exn + list string :=
  match tags with
  | [] => inr []
  | tag :: tags' =>
      match tag_docname env with
      | None => inl (AttributeError "tag_docname")
      | Some tdoc =>
          match tag_id env with
          | None => inl (AttributeError "tag_id")
          | Some ids =>
              match ids !! tag with
              | None => inl (KeyError tag)
              | Some tid =>
                  match tag_refs env from tags' with
                  | inl e => inl e
                  | inr rest =>
                      inr ((get_relative_uri from tdoc +:+ "#" +:+ tid)
                           :: rest)
                  end
              end
          end
      end
  end.

Definition set_refs (category_ref : string) (tags_ref : list string)
    (n : BlogNode) : BlogNode :=
  mk_BlogNode (n_author n) (n_author_email n) (n_tags n) (n_title n)
    (n_category n) (n_location_city n) (n_location_country n) (n_time n)
    (n_summary n) (n_summary_image n) (n_short_time n) (Some category_ref)
    (n_docname n) (Some <$> tags_ref)
    ((fun tr => (Some (fst tr), Some (snd tr))) <$> zip (n_tags n) tags_ref)
    (n_year n) (n_dirname n) (n_targetid n) (n_prev_text n) (n_next_text n)
    (n_next n) (n_prev n).

(** The body of the loop over the post nodes in [process_blog_posts]. *)
Definition resolve_blog_node (env : BuildEnv) (archive_flat : list FlatItem)
    (node : BlogNode) : exn + BlogNode :=
  match category_docname env with
  | None => inl (AttributeError "category_docname")
  | Some cdoc =>
      match category_id env with
      | None => inl (AttributeError "category_id")
      | Some ids =>
          match ids !! n_category node with
          | None => inl (KeyError (n_category node))
          | Some cid =>
              match tag_refs env (n_docname node) (n_tags node) with
              | inl e => inl e
              | inr tags_ref =>
                  add_next_prev
                    (set_refs
                       (get_relative_uri (n_docname node) cdoc
                        +:+ "#" +:+ cid) tags_ref node)
                    archive_flat
              end
          end
      end
  end.

End Resolve.

(** Whether a directive is a post directive. *)
Definition is_BlogPost (d : directive) : bool :=
  match d with BlogPost _ => true | _ => false end.

(** The posts of the store of an environment; none before the first. *)
Definition store (e : BuildEnv) : list PostInfo := default [] (all_posts e).

(** ** A host to run the model on

    The properties below hold for every host.  This one makes the model
    executable: its [strptime] reads the post format in its zero-padded
    layout (the library also reads fields written without padding), and
    its URIs are the target document with the HTML suffix. *)
Module SampleHost.

Definition digit (c : ascii) : option Z :=
  let n := Z.of_nat (nat_of_ascii c) in
  if ((48 <=? n) && (n <=? 57))%Z then Some (n - 48)%Z else None.

Fixpoint number (acc : Z) (cs : list ascii) : option Z :=
  match cs with
  | [] => Some acc
  | c :: cs' =>
      match digit c with
      | Some d => number (10 * acc + d) cs'
      | None => None
      end
  end.

Definition leap_year (y : Z) : bool :=
  (((y mod 4 =? 0) && negb (y mod 100 =? 0)) || (y mod 400 =? 0))%Z.

Definition days_in_month (y m : Z) : Z :=
  if (m =? 2)%Z then (if leap_year y then 29 else 28)%Z
  else if ((m =? 4) || (m =? 6) || (m =? 9) || (m =? 11))%Z then 30%Z
  else 31%Z.

Definition strptime (data format : string) : exn + datetime :=
  let mismatch :=
    inl (ValueError ("time data '" +:+ data +:+ "' does not match format '"
                     +:+ format +:+ "'")) in
  match list_ascii_of_string data with
  | [d1; d2; p1; m1; m2; p2; y1; y2; y3; y4; c0; sp; h1; h2; c1; mi1; mi2;
     c2; s1; s2] =>
      if Ascii.eqb p1 "." && Ascii.eqb p2 "." && Ascii.eqb c0 ","
         && Ascii.eqb sp " " && Ascii.eqb c1 ":" && Ascii.eqb c2 ":"
      then
        match number 0 [d1; d2], number 0 [m1; m2],
              number 0 [y1; y2; y3; y4], number 0 [h1; h2],
              number 0 [mi1; mi2], number 0 [s1; s2] with
        | Some d, Some m, Some y, Some hh, Some mi, Some ss =>
            if ((1 <=? m) && (m <=? 12) && (1 <=? d) && (d <=? 31)
                && (hh <=? 23) && (mi <=? 59) && (ss <=? 59))%Z
            then
              if ((1 <=? y) && (d <=? days_in_month y m))%Z
              then inr (mk_datetime y m d hh mi ss)
              else inl (ValueError "day is out of range for month")
            else mismatch
        | _, _, _, _, _, _ => mismatch
        end
      else mismatch
  | _ => mismatch
  end.

Definition month_names : list string :=
  ["January"; "February"; "March"; "April"; "May"; "June"; "July";
   "August"; "September"; "October"; "November"; "December"].

Definition two_digits (n : Z) : string :=
  if (n <? 10)%Z then "0" +:+ pretty n else pretty n.

(** The short date of a post, "%B %d, %Y", which is the one format the
    extension prints. *)
Definition strftime (t : datetime) (format : string) : string :=
  default "" (month_names !! Z.to_nat (dt_month t - 1))
  +:+ " " +:+ two_digits (dt_day t) +:+ ", " +:+ pretty (dt_year t).

Definition get_relative_uri (from : option string) (to : string) : string :=
  to +:+ ".html".

Definition target_refid (t : target) : string := default "" (head (t_ids t)).

Definition dirname (path : string) : string :=
  default "" (PyStr.before_last "/" path).

Definition host : Host :=
  Build_Host strptime strftime get_relative_uri target_refid dirname.

End SampleHost.

(** ** Sample builds *)
Module Samples.

Definition options_of (l : list (string * string))
  : gmap string (option string) :=
  list_to_map ((fun kv => (fst kv, Some (snd kv))) <$> l).

Definition post (title category tags time : string) : directive :=
  BlogPost (options_of [("title", title); ("category", category);
                        ("tags", tags); ("time", time)]).

(** The state of the first directive of a build. *)
Definition start : option BuildEnv := Some (fresh_env "").

(** The environment after the directives [ds] of a build. *)
Definition env_after (ds : list (string * directive)) : BuildEnv :=
  default (fresh_env "")
    (snd (run_directives (H := SampleHost.host) ds start)).

(** Three posts of the categories b, a and c. *)
Definition three_posts : list (string * directive) :=
  [("posts/one", post "One" "b" "x, y" "01.02.2018, 10:00:00");
   ("posts/two", post "Two" "a" "y" "03.02.2018, 10:00:00");
   ("posts/three", post "Three" "c" "x" "02.02.2018, 10:00:00")].

Definition three_posts_store : list PostInfo :=
  default [] (all_posts (env_after three_posts)).

(** One post whose tag list names the tag a twice. *)
Definition twice_tagged : list (string * directive) :=
  [("posts/one", post "One" "b" "a, a" "01.02.2018, 10:00:00")].

Definition twice_tagged_store : list PostInfo :=
  default [] (all_posts (env_after twice_tagged)).

(** A build in which the categories are listed after a first post of
    category a, and a post of category b is read after that. *)
Definition env_first_call : BuildEnv :=
  snd (build_category_info (H := SampleHost.host) "index"
         (env_after
            [("posts/one", post "One" "a" "" "01.02.2018, 10:00:00")])).

Definition env_second_call : BuildEnv :=
  default (fresh_env "")
    (snd (run_directives (H := SampleHost.host)
            [("posts/two", post "Two" "b" "" "02.02.2018, 10:00:00")]
            (Some env_first_call))).

Definition second_call_store : list PostInfo :=
  default [] (all_posts env_second_call).

(** The environment after the three aggregation calls on the three
    posts. *)
Definition env_listed : BuildEnv :=
  snd (build_archive_info (H := SampleHost.host) "index"
         (snd (build_tag_info (H := SampleHost.host) "index"
                 (snd (build_category_info (H := SampleHost.host) "index"
                         (env_after three_posts)))))).

(** A post node and an entry of the flattened list with nothing but a
    time stamp and a document. *)
Definition node_of (time : datetime) (docname : string) : BlogNode :=
  mk_BlogNode "" "" [] "" "" "" "" time "" "" "" None (Some docname) [] []
    (dt_year time) None None None None None None.

Definition entry_of (time : datetime) (docname : string) : FlatItem :=
  mk_FlatItem time (mk_reference "" "") (node_of time docname) docname.

Definition noon (day : Z) : datetime := mk_datetime 2018 2 day 12 0 0.

(** Three posts of three days, newest first. *)
Definition three_days : list FlatItem :=
  [entry_of (noon 3) "p1"; entry_of (noon 2) "p2"; entry_of (noon 1) "p3"].

(** Two posts of one time stamp in front of an older one. *)
Definition same_time : list FlatItem :=
  [entry_of (noon 2) "a"; entry_of (noon 2) "b"; entry_of (noon 1) "c"].

(** A text of 51 characters without a space, and one with spaces. *)
Definition no_space_51 : string :=
  "aaaaaaaaaaaaaaaaaaaaaaaaaaaaaaaaaaaaaaaaaaaaaaaaaaa".

Definition spaced_51 : string :=
  "The quick brown fox jumps over the lazy dog and ran".

(** A build with the three listing pages and the three posts. *)
Definition site : list (string * directive) :=
  [("categories", BlogCategory); ("tags", BlogTag); ("archive", BlogArchive)]
  ++ three_posts.

Definition site_store : list PostInfo :=
  default [] (all_posts (env_after site)).

(** A build with a categories page and no post. *)
Definition listing_only : list (string * directive) :=
  [("categories", BlogCategory)].

(** Two documents with a tag list each. *)
Definition tag_lists : list (string * directive) :=
  [("one", BlogTagList); ("two", BlogTagList)].

(** A document with the three listing nodes and a tag list. *)
Definition page : list doc_node :=
  [Parsed NCategory; Parsed NTag; Parsed NArchive; Parsed (NTagList "page")].

(** The categories of the three posts, their identifiers after the
    aggregation calls, and the content of their listing. *)
Definition listed_categories : gmap string (list Item) :=
  categories_of (H := SampleHost.host) "index" three_posts_store.

Definition listed_category_id : gmap string string :=
  default ∅ (category_id env_listed).

Definition categories_listing : listing :=
  match listing_content String.ltb id listed_categories listed_category_id
          false with
  | inr l => l
  | inl _ => mk_listing [] []
  end.

(** A build with a categories page, no tags page, and two posts, of
    which the second has no [tags] option. *)
Definition categories_only_site : list (string * directive) :=
  [("categories", BlogCategory);
   ("posts/one", post "One" "b" "x" "01.02.2018, 10:00:00");
   ("posts/two",
    BlogPost (options_of [("title", "Two"); ("category", "a");
                          ("time", "03.02.2018, 10:00:00")]))].

Definition categories_only_store : list PostInfo :=
  default [] (all_posts (env_after categories_only_site)).


(** The categories and the identifiers after the post of category b that
    was read after the first aggregation call. *)
Definition late_categories : gmap string (list Item) :=
  categories_of (H := SampleHost.host) "index" second_call_store.

Definition late_category_id : gmap string string :=
  default ∅ (category_id env_second_call).

End Samples.

(** * Properties *)

(** ** Strings *)
Module PyStrFacts.
Import PyStr.

Lemma char_at_slice_to n s i :
  (i < n)%nat -> char_at i (slice_to n s) = char_at i s.
Proof.
  revert s i. induction n as [|n IH]; intros s i Hi; [lia|].
  destruct s as [|c r]; [done|]. destruct i as [|i]; [done|].
  simpl. apply IH. lia.
Qed.

Lemma slice_to_slice_to i n s :
  (i <= n)%nat -> slice_to i (slice_to n s) = slice_to i s.
Proof.
  revert n s. induction i as [|i IH]; intros n s Hi; [by destruct n|].
  destruct n as [|n]; [lia|]. destruct s as [|c r]; [done|].
  simpl. f_equal. apply IH. lia.
Qed.

Lemma length_slice_to n s : len (slice_to n s) = Nat.min n (len s).
Proof.
  revert s. induction n as [|n IH]; intros [|c r]; simpl; try done.
  unfold len in IH. by rewrite IH.
Qed.

Lemma slice_to_all n s : (len s <= n)%nat -> slice_to n s = s.
Proof.
  revert s. induction n as [|n IH]; intros [|c r]; simpl; try done.
  - unfold len. simpl. lia.
  - intros Hl. f_equal. apply IH. unfold len in *. simpl in Hl. lia.
Qed.

Lemma char_at_Some_lt i s c : char_at i s = Some c -> (i < len s)%nat.
Proof.
  revert i. induction s as [|d r IH]; intros i; [by destruct i|].
  destruct i as [|i]; simpl; [unfold len; simpl; lia|].
  intros Hc. apply IH in Hc. unfold len in *. simpl. lia.
Qed.

Lemma length_app s t : len (s +:+ t) = (len s + len t)%nat.
Proof.
  unfold len. induction s as [|c r IH]; simpl; [done|]. by rewrite IH.
Qed.

Lemma contains_false_char_at c s i :
  contains c s = false -> char_at i s <> Some c.
Proof.
  revert i. induction s as [|d r IH]; intros i; [by destruct i|]. simpl.
  destruct (Ascii.eqb_spec d c) as [->|Hne]; [done|]. intros Hc.
  destruct i as [|i]; simpl; [congruence|]. by apply IH.
Qed.

Lemma before_last_None sep s :
  before_last sep s = None <-> contains sep s = false.
Proof.
  induction s as [|c r IH]; simpl; [done|].
  destruct (before_last sep r) as [h|].
  - split; [done|]. destruct (Ascii.eqb c sep); [done|].
    intros Hc. apply IH in Hc. done.
  - destruct (Ascii.eqb c sep); [done|]. split; [|done].
    intros _. by apply IH.
Qed.

(** The head that [rsplit] returns stops at the last separator. *)
Lemma before_last_Some sep s h :
  before_last sep s = Some h ->
  h = slice_to (len h) s /\ char_at (len h) s = Some sep
  /\ forall j, (len h < j)%nat -> char_at j s <> Some sep.
Proof.
  revert h. induction s as [|c r IH]; intros h; [done|]. simpl.
  destruct (before_last sep r) as [h'|] eqn:Hb.
  - intros [= <-]. destruct (IH h' eq_refl) as (Hh & Hc & Hj).
    unfold len in *. simpl. split; [by rewrite <- Hh|]. split; [done|].
    intros [|j] Hlt; [lia|]. apply Hj. lia.
  - destruct (Ascii.eqb_spec c sep) as [->|Hne]; [|done].
    intros [= <-]. unfold len. simpl. split; [done|]. split; [done|].
    intros [|j] Hlt; [lia|]. simpl. apply contains_false_char_at.
    by apply before_last_None.
Qed.

(** *** [split] and [join] *)

Lemma split_not_nil sep s : split sep s <> [].
Proof.
  destruct s as [|c r]; simpl; [done|].
  destruct (Ascii.eqb c sep); [done|]. by destruct (split sep r).
Qed.

Lemma length_split sep s : length (split sep s) = S (count sep s).
Proof.
  induction s as [|c r IH]; simpl; [done|].
  destruct (Ascii.eqb c sep); simpl; [by rewrite IH|].
  destruct (split sep r) eqn:Hs; [by apply split_not_nil in Hs|].
  simpl in *. done.
Qed.

Lemma join_split sep s : join (String sep "") (split sep s) = s.
Proof.
  induction s as [|c r IH]; simpl; [done|].
  destruct (Ascii.eqb_spec c sep) as [->|Hne].
  - destruct (split sep r) eqn:Hs; [by apply split_not_nil in Hs|].
    simpl. by rewrite <- IH.
  - destruct (split sep r) as [|h t] eqn:Hs;
      [by apply split_not_nil in Hs|].
    rewrite <- IH. destruct t; simpl; done.
Qed.

Lemma split_no_sep sep s :
  Forall (fun p => contains sep p = false) (split sep s).
Proof.
  induction s as [|c r IH]; simpl; [by repeat constructor|].
  destruct (Ascii.eqb_spec c sep) as [->|Hne]; [by constructor|].
  destruct (split sep r) as [|h t] eqn:Hs; [by apply split_not_nil in Hs|].
  inversion IH; subst. constructor; [|done]. simpl.
  destruct (Ascii.eqb_spec c sep); [done|]. done.
Qed.

(** *** [strip] and [lower] *)


Lemma lstrip_first s c : first_char (lstrip s) = Some c -> isspace c = false.
Proof.
  induction s as [|d r IH]; simpl; [done|].
  destruct (isspace d) eqn:Hd; [done|]. unfold first_char. simpl.
  by intros [= <-].
Qed.

Lemma rstrip_last s c : last_char (rstrip s) = Some c -> isspace c = false.
Proof.
  induction s as [|d r IH]; simpl; [done|].
  destruct (rstrip r) as [|e r'] eqn:Hr.
  - destruct (isspace d) eqn:Hd; simpl; [done|]. by intros [= <-].
  - simpl. simpl in IH. done.
Qed.

Lemma rstrip_first s c :
  first_char (rstrip s) = Some c -> first_char s = Some c.
Proof.
  destruct s as [|d r]; simpl; [done|]. unfold first_char.
  destruct (rstrip r); [destruct (isspace d)|]; simpl; done.
Qed.

Lemma strip_trimmed s : trimmed (strip s).
Proof.
  split; intros c Hc.
  - apply rstrip_first in Hc. by apply lstrip_first in Hc.
  - by apply rstrip_last in Hc.
Qed.

Lemma isspace_lower_char c : isspace (lower_char c) = isspace c.
Proof. by destruct c as [[] [] [] [] [] [] [] []]. Qed.

Lemma isupper_lower_char c : isupper (lower_char c) = false.
Proof. by destruct c as [[] [] [] [] [] [] [] []]. Qed.

Lemma first_char_lower s :
  first_char (lower s) = lower_char <$> first_char s.
Proof. by destruct s. Qed.

Lemma last_char_lower s : last_char (lower s) = lower_char <$> last_char s.
Proof.
  induction s as [|c r IH]; [done|]. simpl. destruct r; [done|].
  simpl in *. done.
Qed.

Lemma lower_trimmed s : trimmed s -> trimmed (lower s).
Proof.
  intros [Hf Hl]. split; intros c.
  - rewrite first_char_lower. destruct (first_char s) as [d|]; [|done].
    intros [= <-]. rewrite isspace_lower_char. by apply Hf.
  - rewrite last_char_lower. destruct (last_char s) as [d|]; [|done].
    intros [= <-]. rewrite isspace_lower_char. by apply Hl.
Qed.

Lemma lower_lowercase s : lowercase (lower s).
Proof.
  unfold lowercase. induction s as [|c r IH]; [done|]. simpl.
  by rewrite isupper_lower_char, IH.
Qed.

End PyStrFacts.

(** ** The text helpers *)
Section TextFacts.
Import PyStr PyStrFacts.

(** C9, as the code has it.  With the limit 50, a text of at most 50
    characters is returned unchanged.  A longer text gives a head
    followed by "...": the head is the text up to the last space among
    its first 50 characters, and when these hold no space it is all 50 of
    them.  The result can be longer than 50 characters. *)
Theorem shorten_text_limit_50 (text : string) :
  ((len text <= 50)%nat -> shorten_text_default text = text)
  /\ ((50 < len text)%nat ->
      exists head,
        shorten_text_default text = head +:+ "..."
        /\ ((exists i, (i < 50)%nat /\ char_at i text = Some " "%char
               /\ (forall j, (i < j < 50)%nat ->
                     char_at j text <> Some " "%char)
               /\ head = slice_to i text)
            \/ ((forall j, (j < 50)%nat -> char_at j text <> Some " "%char)
                /\ head = slice_to 50 text)))
  /\ (exists long, len long = 51%nat
                   /\ (50 < len (shorten_text_default long))%nat).
Proof.
  unfold shorten_text_default, shorten_text. split_and!.
  - intros Hl. by destruct (Nat.leb_spec (len text) 50); [|lia].
  - intros Hl. destruct (Nat.leb_spec (len text) 50); [lia|].
    unfold rsplit1_head.
    destruct (before_last " " (slice_to 50 text)) as [h|] eqn:Hb.
    + exists h. split; [done|]. left.
      destruct (before_last_Some _ _ _ Hb) as (Hh & Hc & Hlater).
      assert (len h < 50)%nat as Hi.
      { apply char_at_Some_lt in Hc. rewrite length_slice_to in Hc. lia. }
      exists (len h). split_and!; [done| | |].
      * by rewrite char_at_slice_to in Hc.
      * intros j [Hj1 Hj2]. specialize (Hlater j Hj1).
        by rewrite char_at_slice_to in Hlater.
      * rewrite Hh at 1. apply slice_to_slice_to. lia.
    + exists (slice_to 50 text). split; [done|]. right. split; [|done].
      intros j Hj. apply before_last_None in Hb.
      rewrite <- (char_at_slice_to 50) by done.
      by apply contains_false_char_at.
  - exists "aaaaaaaaaaaaaaaaaaaaaaaaaaaaaaaaaaaaaaaaaaaaaaaaaaa".
    split; [reflexivity|]. vm_compute. lia.
Qed.

(** C10.  A missing argument gives the empty list.  A given argument is
    cut at its commas, so that joining the pieces with commas gives the
    argument back and no piece holds a comma; the result holds, in the
    order of the pieces and one for each piece, every piece without the
    white space at its ends and in lower case.  So " A, b ,C" gives
    a, b, c, and a value written twice stays twice. *)
Theorem cvs_to_list_spec :
  cvs_to_list None = []
  /\ cvs_to_list (Some " A, b ,C") = ["a"; "b"; "c"]
  /\ cvs_to_list (Some "a,b,a") = ["a"; "b"; "a"]
  /\ forall argument,
       let pieces := split "," argument in
       join "," pieces = argument
       /\ Forall (fun piece => contains "," piece = false) pieces
       /\ length (cvs_to_list (Some argument)) = S (count "," argument)
       /\ (forall i,
             cvs_to_list (Some argument) !! i
             = (fun piece => lower (strip piece)) <$> pieces !! i)
       /\ Forall (fun value => trimmed value /\ lowercase value)
            (cvs_to_list (Some argument)).
Proof.
  split_and!; [done..|]. intros argument pieces. split_and!.
  - apply join_split.
  - apply split_no_sep.
  - unfold cvs_to_list. by rewrite length_fmap, length_split.
  - intros i. unfold cvs_to_list. by rewrite list_lookup_fmap.
  - unfold cvs_to_list. apply Forall_fmap, Forall_true. intros piece.
    split; [apply lower_trimmed, strip_trimmed|apply lower_lowercase].
Qed.

End TextFacts.

(** ** The stable sort *)
Section SortedFacts.
Context {A K : Type} `{EqDecision K} (lt : K -> K -> bool) (key : A -> K).


Lemma insert_by_Permutation reverse x l :
  insert_by lt key reverse x l ≡ₚ x :: l.
Proof.
  induction l as [|y l IH]; simpl; [done|].
  destruct (stays_before lt key reverse y x); [|done].
  rewrite IH. apply Permutation_swap.
Qed.

Lemma sorted_Permutation reverse l : sorted lt key reverse l ≡ₚ l.
Proof.
  induction l as [|x l IH]; simpl; [done|].
  rewrite insert_by_Permutation. by rewrite IH.
Qed.

Lemma length_sorted reverse l : length (sorted lt key reverse l) = length l.
Proof. apply Permutation_length, sorted_Permutation. Qed.

(** Elements of one key keep their order: the sort is stable. *)
Lemma insert_by_filter (P : A -> Prop) `{!forall a, Decision (P a)}
    reverse x l :
  (forall y, P x -> P y -> stays_before lt key reverse y x = false) ->
  filter P (insert_by lt key reverse x l) = filter P (x :: l).
Proof.
  intros Hclass. induction l as [|y l IH]; simpl; [done|].
  destruct (stays_before lt key reverse y x) eqn:Hs; [|done].
  rewrite !filter_cons in *. rewrite IH.
  destruct (decide (P x)) as [Hx|Hx], (decide (P y)) as [Hy|Hy]; try done.
  rewrite Hclass in Hs; done.
Qed.

Lemma sorted_filter (P : A -> Prop) `{!forall a, Decision (P a)} reverse l :
  (forall x y, P x -> P y -> stays_before lt key reverse y x = false) ->
  filter P (sorted lt key reverse l) = filter P l.
Proof.
  intros Hclass. induction l as [|x l IH]; simpl; [done|].
  rewrite insert_by_filter by auto. rewrite !filter_cons. by rewrite IH.
Qed.

Hypothesis lt_irrefl : forall a, lt a a = false.

Lemma sorted_stable reverse l (k : K) :
  filter (fun a => key a = k) (sorted lt key reverse l)
  = filter (fun a => key a = k) l.
Proof.
  apply sorted_filter. intros x y Hx Hy. unfold stays_before.
  rewrite Hx, Hy. by destruct reverse.
Qed.

Hypothesis lt_asym : forall a b, lt a b = true -> lt b a = false.
Hypothesis lt_negtrans :
  forall a b c, lt a b = false -> lt b c = false -> lt a c = false.

Lemma in_order_trans reverse a b c :
  in_order lt key reverse a b -> in_order lt key reverse b c -> in_order lt key reverse a c.
Proof.
  unfold in_order, stays_before. destruct reverse; intros Hab Hbc; eauto.
Qed.

Lemma insert_by_sorted reverse x l :
  StronglySorted (in_order lt key reverse) l ->
  StronglySorted (in_order lt key reverse) (insert_by lt key reverse x l).
Proof.
  induction 1 as [|y l Hl IH Hy]; simpl; [by repeat constructor|].
  destruct (stays_before lt key reverse y x) eqn:Hs.
  - constructor; [done|].
    rewrite Forall_forall in *. intros z Hz.
    rewrite insert_by_Permutation in Hz.
    apply elem_of_cons in Hz as [->|Hz].
    + unfold in_order, stays_before in *.
      destruct reverse; by apply lt_asym.
    + by apply Hy.
  - constructor; [by constructor|]. constructor; [done|].
    rewrite Forall_forall in *. intros z Hz.
    by apply (in_order_trans reverse x y z); [|apply Hy].
Qed.

Lemma sorted_sorted reverse l :
  StronglySorted (in_order lt key reverse) (sorted lt key reverse l).
Proof.
  induction l as [|x l IH]; simpl; [constructor|].
  by apply insert_by_sorted.
Qed.

Hypothesis lt_total : forall a b, a <> b -> lt a b = true \/ lt b a = true.

(** A list in order is determined by its sub-lists of equal keys: there
    is one stable sorted arrangement of a list. *)
Lemma stable_sorted_unique reverse l1 l2 :
  StronglySorted (in_order lt key reverse) l1 ->
  StronglySorted (in_order lt key reverse) l2 ->
  (forall k, filter (fun a => key a = k) l1
             = filter (fun a => key a = k) l2) ->
  l1 = l2.
Proof.
  intros H1. revert l2. induction H1 as [|a l1 Hs1 IH Ha];
    intros l2 H2 Hf.
  - destruct l2 as [|b l2]; [done|]. specialize (Hf (key b)).
    rewrite filter_cons in Hf. by destruct (decide (key b = key b)).
  - induction H2 as [|b l2 Hs2 _ Hb].
    + specialize (Hf (key a)). rewrite filter_cons in Hf.
      by destruct (decide (key a = key a)).
    + assert (key a = key b) as Hk.
      { destruct (decide (key a = key b)) as [|Hne]; [done|]. exfalso.
        assert (b ∈ l1) as Hb1.
        { pose proof (Hf (key b)) as Hfb. rewrite !filter_cons in Hfb.
          destruct (decide (key a = key b)); [done|].
          destruct (decide (key b = key b)); [|done].
          assert (b ∈ filter (fun x => key x = key b) l1) as Hin
            by (rewrite Hfb; left).
          by apply list_elem_of_filter in Hin as [_ ?]. }
        assert (a ∈ l2) as Ha2.
        { pose proof (Hf (key a)) as Hfa. rewrite !filter_cons in Hfa.
          destruct (decide (key b = key a)); [congruence|].
          destruct (decide (key a = key a)); [|done].
          assert (a ∈ filter (fun x => key x = key a) l2) as Hin
            by (rewrite <- Hfa; left).
          by apply list_elem_of_filter in Hin as [_ ?]. }
        rewrite Forall_forall in Ha, Hb.
        apply Ha in Hb1. apply Hb in Ha2.
        unfold in_order, stays_before in Hb1, Ha2.
        destruct (lt_total _ _ Hne) as [Hlt|Hlt]; destruct reverse;
          congruence. }
      pose proof (Hf (key a)) as Hfa. rewrite !filter_cons in Hfa.
      destruct (decide (key a = key a)); [|done].
      destruct (decide (key b = key a)); [|congruence].
      injection Hfa as -> Hfa. f_equal. apply IH; [done|]. intros k.
      specialize (Hf k). rewrite !filter_cons in Hf.
      destruct (decide (key b = k)); [by injection Hf|done].
Qed.

(** Hence [sorted] is the only function that sorts stably. *)
Lemma sorted_unique reverse l l' :
  StronglySorted (in_order lt key reverse) l' ->
  (forall k, filter (fun a => key a = k) l'
             = filter (fun a => key a = k) l) ->
  l' = sorted lt key reverse l.
Proof.
  intros Hs Hf. apply (stable_sorted_unique reverse); [done| |].
  - apply sorted_sorted.
  - intros k. by rewrite sorted_stable.
Qed.

End SortedFacts.

(** ** The orders used as sort keys *)

Lemma tuple_cmp_refl a : tuple_cmp a a = Eq.
Proof. induction a as [|x a IH]; simpl; [done|]. by rewrite Z.compare_refl. Qed.

Lemma tuple_cmp_eq a b : tuple_cmp a b = Eq -> a = b.
Proof.
  revert b. induction a as [|x a IH]; intros [|y b]; simpl; try done.
  destruct (Z.compare_spec x y) as [->| |]; try done.
  intros Hc. f_equal. by apply IH.
Qed.


Lemma tuple_cmp_lt_trans a b c :
  tuple_cmp a b = Lt -> tuple_cmp b c = Lt -> tuple_cmp a c = Lt.
Proof.
  revert b c. induction a as [|x a IH]; intros [|y b] [|z c]; simpl;
    try done.
  destruct (Z.compare_spec x y) as [->|Hxy|Hxy]; try done.
  - destruct (y ?= z)%Z; try done. apply IH.
  - intros _. destruct (Z.compare_spec y z) as [->|Hyz|Hyz]; try done.
    + intros _. by apply Z.compare_lt_iff in Hxy as ->.
    + intros _. assert (x < z)%Z as Hxz by lia.
      by apply Z.compare_lt_iff in Hxz as ->.
Qed.


Lemma dt_tuple_inj a b : dt_tuple a = dt_tuple b -> a = b.
Proof. destruct a, b. unfold dt_tuple. simpl. by intros [= -> -> -> -> -> ->]. Qed.

Lemma dt_cmp_eq a b : dt_cmp a b = Eq <-> a = b.
Proof.
  unfold dt_cmp. split.
  - intros Hc. by apply dt_tuple_inj, tuple_cmp_eq.
  - intros ->. apply tuple_cmp_refl.
Qed.

Lemma dt_eqb_eq a b : dt_eqb a b = true <-> a = b.
Proof.
  unfold dt_eqb. rewrite <- dt_cmp_eq. by destruct (dt_cmp a b).
Qed.

Lemma dt_eqb_refl a : dt_eqb a a = true.
Proof. by apply dt_eqb_eq. Qed.

Lemma dt_eqb_neq a b : dt_eqb a b = false <-> a <> b.
Proof.
  rewrite <- dt_eqb_eq. destruct (dt_eqb a b); split; congruence.
Qed.

Lemma dt_ltb_irrefl a : dt_ltb a a = false.
Proof. unfold dt_ltb, dt_cmp. by rewrite tuple_cmp_refl. Qed.


Lemma dt_ltb_trans a b c :
  dt_ltb a b = true -> dt_ltb b c = true -> dt_ltb a c = true.
Proof.
  unfold dt_ltb, dt_cmp. intros Hab Hbc.
  rewrite (tuple_cmp_lt_trans _ (dt_tuple b)); [done| |].
  - by destruct (tuple_cmp (dt_tuple a) (dt_tuple b)).
  - by destruct (tuple_cmp (dt_tuple b) (dt_tuple c)).
Qed.




Lemma string_ltb_leb a b : String.ltb a b = negb (String.leb b a).
Proof.
  unfold String.ltb, String.leb. rewrite (String.compare_antisym a b).
  by destruct (b ?= a)%string.
Qed.

Lemma string_ltb_irrefl a : String.ltb a a = false.
Proof.
  rewrite string_ltb_leb. pose proof (reflexivity (R := String.le) a) as Hr.
  unfold String.le in Hr. by destruct (String.leb a a).
Qed.

Lemma string_ltb_total a b :
  a <> b -> String.ltb a b = true \/ String.ltb b a = true.
Proof.
  intros Hne. rewrite !string_ltb_leb.
  destruct (String.leb b a) eqn:Hba; [|by left].
  destruct (String.leb a b) eqn:Hab; [|by right].
  by destruct Hne; apply String.leb_antisym.
Qed.

Lemma string_ltb_asym a b : String.ltb a b = true -> String.ltb b a = false.
Proof.
  rewrite !string_ltb_leb.
  destruct (String.leb_total a b) as [-> | ->]; [done|]. done.
Qed.

Lemma string_ltb_negtrans a b c :
  String.ltb a b = false -> String.ltb b c = false -> String.ltb a c = false.
Proof.
  rewrite !string_ltb_leb. intros Hab Hbc.
  assert (String.le c a) as Hca.
  { transitivity b; unfold String.le.
    - by destruct (String.leb c b).
    - by destruct (String.leb b a). }
  unfold String.le in Hca. by destruct (String.leb c a).
Qed.

Lemma Z_ltb_irrefl a : (a <? a)%Z = false.
Proof. apply Z.ltb_irrefl. Qed.

Lemma Z_ltb_asym a b : (a <? b)%Z = true -> (b <? a)%Z = false.
Proof. lia. Qed.

Lemma Z_ltb_negtrans a b c :
  (a <? b)%Z = false -> (b <? c)%Z = false -> (a <? c)%Z = false.
Proof. lia. Qed.

Lemma Z_ltb_total a b : a <> b -> (a <? b)%Z = true \/ (b <? a)%Z = true.
Proof. lia. Qed.

(** ** Dictionaries of lists *)
Section DictFacts.
Context `{Countable K} {V : Type}.
Implicit Types (d : gmap K (list V)) (k : K) (v : V).
Implicit Types (o : option (list V)) (vs ws : list V).

Lemma extend_nil o : extend o [] = o.
Proof. destruct o as [l|]; simpl; [|done]. by rewrite app_nil_r. Qed.

Lemma extend_app o vs ws : extend (extend o vs) ws = extend o (vs ++ ws).
Proof.
  destruct o as [l|]; simpl; [by rewrite app_assoc|].
  destruct vs; simpl; [done|]. done.
Qed.

Lemma lookup_dict_append d k v k' :
  dict_append d k v !! k'
  = if decide (k = k') then extend (d !! k) [v] else d !! k'.
Proof.
  unfold dict_append. destruct (decide (k = k')) as [<-|Hne].
  - rewrite lookup_insert_eq. destruct (d !! k) as [l|] eqn:Hd; simpl.
    + by rewrite Hd.
    + by rewrite lookup_insert_eq.
  - rewrite lookup_insert_ne by done.
    destruct (d !! k); [done|]. by rewrite lookup_insert_ne.
Qed.

(** Grouping a list by a key function. *)
Lemma lookup_group {P : Type} (kf : P -> K) (vf : P -> V) (ps : list P) d k :
  fold_left (fun d p => dict_append d (kf p) (vf p)) ps d !! k
  = extend (d !! k) (vf <$> filter (fun p => kf p = k) ps).
Proof.
  revert d. induction ps as [|p ps IH]; intros d; simpl.
  { by rewrite extend_nil. }
  rewrite IH, lookup_dict_append, filter_cons.
  destruct (decide (kf p = k)) as [<-|]; [|done]. by rewrite extend_app.
Qed.

(** Grouping when an element is filed under each key of a list. *)
Lemma lookup_group_multi {P : Type} (kf : P -> list K) (vf : P -> V)
    (ps : list P) d k :
  fold_left
    (fun d p => fold_left (fun d k' => dict_append d k' (vf p)) (kf p) d)
    ps d !! k
  = extend (d !! k)
      (ps ≫= fun p => (fun _ => vf p) <$> filter (fun k' => k' = k) (kf p)).
Proof.
  revert d. induction ps as [|p ps IH]; intros d; simpl.
  { by rewrite extend_nil. }
  rewrite IH.
  rewrite (lookup_group (fun k' => k') (fun _ => vf p)).
  by rewrite extend_app.
Qed.

End DictFacts.

Lemma extend_None_Some {V} (vs l : list V) :
  extend None vs = Some l -> vs = l /\ l <> [].
Proof. destruct vs; simpl; [done|]. by intros [= <-]. Qed.

Lemma zip_fmap_self {A B} (f : A -> B) (l : list A) :
  zip l (f <$> l) = (fun a => (a, f a)) <$> l.
Proof. induction l as [|a l IH]; simpl; [done|]. by f_equal. Qed.

Lemma filter_fmap_comm {A B} (f : A -> B) (P : B -> Prop)
    `{!forall b, Decision (P b)} (l : list A) :
  filter P (f <$> l) = f <$> filter (fun a => P (f a)) l.
Proof.
  induction l as [|a l IH]; [done|].
  rewrite fmap_cons, !filter_cons.
  destruct (decide (P (f a))); by rewrite ?fmap_cons, IH.
Qed.

(** ** Aggregation *)
Section AggregationFacts.
Context `{H : Host}.
Implicit Types (posts : list PostInfo) (env : BuildEnv).


Lemma build_category_info_eq fromdocname env posts :
  all_posts env = Some posts ->
  build_category_info fromdocname env
  = (inr (categories_of fromdocname posts),
     issue_ids "category-" "category" String.ltb (category_id env)
       (categories_of fromdocname posts) set_category_id env).
Proof.
  intros Hp. unfold build_category_info, make_references, env_all_posts,
    bind, ret, get, modify, issue_ids. rewrite Hp. simpl. rewrite Hp.
  by destruct (category_id env).
Qed.

Lemma build_tag_info_eq fromdocname env posts :
  all_posts env = Some posts ->
  build_tag_info fromdocname env
  = (inr (tags_of fromdocname posts),
     issue_ids "tag-" "tag" String.ltb (tag_id env)
       (tags_of fromdocname posts) set_tag_id env).
Proof.
  intros Hp. unfold build_tag_info, make_references, env_all_posts,
    bind, ret, get, modify, issue_ids. rewrite Hp. simpl. rewrite Hp.
  by destruct (tag_id env).
Qed.

Lemma build_archive_info_eq fromdocname env posts :
  all_posts env = Some posts ->
  build_archive_info fromdocname env
  = (inr (archive_of fromdocname posts, archive_flat_of fromdocname posts),
     issue_ids "year-" "year" Z.ltb (archive_id env)
       (archive_of fromdocname posts) set_archive_id env).
Proof.
  intros Hp. unfold build_archive_info, make_references, env_all_posts,
    bind, ret, get, modify, issue_ids, archive_of, archive_flat_of.
  rewrite Hp. simpl. rewrite Hp.
  destruct (collect_archive _) as [archive flat]. simpl.
  by destruct (archive_id env).
Qed.

Lemma fold_left_fmap {A B C} (f : C -> B -> C) (g : A -> B) (l : list A) c :
  fold_left f (g <$> l) c = fold_left (fun c a => f c (g a)) l c.
Proof. revert c. induction l as [|a l IH]; intros c; simpl; [done|]. apply IH. Qed.

Lemma bind_fmap {A B C} (f : B -> list C) (g : A -> B) (l : list A) :
  (g <$> l) ≫= f = l ≫= fun a => f (g a).
Proof.
  induction l as [|a l IH]; [done|]. by rewrite fmap_cons, !bind_cons, IH.
Qed.

Lemma categories_of_lookup fromdocname posts cat :
  categories_of fromdocname posts !! cat
  = sort_items <$> extend None (category_entries fromdocname posts cat).
Proof.
  unfold categories_of, collect_categories, category_entries.
  rewrite lookup_fmap, zip_fmap_self, fold_left_fmap. f_equal.
  etrans; [apply (lookup_group (fun p => n_category (pi_post_node p))
                    (post_item fromdocname))|].
  by rewrite lookup_empty.
Qed.

Lemma tags_of_lookup fromdocname posts tag :
  tags_of fromdocname posts !! tag
  = sort_items <$> extend None (tag_entries fromdocname posts tag).
Proof.
  unfold tags_of, collect_tags, tag_entries.
  rewrite lookup_fmap, zip_fmap_self, fold_left_fmap. f_equal.
  etrans; [apply (lookup_group_multi (fun p => n_tags (pi_post_node p))
                    (post_item fromdocname))|].
  by rewrite lookup_empty.
Qed.

Lemma collect_archive_acc (ps : list (PostInfo * reference)) d fl :
  fold_left
    (fun (acc : gmap Z (list Item) * list FlatItem) pr =>
       (dict_append (fst acc) (n_year (pi_post_node (fst pr)))
          (make_item (fst pr) (snd pr)),
        snd acc ++ [make_flat_item (fst pr) (snd pr)]))
    ps (d, fl)
  = (fold_left
       (fun d pr =>
          dict_append d (n_year (pi_post_node (fst pr)))
            (make_item (fst pr) (snd pr))) ps d,
     fl ++ ((fun pr => make_flat_item (fst pr) (snd pr)) <$> ps)).
Proof.
  revert d fl. induction ps as [|pr ps IH]; intros d fl; simpl.
  - by rewrite app_nil_r.
  - rewrite IH. by rewrite <- app_assoc.
Qed.

Lemma archive_of_lookup fromdocname posts year :
  archive_of fromdocname posts !! year
  = sort_items <$> extend None (year_entries fromdocname posts year).
Proof.
  unfold archive_of, collect_archive, year_entries.
  rewrite collect_archive_acc. simpl.
  rewrite lookup_fmap, zip_fmap_self, fold_left_fmap. f_equal.
  etrans; [apply (lookup_group (fun p => n_year (pi_post_node p))
                    (post_item fromdocname))|].
  by rewrite lookup_empty.
Qed.

Lemma archive_flat_of_eq fromdocname posts :
  archive_flat_of fromdocname posts
  = sort_flat_items (post_flat_item fromdocname <$> posts).
Proof.
  unfold archive_flat_of, collect_archive. rewrite collect_archive_acc.
  simpl. rewrite zip_fmap_self. by rewrite <- list_fmap_compose.
Qed.




Lemma grouping_Permutation {K} `{Countable K} (d : gmap K (list Item))
    (entries : K -> list Item) :
  (forall k, d !! k = sort_items <$> extend None (entries k)) ->
  forall k, default [] (d !! k) ≡ₚ entries k.
Proof.
  intros Hd k. rewrite Hd.
  destruct (entries k) as [|i l]; simpl; [done|].
  apply (sorted_Permutation dt_ltb it_time true (i :: l)).
Qed.

(** The by-category list, the by-year list and the flattened list hold
    the posts of the store that belong there, each once; the list of a tag
    holds a post as often as its tag list names the tag. *)
Lemma posts_filed fromdocname posts :
  (forall cat,
     default [] (categories_of fromdocname posts !! cat)
     ≡ₚ category_entries fromdocname posts cat)
  /\ (forall year,
        default [] (archive_of fromdocname posts !! year)
        ≡ₚ year_entries fromdocname posts year)
  /\ archive_flat_of fromdocname posts
     ≡ₚ post_flat_item fromdocname <$> posts
  /\ (forall tag,
        default [] (tags_of fromdocname posts !! tag)
        ≡ₚ tag_entries fromdocname posts tag).
Proof.
  split_and!.
  - apply grouping_Permutation, categories_of_lookup.
  - apply grouping_Permutation, archive_of_lookup.
  - rewrite archive_flat_of_eq. apply sorted_Permutation.
  - apply grouping_Permutation, tags_of_lookup.
Qed.

(** A post whose tag list names no tag twice is filed once under each of
    its tags, and under no other tag. *)
Lemma tag_entries_once fromdocname p tag :
  NoDup (n_tags (pi_post_node p)) ->
  tag_entries fromdocname [p] tag
  = if decide (tag ∈ n_tags (pi_post_node p))
    then [post_item fromdocname p] else [].
Proof.
  intros Hnd. unfold tag_entries. rewrite bind_cons. cbn [mbind list_bind].
  rewrite app_nil_r.
  induction Hnd as [|t ts Hnotin Hnd IH]; [done|].
  rewrite filter_cons.
  destruct (decide (t = tag)) as [->|Hne].
  - rewrite decide_True by left. rewrite fmap_cons. f_equal.
    rewrite decide_False in IH by done. exact IH.
  - rewrite IH. destruct (decide (tag ∈ ts)) as [Hin|Hin].
    + by rewrite decide_True by (by right).
    + rewrite decide_False; [done|]. intros Hc.
      apply elem_of_cons in Hc as [->|]; done.
Qed.

(** Sorting the images of a list is sorting the list, when the images
    have the keys of the elements. *)
Lemma insert_by_fmap {A B K} (lt : K -> K -> bool) (ka : A -> K)
    (kb : B -> K) (f : A -> B) reverse x l :
  (forall a, kb (f a) = ka a) ->
  insert_by lt kb reverse (f x) (f <$> l)
  = f <$> insert_by lt ka reverse x l.
Proof.
  intros Hk. induction l as [|y l IH]; [done|].
  cbn [fmap list_fmap insert_by]. unfold stays_before. rewrite !Hk.
  destruct reverse; destruct (lt _ _); cbn [fmap list_fmap];
    by rewrite ?IH.
Qed.

Lemma sorted_fmap {A B K} (lt : K -> K -> bool) (ka : A -> K) (kb : B -> K)
    (f : A -> B) reverse l :
  (forall a, kb (f a) = ka a) ->
  sorted lt kb reverse (f <$> l) = f <$> sorted lt ka reverse l.
Proof.
  intros Hk. induction l as [|x l IH]; [done|].
  cbn [fmap list_fmap]. unfold sorted in *. cbn [foldr]. rewrite IH.
  by apply insert_by_fmap.
Qed.

Lemma tag_entries_posts fromdocname posts tag :
  tag_entries fromdocname posts tag
  = post_item fromdocname <$> tag_posts posts tag.
Proof.
  unfold tag_entries, tag_posts.
  induction posts as [|p posts IH]; [done|].
  cbn [mbind list_bind]. rewrite fmap_app, <- IH. f_equal.
  by rewrite <- list_fmap_compose.
Qed.

(** What the code files for a post stands for the post. *)
Lemma post_item_stands_for fromdocname p :
  stands_for fromdocname (post_item fromdocname p) p.
Proof. by split_and!. Qed.



Lemma grouping_stands_for {K} `{Countable K} (d : gmap K (list Item))
    (from : K -> list PostInfo) fromdocname :
  (forall k, d !! k
             = sort_items <$> extend None (post_item fromdocname <$> from k)) ->
  forall k,
    default [] (d !! k)
    = post_item fromdocname <$> sorted dt_ltb pi_time true (from k).
Proof.
  intros Hd k. rewrite Hd.
  rewrite <- (sorted_fmap dt_ltb pi_time it_time (post_item fromdocname))
    by done.
  by destruct (from k).
Qed.



End AggregationFacts.

(** ** Identifier assignment *)
Section IdentifierFacts.
Context `{H : Host}.

Lemma next_serialno_new kind e :
  next_serialno kind (snd (new_serialno kind e)) = S (next_serialno kind e).
Proof.
  unfold next_serialno, new_serialno. simpl. by rewrite lookup_insert_eq.
Qed.

Lemma append_inj_l (s1 s2 t : string) : s1 +:+ t = s2 +:+ t -> s1 = s2.
Proof.
  assert (forall s, PyStr.len t <> PyStr.len (s +:+ t) \/ s = "") as Hlen.
  { intros [|c s]; [by right|left]. rewrite PyStrFacts.length_app.
    unfold PyStr.len. cbn [String.length]. lia. }
  revert s2. induction s1 as [|c s1 IH]; intros [|d s2] Ht; [done| | |].
  - destruct (Hlen (String d s2)) as [Hne|Heq]; [|done].
    destruct Hne. by rewrite <- Ht.
  - destruct (Hlen (String c s1)) as [Hne|Heq]; [|done].
    destruct Hne. by rewrite Ht.
  - cbn [String.append] in Ht. injection Ht as -> Ht. f_equal. by apply IH.
Qed.

Lemma next_serialno_other kind kind' e :
  kind' <> kind ->
  next_serialno kind' (snd (new_serialno kind e)) = next_serialno kind' e.
Proof.
  intros Hne. unfold next_serialno, new_serialno. simpl.
  rewrite lookup_insert_ne; [done|]. intros Heq. by apply append_inj_l in Heq.
Qed.

Lemma new_serialno_fst kind e :
  fst (new_serialno kind e) = next_serialno kind e.
Proof. done. Qed.

(** [new_serialno] changes the serial numbers only. *)
Lemma new_serialno_frame kind e :
  snd (new_serialno kind e)
  = set_temp_data (temp_data (snd (new_serialno kind e))) e.
Proof. done. Qed.

Lemma issue_id_eq {K} `{Countable K} prefix kind (ids0 : gmap K string) e0
    (key : K) :
  issue_id prefix kind (ids0, e0) key
  = (<[key := prefix +:+ pretty (next_serialno kind e0)]> ids0,
     snd (new_serialno kind e0)).
Proof. done. Qed.

Lemma assign_ids_acc {K} `{Countable K} prefix kind (keys : list K)
    (ids0 : gmap K string) e0 :
  NoDup keys ->
  let r := fold_left (issue_id prefix kind) keys (ids0, e0) in
  (forall i k, keys !! i = Some k ->
     fst r !! k = Some (prefix +:+ pretty (next_serialno kind e0 + i)%nat))
  /\ (forall k, k ∉ keys -> fst r !! k = ids0 !! k)
  /\ next_serialno kind (snd r) = (next_serialno kind e0 + length keys)%nat
  /\ snd r = set_temp_data (temp_data (snd r)) e0
  /\ (forall kind', kind' <> kind ->
        next_serialno kind' (snd r) = next_serialno kind' e0).
Proof.
  intros Hnd. revert ids0 e0.
  induction Hnd as [|key keys Hnotin Hnd IH]; intros ids0 e0;
    cbn [fold_left].
  - cbn. split_and!; [done|done|lia|by destruct e0|done].
  - rewrite issue_id_eq.
    destruct (IH (<[key := prefix +:+ pretty (next_serialno kind e0)]> ids0)
                (snd (new_serialno kind e0)))
      as (Hin & Hout & Hcount & Hframe & Hother).
    rewrite next_serialno_new in Hin, Hcount.
    split_and!; [| | | |intros kind' Hne;
                         by rewrite Hother, next_serialno_other].
    + intros [|i] k Hk; cbn in Hk.
      * injection Hk as <-. rewrite Hout by done.
        rewrite lookup_insert_eq. do 3 f_equal. lia.
      * rewrite (Hin i k Hk). do 3 f_equal. lia.
    + intros k Hk. apply not_elem_of_cons in Hk as [Hne Hk].
      rewrite Hout by done. by rewrite lookup_insert_ne.
    + rewrite Hcount. cbn [length]. lia.
    + rewrite Hframe at 1. done.
Qed.

Lemma assign_ids_spec {K} `{Countable K} prefix kind (keys : list K) e :
  NoDup keys ->
  (forall i k, keys !! i = Some k ->
     fst (assign_ids prefix kind keys e) !! k
     = Some (prefix +:+ pretty (next_serialno kind e + i)%nat))
  /\ (forall k, k ∉ keys -> fst (assign_ids prefix kind keys e) !! k = None)
  /\ next_serialno kind (snd (assign_ids prefix kind keys e))
     = (next_serialno kind e + length keys)%nat
  /\ snd (assign_ids prefix kind keys e)
     = set_temp_data (temp_data (snd (assign_ids prefix kind keys e))) e
  /\ (forall kind', kind' <> kind ->
        next_serialno kind' (snd (assign_ids prefix kind keys e))
        = next_serialno kind' e).
Proof.
  intros Hnd. destruct (assign_ids_acc prefix kind keys ∅ e Hnd)
    as (Hin & Hout & Hcount & Hframe & Hother).
  by split_and!.
Qed.

Lemma dict_keys_NoDup {K V} `{Countable K} (d : gmap K V) :
  NoDup (dict_keys d).
Proof. apply NoDup_fst_map_to_list. Qed.

Lemma elem_of_dict_keys {K V} `{Countable K} (d : gmap K V) k :
  k ∈ dict_keys d <-> is_Some (d !! k).
Proof.
  unfold dict_keys. rewrite list_elem_of_fmap. split.
  - intros ([k' v] & -> & Hin). apply elem_of_map_to_list in Hin. eauto.
  - intros [v Hv]. exists (k, v). split; [done|].
    by apply elem_of_map_to_list.
Qed.

Section SortedKeys.
Context {K : Type} `{Countable K} (lt : K -> K -> bool).
Hypothesis lt_asym : forall a b, lt a b = true -> lt b a = false.
Hypothesis lt_negtrans :
  forall a b c, lt a b = false -> lt b c = false -> lt a c = false.
Hypothesis lt_total : forall a b, a <> b -> lt a b = true \/ lt b a = true.

Lemma sorted_keys_ascending (l : list K) :
  NoDup l ->
  StronglySorted (fun a b => lt a b = true) (sorted lt id false l).
Proof.
  intros Hnd.
  assert (NoDup (sorted lt id false l)) as Hnd'
    by (by rewrite sorted_Permutation).
  pose proof (sorted_sorted lt id lt_asym lt_negtrans false l) as Hs.
  induction Hs as [|a l' Hs IH Ha]; [constructor|].
  apply NoDup_cons in Hnd' as [Hnotin Hnd'].
  constructor; [by apply IH|].
  rewrite Forall_forall in *. intros b Hb.
  specialize (Ha b Hb). unfold in_order, stays_before in Ha. simpl in Ha.
  destruct (lt_total a b) as [|Hba]; [|done|congruence].
  intros ->. done.
Qed.

(** Two lists in strictly ascending order with the same elements are
    the same list. *)
Lemma ascending_unique (l1 l2 : list K) :
  StronglySorted (fun a b => lt a b = true) l1 ->
  StronglySorted (fun a b => lt a b = true) l2 ->
  (forall k, k ∈ l1 <-> k ∈ l2) ->
  l1 = l2.
Proof.
  intros H1. revert l2.
  induction H1 as [|a l1 Hs1 IH Ha]; intros l2 H2 Hel.
  - destruct l2 as [|b l2]; [done|].
    by destruct (not_elem_of_nil b); apply Hel; left.
  - destruct H2 as [|b l2 Hs2 Hb].
    + by destruct (not_elem_of_nil a); apply Hel; left.
    + rewrite Forall_forall in Ha, Hb.
      assert (forall x, lt x x = false) as Hirr.
      { intros x. destruct (lt x x) eqn:Hx; [|done].
        by rewrite (lt_asym _ _ Hx) in Hx. }
      assert (a = b) as <-.
      { assert (a ∈ b :: l2) as Ha2 by (apply Hel; left).
        assert (b ∈ a :: l1) as Hb1 by (apply Hel; left).
        apply elem_of_cons in Ha2 as [|Ha2]; [done|].
        apply elem_of_cons in Hb1 as [|Hb1]; [done|].
        apply Hb in Ha2. apply Ha in Hb1.
        by rewrite (lt_asym _ _ Ha2) in Hb1. }
      f_equal. apply IH; [done|]. intros k. split; intros Hk.
      * assert (k ∈ a :: l2) as Hk2 by (apply Hel; by right).
        apply elem_of_cons in Hk2 as [->|]; [|done].
        apply Ha in Hk. by rewrite Hirr in Hk.
      * assert (k ∈ a :: l1) as Hk1 by (apply Hel; by right).
        apply elem_of_cons in Hk1 as [->|]; [|done].
        apply Hb in Hk. by rewrite Hirr in Hk.
Qed.

Lemma assign_sorted_keys {V} prefix kind (d : gmap K V) e :
  let r := assign_ids prefix kind (sorted lt id false (dict_keys d)) e in
  issued_in_key_order lt prefix (next_serialno kind e) (dict_keys d)
    (fst r)
  /\ next_serialno kind (snd r) = (next_serialno kind e + size d)%nat
  /\ snd r = set_temp_data (temp_data (snd r)) e
  /\ (forall kind', kind' <> kind ->
        next_serialno kind' (snd r) = next_serialno kind' e).
Proof.
  intros r.
  assert (NoDup (sorted lt id false (dict_keys d))) as Hnd.
  { rewrite sorted_Permutation. apply dict_keys_NoDup. }
  destruct (assign_ids_spec prefix kind _ e Hnd)
    as (Hin & Hout & Hcount & Hframe & Hother).
  split_and!; [|subst r|done|done].
  - exists (sorted lt id false (dict_keys d)). split_and!; try done.
    + apply sorted_Permutation.
    + apply sorted_keys_ascending, dict_keys_NoDup.
  - rewrite Hcount, length_sorted. unfold dict_keys.
    by rewrite length_fmap, length_map_to_list.
Qed.

(** The identifiers depend on the set of keys and on the counter
    only. *)
Lemma issued_in_key_order_unique prefix first (ks1 ks2 : list K)
    (ids1 ids2 : gmap K string) :
  issued_in_key_order lt prefix first ks1 ids1 ->
  issued_in_key_order lt prefix first ks2 ids2 ->
  (forall k, k ∈ ks1 <-> k ∈ ks2) ->
  ids1 = ids2.
Proof.
  intros (l1 & Hp1 & Hs1 & Hin1 & Hout1) (l2 & Hp2 & Hs2 & Hin2 & Hout2)
    Hel.
  assert (l1 = l2) as <-.
  { apply ascending_unique; [done..|]. intros k.
    by rewrite Hp1, Hp2. }
  apply map_eq. intros k. destruct (decide (k ∈ l1)) as [Hk|Hk].
  - apply list_elem_of_lookup in Hk as [i Hi].
    by rewrite (Hin1 i k Hi), (Hin2 i k Hi).
  - by rewrite Hout1, Hout2.
Qed.

End SortedKeys.

Lemma length_dict_keys {K V} `{Countable K} (d : gmap K V) :
  length (dict_keys d) = size d.
Proof. unfold dict_keys. by rewrite length_fmap, length_map_to_list. Qed.

Lemma categories_of_keys fromdocname posts k :
  k ∈ dict_keys (categories_of fromdocname posts)
  <-> exists p, p ∈ posts /\ n_category (pi_post_node p) = k.
Proof.
  rewrite elem_of_dict_keys, categories_of_lookup.
  unfold category_entries. rewrite fmap_is_Some. split.
  - intros [l Hl]. apply extend_None_Some in Hl as [<- Hne].
    destruct (filter _ posts) as [|p l] eqn:Hf; [done|].
    assert (p ∈ filter (fun p => n_category (pi_post_node p) = k) posts)
      as Hin by (rewrite Hf; left).
    apply list_elem_of_filter in Hin as [? ?]. eauto.
  - intros (p & Hin & Hk).
    assert (p ∈ filter (fun p => n_category (pi_post_node p) = k) posts)
      as Hin' by (by apply list_elem_of_filter).
    destruct (filter _ posts) as [|q l]; [by apply not_elem_of_nil in Hin'|].
    by eexists.
Qed.

Lemma first_category_assignment fromdocname env posts :
  all_posts env = Some posts -> category_id env = None ->
  exists categories env',
    build_category_info fromdocname env = (inr categories, env')
    /\ categories = categories_of fromdocname posts
    /\ first_assignment String.ltb "category-" "category" env env'
         (dict_keys categories) (category_id env').
Proof.
  intros Hp Hid. eexists _, _.
  split; [by apply build_category_info_eq|]. split; [done|].
  rewrite Hid. unfold issue_ids.
  destruct (assign_sorted_keys String.ltb string_ltb_asym
              string_ltb_negtrans string_ltb_total "category-" "category"
              (categories_of fromdocname posts) env)
    as (Hord & Hcount & _ & Hother).
  destruct (assign_ids _ _ _ env) as [ids e'].
  exists ids. split_and!; [done|done| |done].
  by rewrite length_dict_keys.
Qed.

Lemma first_tag_assignment fromdocname env posts :
  all_posts env = Some posts -> tag_id env = None ->
  exists tags env',
    build_tag_info fromdocname env = (inr tags, env')
    /\ first_assignment String.ltb "tag-" "tag" env env'
         (dict_keys tags) (tag_id env').
Proof.
  intros Hp Hid. eexists _, _.
  split; [by apply build_tag_info_eq|].
  rewrite Hid. unfold issue_ids.
  destruct (assign_sorted_keys String.ltb string_ltb_asym
              string_ltb_negtrans string_ltb_total "tag-" "tag"
              (tags_of fromdocname posts) env)
    as (Hord & Hcount & _ & Hother).
  destruct (assign_ids _ _ _ env) as [ids e'].
  exists ids. split_and!; [done|done| |done].
  by rewrite length_dict_keys.
Qed.

Lemma first_year_assignment fromdocname env posts :
  all_posts env = Some posts -> archive_id env = None ->
  exists archive archive_flat env',
    build_archive_info fromdocname env
    = (inr (archive, archive_flat), env')
    /\ first_assignment Z.ltb "year-" "year" env env'
         (dict_keys archive) (archive_id env').
Proof.
  intros Hp Hid. eexists _, _, _.
  split; [by apply build_archive_info_eq|].
  rewrite Hid. unfold issue_ids.
  destruct (assign_sorted_keys Z.ltb Z_ltb_asym Z_ltb_negtrans Z_ltb_total
              "year-" "year" (archive_of fromdocname posts) env)
    as (Hord & Hcount & _ & Hother).
  destruct (assign_ids _ _ _ env) as [ids e'].
  exists ids. split_and!; [done|done| |done].
  by rewrite length_dict_keys.
Qed.

(** C5.  On the first identifier assignment of a grouping kind the keys
    are taken in ascending order and receive the next values of the
    counter of that kind, one after the other; a store whose categories
    are b, a and c, in whatever order its posts stand, gives the first
    number to a, the second to b and the third to c. *)
Theorem identifiers_in_sorted_key_order fromdocname env posts :
  all_posts env = Some posts ->
  (category_id env = None ->
     exists categories env',
       build_category_info fromdocname env = (inr categories, env')
       /\ first_assignment String.ltb "category-" "category" env env'
            (dict_keys categories) (category_id env'))
  /\ (tag_id env = None ->
        exists tags env',
          build_tag_info fromdocname env = (inr tags, env')
          /\ first_assignment String.ltb "tag-" "tag" env env'
               (dict_keys tags) (tag_id env'))
  /\ (archive_id env = None ->
        exists archive archive_flat env',
          build_archive_info fromdocname env
          = (inr (archive, archive_flat), env')
          /\ first_assignment Z.ltb "year-" "year" env env'
               (dict_keys archive) (archive_id env'))
  /\ (category_id env = None ->
        (forall k, (exists p, p ∈ posts /\ n_category (pi_post_node p) = k)
                   <-> k ∈ ["b"; "a"; "c"]) ->
        exists ids,
          category_id (snd (build_category_info fromdocname env)) = Some ids
          /\ ids !! "a"
             = Some ("category-"
                     +:+ pretty (next_serialno "category" env))
          /\ ids !! "b"
             = Some ("category-"
                     +:+ pretty (next_serialno "category" env + 1)%nat)
          /\ ids !! "c"
             = Some ("category-"
                     +:+ pretty (next_serialno "category" env + 2)%nat)).
Proof.
  intros Hp. split_and!.
  - intros Hid.
    destruct (first_category_assignment fromdocname env posts Hp Hid)
      as (c & e' & Hrun & _ & Hfirst). eauto.
  - intros Hid. by apply (first_tag_assignment fromdocname env posts).
  - intros Hid. by apply (first_year_assignment fromdocname env posts).
  - intros Hid Hkeys.
    destruct (first_category_assignment fromdocname env posts Hp Hid)
      as (c & e' & Hrun & -> & ids & Hids & Hord & _ & _).
    rewrite Hrun. exists ids. split; [done|].
    destruct Hord as (keys & Hperm & Hsorted & Hin & _).
    assert (keys = ["a"; "b"; "c"]) as ->.
    { apply (ascending_unique String.ltb string_ltb_asym); [done| |].
      - by repeat constructor.
      - intros k. rewrite Hperm, categories_of_keys, Hkeys.
        rewrite !elem_of_cons. tauto. }
    rewrite (Hin 0%nat "a"), (Hin 1%nat "b"), (Hin 2%nat "c") by done.
    by rewrite Nat.add_0_r.
Qed.

(** C6, as the code has it.  Once the identifiers of a grouping kind
    exist, a later aggregation call returns its grouping and leaves the
    environment as it is: the identifiers and the counter are unchanged,
    and no key receives a new identifier. *)
Theorem existing_identifiers_kept fromdocname env posts :
  all_posts env = Some posts ->
  (is_Some (category_id env) ->
     build_category_info fromdocname env
     = (inr (categories_of fromdocname posts), env))
  /\ (is_Some (tag_id env) ->
        build_tag_info fromdocname env
        = (inr (tags_of fromdocname posts), env))
  /\ (is_Some (archive_id env) ->
        build_archive_info fromdocname env
        = (inr (archive_of fromdocname posts,
                archive_flat_of fromdocname posts), env)).
Proof.
  intros Hp. split_and!; intros [ids Hids].
  - by rewrite (build_category_info_eq _ _ _ Hp), Hids.
  - by rewrite (build_tag_info_eq _ _ _ Hp), Hids.
  - by rewrite (build_archive_info_eq _ _ _ Hp), Hids.
Qed.

End IdentifierFacts.

(** ** Navigation *)
Section NavigationFacts.
Context `{H : Host}.
Implicit Types (l : nav_labels) (node : BlogNode).
Implicit Types (archive_flat rest : list FlatItem).

Lemma list_get_nat {A} (xs : list A) (i : nat) x :
  xs !! i = Some x -> list_get xs (Z.of_nat i) = inr x.
Proof.
  intros Hx. pose proof (lookup_lt_Some _ _ _ Hx) as Hlt.
  unfold list_get.
  destruct (Z.ltb_spec (Z.of_nat i) 0); [lia|].
  destruct (Z.leb_spec 0 (Z.of_nat i)); [|lia].
  destruct (Z.ltb_spec (Z.of_nat i) (Z.of_nat (length xs))); [|lia].
  simpl. by rewrite Nat2Z.id, Hx.
Qed.

Lemma list_get_0 {A} (xs : list A) x :
  xs !! 0%nat = Some x -> list_get xs 0 = inr x.
Proof. apply (list_get_nat xs 0). Qed.

(** At a position of the list the loop body computes the links of
    that position, and never fails. *)
Lemma link_at_neighbours l archive_flat (i : nat) node :
  (i < length archive_flat)%nat ->
  exists node',
    neighbours_at l archive_flat i node = Some node'
    /\ link_at l archive_flat (Z.of_nat i) node = inr node'.
Proof.
  intros Hi. unfold neighbours_at, link_at.
  set (n := length archive_flat) in *.
  destruct (decide (S i = n)) as [Hlast|Hlast];
    destruct (decide (i = 0%nat)) as [Hfirst|Hfirst].
  - destruct (lookup_lt_is_Some_2 archive_flat 0%nat) as [x0 Hx0]; [lia|].
    destruct (lookup_lt_is_Some_2 archive_flat (n - 1)%nat) as [x1 Hx1];
      [lia|].
    rewrite Hx0, Hx1. eexists. split; [done|].
    destruct (Z.gtb_spec (Z.of_nat i + 1) (Z.of_nat n - 1)); [|lia].
    destruct (Z.ltb_spec (Z.of_nat i - 1) 0); [|lia].
    replace (Z.of_nat n - 1)%Z with (Z.of_nat (n - 1)) by lia.
    rewrite (list_get_nat _ _ _ Hx1).
    by rewrite (list_get_0 _ _ Hx0).
  - destruct (lookup_lt_is_Some_2 archive_flat 0%nat) as [x0 Hx0]; [lia|].
    destruct (lookup_lt_is_Some_2 archive_flat (i - 1)%nat) as [x1 Hx1];
      [lia|].
    rewrite Hx0, Hx1. eexists. split; [done|].
    destruct (Z.gtb_spec (Z.of_nat i + 1) (Z.of_nat n - 1)); [|lia].
    destruct (Z.ltb_spec (Z.of_nat i - 1) 0); [lia|].
    replace (Z.of_nat i - 1)%Z with (Z.of_nat (i - 1)) by lia.
    rewrite (list_get_nat _ _ _ Hx1).
    by rewrite (list_get_0 _ _ Hx0).
  - destruct (lookup_lt_is_Some_2 archive_flat (S i)) as [x0 Hx0]; [lia|].
    destruct (lookup_lt_is_Some_2 archive_flat (n - 1)%nat) as [x1 Hx1];
      [lia|].
    rewrite Hx0, Hx1. eexists. split; [done|].
    destruct (Z.gtb_spec (Z.of_nat i + 1) (Z.of_nat n - 1)); [lia|].
    destruct (Z.ltb_spec (Z.of_nat i - 1) 0); [|lia].
    replace (Z.of_nat n - 1)%Z with (Z.of_nat (n - 1)) by lia.
    replace (Z.of_nat i + 1)%Z with (Z.of_nat (S i)) by lia.
    rewrite (list_get_nat _ _ _ Hx1).
    by rewrite (list_get_nat _ _ _ Hx0).
  - destruct (lookup_lt_is_Some_2 archive_flat (S i)) as [x0 Hx0]; [lia|].
    destruct (lookup_lt_is_Some_2 archive_flat (i - 1)%nat) as [x1 Hx1];
      [lia|].
    rewrite Hx0, Hx1. eexists. split; [done|].
    destruct (Z.gtb_spec (Z.of_nat i + 1) (Z.of_nat n - 1)); [lia|].
    destruct (Z.ltb_spec (Z.of_nat i - 1) 0); [lia|].
    replace (Z.of_nat i - 1)%Z with (Z.of_nat (i - 1)) by lia.
    replace (Z.of_nat i + 1)%Z with (Z.of_nat (S i)) by lia.
    rewrite (list_get_nat _ _ _ Hx1).
    by rewrite (list_get_nat _ _ _ Hx0).
Qed.

(** The links only depend on the document name of the node. *)
Lemma neighbours_at_set_nav l archive_flat i a b c d node :
  neighbours_at l archive_flat i (set_nav a b c d node)
  = neighbours_at l archive_flat i node.
Proof.
  unfold neighbours_at.
  by repeat match goal with
            | |- context [archive_flat !! ?j] =>
                destruct (archive_flat !! j)
            end.
Qed.

Lemma neighbours_at_nav l archive_flat i node node' :
  neighbours_at l archive_flat i node = Some node' ->
  exists a b c d, node' = set_nav a b c d node.
Proof.
  unfold neighbours_at.
  repeat match goal with
         | |- context [archive_flat !! ?j] => destruct (archive_flat !! j)
         end; [|done..].
  intros [= <-]. eauto.
Qed.

Lemma n_time_set_nav a b c d node :
  n_time (set_nav a b c d node) = n_time node.
Proof. done. Qed.

Lemma last_match_None t rest :
  last_match t rest = None <-> forall item, item ∈ rest -> fi_time item <> t.
Proof.
  induction rest as [|x rest IH]; simpl.
  - split; [|done]. intros _ item Hin. by apply not_elem_of_nil in Hin.
  - destruct (last_match t rest) as [j|].
    + split; [done|]. intros Hall. destruct IH as [_ IH].
      discriminate IH. intros item Hin. apply Hall. by right.
    + destruct (dt_eqb t (fi_time x)) eqn:Hx.
      * split; [done|]. intros Hall. apply dt_eqb_eq in Hx.
        destruct (Hall x); [left|done].
      * apply dt_eqb_neq in Hx. split; [|done]. intros _ item Hin.
        apply elem_of_cons in Hin as [->|Hin]; [done|].
        destruct IH as [IH _]. by apply IH.
Qed.

Lemma last_match_Some t rest j :
  last_match t rest = Some j ->
  exists item, rest !! j = Some item /\ fi_time item = t
    /\ forall j' item', (j < j')%nat -> rest !! j' = Some item' ->
         fi_time item' <> t.
Proof.
  revert j. induction rest as [|x rest IH]; intros j; simpl; [done|].
  destruct (last_match t rest) as [j0|] eqn:Hl.
  - intros [= <-]. destruct (IH j0 eq_refl) as (item & Hi & Ht & Hlater).
    exists item. split_and!; [done..|].
    intros [|j'] item' Hlt Hj'; [lia|]. apply (Hlater j'); [lia|done].
  - destruct (dt_eqb t (fi_time x)) eqn:Hx; [|done]. intros [= <-].
    apply dt_eqb_eq in Hx. exists x. split_and!; [done..|].
    intros [|j'] item' Hlt Hj'; [lia|]. simpl in Hj'.
    apply (proj1 (last_match_None t rest) Hl).
    by apply list_elem_of_lookup_2 in Hj'.
Qed.

(** The last position with a time stamp is the one [last_match] finds. *)
Lemma last_match_intro t rest i item :
  rest !! i = Some item -> fi_time item = t ->
  (forall j item', (i < j)%nat -> rest !! j = Some item' ->
     fi_time item' <> t) ->
  last_match t rest = Some i.
Proof.
  intros Hi Ht Hlater. destruct (last_match t rest) as [j|] eqn:Hl.
  - destruct (last_match_Some _ _ _ Hl) as (item' & Hj & Ht' & Hlater').
    f_equal. destruct (lt_eq_lt_dec i j) as [[Hlt|]|Hlt]; [|done|].
    + by destruct (Hlater j item' Hlt Hj).
    + by destruct (Hlater' i item Hlt Hi).
  - destruct (proj1 (last_match_None t rest) Hl item); [|done].
    by apply list_elem_of_lookup_2 in Hi.
Qed.

(** The loop leaves the links of the last matching position. *)
Lemma add_next_prev_loop_spec l archive_flat pre rest node :
  archive_flat = pre ++ rest ->
  add_next_prev_loop l archive_flat (Z.of_nat (length pre)) rest node
  = inr (match last_match (n_time node) rest with
         | None => node
         | Some j =>
             default node
               (neighbours_at l archive_flat (length pre + j) node)
         end).
Proof.
  revert pre node. induction rest as [|x rest IH]; intros pre node Hflat;
    [done|].
  assert (archive_flat = (pre ++ [x]) ++ rest) as Hflat'
    by (by rewrite <- app_assoc).
  assert (Z.of_nat (length pre) + 1 = Z.of_nat (length (pre ++ [x])))%Z
    as Hlen by (rewrite length_app; simpl; lia).
  cbn [add_next_prev_loop last_match].
  destruct (dt_eqb (n_time node) (fi_time x)) eqn:Hx.
  - destruct (link_at_neighbours l archive_flat (length pre) node)
      as (node1 & Hn1 & Hl1).
    { rewrite Hflat, length_app. simpl. lia. }
    rewrite Hl1, Hlen, (IH _ _ Hflat').
    destruct (neighbours_at_nav _ _ _ _ _ Hn1) as (a & b & c & d & ->).
    rewrite n_time_set_nav.
    destruct (last_match (n_time node) rest) as [j|] eqn:Hl.
    + rewrite neighbours_at_set_nav.
      assert (length (pre ++ [x]) + j = length pre + S j)%nat as ->
        by (rewrite length_app; simpl; lia).
      destruct (last_match_Some _ _ _ Hl) as (item & Hj & _).
      apply lookup_lt_Some in Hj.
      destruct (link_at_neighbours l archive_flat (length pre + S j) node)
        as (node2 & -> & _); [|done].
      rewrite Hflat, length_app. simpl. lia.
    + by rewrite Nat.add_0_r, Hn1.
  - rewrite Hlen, (IH _ _ Hflat').
    destruct (last_match (n_time node) rest) as [j|]; [|done].
    by assert (length (pre ++ [x]) + j = length pre + S j)%nat as ->
      by (rewrite length_app; simpl; lia).
Qed.

Lemma add_next_prev_loop_whole l archive_flat node :
  add_next_prev_loop l archive_flat 0 archive_flat node
  = inr (match last_match (n_time node) archive_flat with
         | None => node
         | Some j => default node (neighbours_at l archive_flat j node)
         end).
Proof. exact (add_next_prev_loop_spec l archive_flat [] _ node eq_refl). Qed.

Lemma add_next_prev_with_last l archive_flat node i item :
  archive_flat !! i = Some item -> fi_time item = n_time node ->
  (forall j item', (i < j)%nat -> archive_flat !! j = Some item' ->
     fi_time item' <> n_time node) ->
  exists linked,
    neighbours_at l archive_flat i node = Some linked
    /\ add_next_prev_loop l archive_flat 0 archive_flat node = inr linked.
Proof.
  intros Hi Ht Hlater.
  destruct (link_at_neighbours l archive_flat i node) as (linked & Hn & _).
  { by apply lookup_lt_Some in Hi. }
  exists linked. split; [done|].
  rewrite add_next_prev_loop_whole.
  rewrite (last_match_intro _ _ i item Hi Ht Hlater). by rewrite Hn.
Qed.

Lemma add_next_prev_with_none l archive_flat node :
  (forall item, item ∈ archive_flat -> fi_time item <> n_time node) ->
  add_next_prev_loop l archive_flat 0 archive_flat node = inr node.
Proof.
  intros Hnone.
  rewrite add_next_prev_loop_whole.
  by rewrite (proj2 (last_match_None _ _) Hnone).
Qed.

(** C2, as the code has it.  The linker finds the position of a post in
    the flattened list by equality of [publish_time]; when several
    entries carry that time stamp, the links are those of the last of
    them, so two posts of one time stamp get the links of the same, last,
    position.  A post whose time stamp is not in the list is left as it
    is.  Both copies of the linker behave so. *)
Theorem links_from_last_occurrence node archive_flat :
  (forall i item,
     archive_flat !! i = Some item -> fi_time item = n_time node ->
     (forall j item', (i < j)%nat -> archive_flat !! j = Some item' ->
        fi_time item' <> n_time node) ->
     exists linked legacy_linked,
       neighbours_at labels archive_flat i node = Some linked
       /\ add_next_prev node archive_flat = inr linked
       /\ neighbours_at legacy_labels archive_flat i node
          = Some legacy_linked
       /\ legacy_add_next_prev node archive_flat = inr legacy_linked)
  /\ ((forall item, item ∈ archive_flat -> fi_time item <> n_time node) ->
      add_next_prev node archive_flat = inr node
      /\ legacy_add_next_prev node archive_flat = inr node).
Proof.
  split.
  - intros i item Hi Ht Hlater.
    destruct (add_next_prev_with_last labels _ _ _ _ Hi Ht Hlater)
      as (linked & ? & ?).
    destruct (add_next_prev_with_last legacy_labels _ _ _ _ Hi Ht Hlater)
      as (legacy_linked & ? & ?).
    by exists linked, legacy_linked.
  - intros Hnone. split; by apply add_next_prev_with_none.
Qed.

(** C3.  In a flattened list of three posts [p1], [p2], [p3] with
    falling time stamps: for [p1] next wraps to [p3] with the
    oldest-wrap label (and previous is [p2]); for [p3] previous wraps to
    [p1] with the newest-wrap label (and next is [p2]); for [p2]
    previous is [p3] and next is [p1], with the plain labels. *)
Theorem three_posts_wraparound node p1 p2 p3 :
  dt_ltb (fi_time p2) (fi_time p1) = true ->
  dt_ltb (fi_time p3) (fi_time p2) = true ->
  (n_time node = fi_time p1 ->
     exists linked,
       add_next_prev node [p1; p2; p3] = inr linked
       /\ n_next linked
          = Some (get_relative_uri (n_docname node) (fi_docname p3))
       /\ n_next_text linked = Some "Oldest &orarr;"
       /\ n_prev linked
          = Some (get_relative_uri (n_docname node) (fi_docname p2))
       /\ n_prev_text linked = Some "&larr; Previous")
  /\ (n_time node = fi_time p3 ->
        exists linked,
          add_next_prev node [p1; p2; p3] = inr linked
          /\ n_prev linked
             = Some (get_relative_uri (n_docname node) (fi_docname p1))
          /\ n_prev_text linked = Some "&olarr; Newest"
          /\ n_next linked
             = Some (get_relative_uri (n_docname node) (fi_docname p2))
          /\ n_next_text linked = Some "Next &rarr;")
  /\ (n_time node = fi_time p2 ->
        exists linked,
          add_next_prev node [p1; p2; p3] = inr linked
          /\ n_prev linked
             = Some (get_relative_uri (n_docname node) (fi_docname p3))
          /\ n_prev_text linked = Some "&larr; Previous"
          /\ n_next linked
             = Some (get_relative_uri (n_docname node) (fi_docname p1))
          /\ n_next_text linked = Some "Next &rarr;").
Proof.
  intros H21 H32.
  pose proof (dt_ltb_trans _ _ _ H32 H21) as H31.
  assert (forall a b, dt_ltb a b = true -> dt_eqb a b = false
                                          /\ dt_eqb b a = false) as Hne.
  { intros a b Hlt. split; apply dt_eqb_neq; intros Heq; subst;
      by rewrite dt_ltb_irrefl in Hlt. }
  destruct (Hne _ _ H21) as [E21 E12], (Hne _ _ H32) as [E32 E23],
    (Hne _ _ H31) as [E31 E13].
  unfold add_next_prev. rewrite add_next_prev_loop_whole.
  split_and!; intros Ht; cbn [last_match];
    rewrite Ht, ?dt_eqb_refl, ?E21, ?E12, ?E32, ?E23, ?E31, ?E13;
    eexists; (split; [reflexivity|]); by cbn.
Qed.

End NavigationFacts.

(** ** Directives *)
Section DirectiveFacts.
Context `{H : Host}.
Implicit Types (st : option BuildEnv) (d : directive).
Implicit Types (ds pre rest : list (string * directive)).

(** A directive never removes the environment or the record of a
    listing directive, whether it returns or raises. *)
Lemma run_keeps_singleton d0 d st env :
  st = Some env -> is_Some (singleton_docname d env) ->
  exists env', snd (run d0 st) = Some env'
               /\ is_Some (singleton_docname d env').
Proof.
  intros -> Hs. destruct d0 as [options| | | | |options]; simpl.
  - unfold BlogPostDirective_run, bind, lift.
    destruct (strptime _ _) as [e|time]; simpl; [eauto|].
    unfold except_AttributeError, bind, settings_env, on_env, update_env,
      ret. simpl.
    destruct (decide (_ = "")); simpl; eexists; (split; [done|]);
      by destruct d.
  - unfold BlogCategoryDirective_run, bind, settings_env, on_env. simpl.
    destruct (category_docname env) eqn:Hc; simpl; [eauto|].
    eexists; split; [done|]. by destruct d.
  - unfold BlogTagDirective_run, bind, settings_env, on_env. simpl.
    destruct (tag_docname env) eqn:Hc; simpl; [eauto|].
    eexists; split; [done|]. by destruct d.
  - unfold BlogTagListDirective_run, bind, settings_env, on_env. simpl.
    eauto.
  - unfold BlogArchiveDirective_run, bind, settings_env, on_env. simpl.
    destruct (archive_docname env) eqn:Hc; simpl; [eauto|].
    eexists; split; [done|]. by destruct d.
  - unfold BlogRecentDirective_run, bind, lift, settings_env, on_env.
    destruct (options !! "length"); simpl; [|eauto].
    destruct (recent_docname env) eqn:Hc; simpl; [eauto|].
    eexists; split; [done|]. by destruct d.
Qed.

(** A listing directive that returns has recorded its document. *)
Lemma run_sets_singleton d st nodes st' :
  run d st = (inr nodes, st') -> same_singleton d d = true ->
  exists env', st' = Some env' /\ is_Some (singleton_docname d env').
Proof.
  destruct st as [env|].
  - destruct d as [options| | | | |options]; try done; simpl; intros Hrun _.
    + unfold BlogCategoryDirective_run, bind, settings_env, on_env in Hrun.
      simpl in Hrun. destruct (category_docname env); [done|].
      injection Hrun as <- <-. eauto.
    + unfold BlogTagDirective_run, bind, settings_env, on_env in Hrun.
      simpl in Hrun. destruct (tag_docname env); [done|].
      injection Hrun as <- <-. eauto.
    + unfold BlogArchiveDirective_run, bind, settings_env, on_env in Hrun.
      simpl in Hrun. destruct (archive_docname env); [done|].
      injection Hrun as <- <-. eauto.
    + unfold BlogRecentDirective_run, bind, lift, settings_env, on_env
        in Hrun.
      destruct (options !! "length"); [|done]. simpl in Hrun.
      destruct (recent_docname env); [done|].
      injection Hrun as <- <-. eauto.
  - destruct d as [options| | | | |options]; try done; simpl; try done.
    unfold BlogRecentDirective_run, bind, lift.
    by destruct (options !! "length").
Qed.

(** A second occurrence raises, and changes nothing. *)
Lemma run_second_occurrence d env :
  same_singleton d d = true -> is_Some (singleton_docname d env) ->
  run d (Some env) = (inl (second_occurrence_error d), Some env).
Proof.
  destruct d as [options| | | | |options]; try done; simpl;
    intros _ [v Hv].
  - unfold BlogCategoryDirective_run, bind, settings_env, on_env. simpl.
    by rewrite Hv.
  - unfold BlogTagDirective_run, bind, settings_env, on_env. simpl.
    by rewrite Hv.
  - unfold BlogArchiveDirective_run, bind, settings_env, on_env. simpl.
    by rewrite Hv.
  - unfold BlogRecentDirective_run, bind, lift, settings_env, on_env.
    destruct (options !! "length"); [|done]. simpl. by rewrite Hv.
Qed.

Lemma singleton_docname_same d d' env :
  same_singleton d d' = true ->
  singleton_docname d env = singleton_docname d' env.
Proof. by destruct d, d'. Qed.

Lemma same_singleton_r d d' :
  same_singleton d d' = true -> same_singleton d' d' = true.
Proof. by destruct d, d'. Qed.

Lemma same_singleton_l d d' :
  same_singleton d d' = true -> same_singleton d d = true.
Proof. by destruct d, d'. Qed.

Lemma run_directives_cons docname d ds st :
  run_directives ((docname, d) :: ds) st
  = match run d (set_env_docname docname <$> st) with
    | (inr nodes, st') =>
        match run_directives ds st' with
        | (inr nodes', st'') => (inr (nodes ++ nodes'), st'')
        | (inl e, st'') => (inl e, st'')
        end
    | (inl e, st') => (inl e, st')
    end.
Proof.
  cbn [run_directives]. unfold bind, modify, ret.
  destruct (run d _) as [[e|nodes] st']; [done|].
  by destruct (run_directives ds st') as [[e|nodes'] st''].
Qed.

Lemma run_directives_app pre rest st :
  run_directives (pre ++ rest) st
  = match run_directives pre st with
    | (inr nodes, st') =>
        match run_directives rest st' with
        | (inr nodes', st'') => (inr (nodes ++ nodes'), st'')
        | (inl e, st'') => (inl e, st'')
        end
    | (inl e, st') => (inl e, st')
    end.
Proof.
  revert st. induction pre as [|[docname d] pre IH]; intros st.
  - simpl. unfold ret. by destruct (run_directives rest st) as [[?|?] ?].
  - rewrite <- app_comm_cons, !run_directives_cons.
    destruct (run d _) as [[e|nodes] st']; [done|]. rewrite IH.
    destruct (run_directives pre st') as [[e|nodes1] st1]; [done|].
    destruct (run_directives rest st1) as [[e|nodes2] st2]; [done|].
    by rewrite app_assoc.
Qed.

Lemma run_directives_keeps ds d env :
  is_Some (singleton_docname d env) ->
  exists env', snd (run_directives ds (Some env)) = Some env'
               /\ is_Some (singleton_docname d env').
Proof.
  revert env. induction ds as [|[docname d'] ds IH]; intros env Hrec.
  { simpl. eauto. }
  rewrite run_directives_cons.
  destruct (run_keeps_singleton d' d (Some (set_env_docname docname env))
              (set_env_docname docname env) eq_refl)
    as (env1 & Henv1 & Hrec1); [by destruct d|].
  change (set_env_docname docname <$> Some env)
    with (Some (set_env_docname docname env)).
  destruct (run d' _) as [[e|nodes] st1]; simpl in Henv1; subst st1;
    [eauto|].
  destruct (IH env1 Hrec1) as (env2 & Henv2 & Hrec2).
  destruct (run_directives ds (Some env1)) as [[e|nodes'] st2];
    simpl in *; eauto.
Qed.

(** After a parse that went through, a listing directive it held is on
    record. *)
Lemma run_directives_records pre st nodes st' docname0 d0 :
  run_directives pre st = (inr nodes, st') ->
  (docname0, d0) ∈ pre -> same_singleton d0 d0 = true ->
  exists env', st' = Some env' /\ is_Some (singleton_docname d0 env').
Proof.
  revert st nodes. induction pre as [|[docname d] pre IH];
    intros st nodes Hrun Hin Hs.
  { by apply not_elem_of_nil in Hin. }
  rewrite run_directives_cons in Hrun.
  destruct (run d _) as [[e|nodes1] st1] eqn:Hd; [done|].
  destruct (run_directives pre st1) as [[e|nodes2] st2] eqn:Hpre; [done|].
  injection Hrun as <- <-.
  apply elem_of_cons in Hin as [[= <- <-]|Hin].
  - destruct (run_sets_singleton _ _ _ _ Hd Hs) as (env1 & -> & Hrec).
    destruct (run_directives_keeps pre d0 env1 Hrec) as (env2 & Henv2 & ?).
    rewrite Hpre in Henv2. simpl in Henv2. eauto.
  - by apply (IH st1 nodes2).
Qed.

(** C7.  Once a build holds a categories-listing, tags-listing,
    archive-listing or recent-posts directive, a second directive of that
    kind ends the parse with an exception: the build has no result, and
    when everything before the second occurrence went through, the
    exception is the one of that directive, raised with the environment
    as the first part left it.  For the categories listing it is the
    [ValueError] with the message "Only one category list is
    supported!". *)
Theorem second_listing_directive_raises pre rest st docname0 d0 docname d :
  (docname0, d0) ∈ pre -> same_singleton d0 d = true ->
  (exists e st'',
     run_directives (pre ++ (docname, d) :: rest) st = (inl e, st''))
  /\ (forall nodes st',
        run_directives pre st = (inr nodes, st') ->
        run_directives (pre ++ (docname, d) :: rest) st
        = (inl (second_occurrence_error d), set_env_docname docname <$> st'))
  /\ second_occurrence_error BlogCategory
     = ValueError "Only one category list is supported!"
  /\ String.prefix "Only one category list is supported"
       (message (second_occurrence_error BlogCategory)) = true.
Proof.
  intros Hin Hsame.
  assert (forall nodes st',
            run_directives pre st = (inr nodes, st') ->
            run_directives (pre ++ (docname, d) :: rest) st
            = (inl (second_occurrence_error d),
               set_env_docname docname <$> st')) as Hsecond.
  { intros nodes st' Hpre. rewrite run_directives_app, Hpre.
    destruct (run_directives_records _ _ _ _ _ _ Hpre Hin
                (same_singleton_l _ _ Hsame)) as (env' & -> & Hrec).
    rewrite run_directives_cons. simpl.
    rewrite run_second_occurrence; [done|by eapply same_singleton_r|].
    rewrite <- (singleton_docname_same d0 d) by done. by destruct d0. }
  split_and!; [|done..].
  destruct (run_directives pre st) as [[e|nodes] st'] eqn:Hpre.
  - rewrite run_directives_app, Hpre. eauto.
  - rewrite (Hsecond nodes st' eq_refl). eauto.
Qed.

(** C8.  A post directive whose time option [strptime] rejects raises
    that exception at once and leaves the environment, and with it the
    post store, as it was; in a parse the exception ends the build with
    the store that the directives before it had filled. *)
Theorem malformed_time_raises_before_store options st e :
  strptime (option_or_default stripped options "time") date_format
  = inl e ->
  BlogPostDirective_run options st = (inl e, st)
  /\ forall pre rest docname st0 nodes,
       run_directives pre st0 = (inr nodes, st) ->
       run_directives (pre ++ (docname, BlogPost options) :: rest) st0
       = (inl e, set_env_docname docname <$> st)
       /\ (set_env_docname docname <$> st) ≫= all_posts
          = st ≫= all_posts.
Proof.
  intros Hparse.
  assert (forall st1, BlogPostDirective_run options st1 = (inl e, st1))
    as Hrun.
  { intros st1. unfold BlogPostDirective_run, bind, lift.
    by rewrite Hparse. }
  split; [done|]. intros pre rest docname st0 nodes Hpre.
  rewrite run_directives_app, Hpre, run_directives_cons. simpl.
  rewrite Hrun. split; [done|]. by destruct st.
Qed.

End DirectiveFacts.

(** * The properties on the sample builds *)
Section SampleRuns.
Import Samples.
Local Existing Instance SampleHost.host.


Lemma three_posts_wraparound_witness :
  dt_ltb (noon 2) (noon 3) = true /\ dt_ltb (noon 1) (noon 2) = true
  /\ (exists linked,
        add_next_prev (node_of (noon 3) "p1") three_days = inr linked
        /\ n_next linked = Some "p3.html"
        /\ n_next_text linked = Some "Oldest &orarr;"
        /\ n_prev linked = Some "p2.html"
        /\ n_prev_text linked = Some "&larr; Previous")
  /\ (exists linked,
        add_next_prev (node_of (noon 1) "p3") three_days = inr linked
        /\ n_prev linked = Some "p1.html"
        /\ n_prev_text linked = Some "&olarr; Newest"
        /\ n_next linked = Some "p2.html"
        /\ n_next_text linked = Some "Next &rarr;")
  /\ (exists linked,
        add_next_prev (node_of (noon 2) "p2") three_days = inr linked
        /\ n_prev linked = Some "p3.html"
        /\ n_prev_text linked = Some "&larr; Previous"
        /\ n_next linked = Some "p1.html"
        /\ n_next_text linked = Some "Next &rarr;").
Proof.
  split; [reflexivity|]. split; [reflexivity|]. split_and!.
  - exact (proj1 (three_posts_wraparound (node_of (noon 3) "p1")
                    (entry_of (noon 3) "p1") (entry_of (noon 2) "p2")
                    (entry_of (noon 1) "p3") eq_refl eq_refl) eq_refl).
  - exact (proj1 (proj2 (three_posts_wraparound (node_of (noon 1) "p3")
                           (entry_of (noon 3) "p1") (entry_of (noon 2) "p2")
                           (entry_of (noon 1) "p3") eq_refl eq_refl))
             eq_refl).
  - exact (proj2 (proj2 (three_posts_wraparound (node_of (noon 2) "p2")
                           (entry_of (noon 3) "p1") (entry_of (noon 2) "p2")
                           (entry_of (noon 1) "p3") eq_refl eq_refl))
             eq_refl).
Defined.

Lemma links_from_last_occurrence_witness :
  same_time !! 1%nat = Some (entry_of (noon 2) "b")
  /\ fi_time (entry_of (noon 2) "b") = n_time (node_of (noon 2) "a")
  /\ (forall j item', (1 < j)%nat -> same_time !! j = Some item' ->
        fi_time item' <> n_time (node_of (noon 2) "a"))
  /\ (exists linked legacy_linked,
       neighbours_at labels same_time 1 (node_of (noon 2) "a")
       = Some linked
       /\ add_next_prev (node_of (noon 2) "a") same_time = inr linked
       /\ neighbours_at legacy_labels same_time 1 (node_of (noon 2) "a")
          = Some legacy_linked
       /\ legacy_add_next_prev (node_of (noon 2) "a") same_time
          = inr legacy_linked)
  /\ (forall item, item ∈ same_time ->
        fi_time item <> n_time (node_of (noon 5) "d"))
  /\ add_next_prev (node_of (noon 5) "d") same_time
     = inr (node_of (noon 5) "d")
  /\ legacy_add_next_prev (node_of (noon 5) "d") same_time
     = inr (node_of (noon 5) "d").
Proof.
  assert (forall j item', (1 < j)%nat -> same_time !! j = Some item' ->
            fi_time item' <> n_time (node_of (noon 2) "a")) as Hlater.
  { intros [|[|[|j]]] item' Hj Hitem; [lia|lia| |done].
    injection Hitem as <-. discriminate. }
  assert (forall item, item ∈ same_time ->
            fi_time item <> n_time (node_of (noon 5) "d")) as Hnone.
  { intros item Hin. unfold same_time in Hin.
    rewrite !elem_of_cons in Hin.
    destruct Hin as [->|[->|[->|Hin]]]; [discriminate..|].
    by apply not_elem_of_nil in Hin. }
  split; [reflexivity|]. split; [reflexivity|]. split; [exact Hlater|].
  split; [|split; [exact Hnone|]].
  - exact (proj1 (links_from_last_occurrence (node_of (noon 2) "a")
                    same_time)
             1%nat (entry_of (noon 2) "b") eq_refl eq_refl Hlater).
  - exact (proj2 (links_from_last_occurrence (node_of (noon 5) "d")
                    same_time) Hnone).
Defined.

(** C2 as the specification states it fails on two posts of one time
    stamp in front of an older post: for the first of the two, position 0
    is the first occurrence of its time stamp, and the linker returns
    not the links of position 0 but those of position 1. *)
Lemma first_occurrence_counterexample :
  same_time !! 0%nat = Some (entry_of (noon 2) "a")
  /\ fi_time (entry_of (noon 2) "a") = n_time (node_of (noon 2) "a")
  /\ exists at_first at_last,
       neighbours_at labels same_time 0 (node_of (noon 2) "a")
       = Some at_first
       /\ neighbours_at labels same_time 1 (node_of (noon 2) "a")
          = Some at_last
       /\ add_next_prev (node_of (noon 2) "a") same_time = inr at_last
       /\ at_last <> at_first
       /\ n_prev at_first = Some "b.html" /\ n_prev at_last = Some "c.html"
       /\ n_next at_first = Some "c.html" /\ n_next at_last = Some "a.html".
Proof.
  split; [reflexivity|]. split; [reflexivity|].
  eexists _, _. split; [reflexivity|]. split; [reflexivity|].
  split; [vm_compute; reflexivity|]. split; [discriminate|].
  by vm_compute.
Qed.

Lemma identifiers_in_sorted_key_order_witness :
  all_posts (env_after three_posts) = Some three_posts_store
  /\ category_id (env_after three_posts) = None
  /\ tag_id (env_after three_posts) = None
  /\ archive_id (env_after three_posts) = None
  /\ (forall k, (exists p, p ∈ three_posts_store
                           /\ n_category (pi_post_node p) = k)
                <-> k ∈ ["b"; "a"; "c"])
  /\ (exists categories env',
        build_category_info "index" (env_after three_posts)
        = (inr categories, env')
        /\ first_assignment String.ltb "category-" "category"
             (env_after three_posts) env' (dict_keys categories)
             (category_id env'))
  /\ (exists tags env',
        build_tag_info "index" (env_after three_posts) = (inr tags, env')
        /\ first_assignment String.ltb "tag-" "tag"
             (env_after three_posts) env' (dict_keys tags) (tag_id env'))
  /\ (exists archive archive_flat env',
        build_archive_info "index" (env_after three_posts)
        = (inr (archive, archive_flat), env')
        /\ first_assignment Z.ltb "year-" "year"
             (env_after three_posts) env' (dict_keys archive)
             (archive_id env'))
  /\ exists ids,
       category_id
         (snd (build_category_info "index" (env_after three_posts)))
       = Some ids
       /\ ids !! "a" = Some "category-0"
       /\ ids !! "b" = Some "category-1"
       /\ ids !! "c" = Some "category-2".
Proof.
  assert (forall k, (exists p, p ∈ three_posts_store
                               /\ n_category (pi_post_node p) = k)
                    <-> k ∈ ["b"; "a"; "c"]) as Hkeys.
  { assert (exists p1 p2 p3,
              three_posts_store = [p1; p2; p3]
              /\ n_category (pi_post_node p1) = "b"
              /\ n_category (pi_post_node p2) = "a"
              /\ n_category (pi_post_node p3) = "c")
      as (p1 & p2 & p3 & Hs & H1 & H2 & H3)
      by (vm_compute; eexists _, _, _; repeat split).
    rewrite Hs. clear Hs. intros k. rewrite !elem_of_cons. split.
    - intros (p & Hin & <-). revert Hin. rewrite !elem_of_cons.
      intros [->|[->|[->|Hin]]]; [auto..|].
      by apply not_elem_of_nil in Hin.
    - intros [->|[->|[->|Hin]]]; [| | |by apply not_elem_of_nil in Hin].
      + exists p1. split; [apply list_elem_of_here|exact H1].
      + exists p2. split; [apply list_elem_of_further, list_elem_of_here
                          |exact H2].
      + exists p3. split; [do 2 apply list_elem_of_further;
                           apply list_elem_of_here|exact H3]. }
  assert (all_posts (env_after three_posts) = Some three_posts_store)
    as Hposts by (vm_compute; reflexivity).
  destruct (identifiers_in_sorted_key_order "index"
              (env_after three_posts) three_posts_store Hposts)
    as (Hcat & Htag & Hyear & Habc).
  assert (category_id (env_after three_posts) = None) as Hc
    by (vm_compute; reflexivity).
  assert (tag_id (env_after three_posts) = None) as Ht
    by (vm_compute; reflexivity).
  assert (archive_id (env_after three_posts) = None) as Hy
    by (vm_compute; reflexivity).
  assert (next_serialno "category" (env_after three_posts) = 0%nat) as Hn
    by (vm_compute; reflexivity).
  split; [exact Hposts|]. split; [exact Hc|]. split; [exact Ht|].
  split; [exact Hy|]. split; [exact Hkeys|]. split; [exact (Hcat Hc)|].
  split; [exact (Htag Ht)|]. split; [exact (Hyear Hy)|].
  destruct (Habc Hc Hkeys) as (ids & Hids & Ha & Hb & Hcc).
  rewrite Hn in Ha, Hb, Hcc.
  assert ("category-" +:+ pretty 0%nat = "category-0") as E0
    by (vm_compute; reflexivity).
  assert ("category-" +:+ pretty (0 + 1)%nat = "category-1") as E1
    by (vm_compute; reflexivity).
  assert ("category-" +:+ pretty (0 + 2)%nat = "category-2") as E2
    by (vm_compute; reflexivity).
  rewrite E0 in Ha. rewrite E1 in Hb. rewrite E2 in Hcc.
  exists ids. split; [exact Hids|]. split; [exact Ha|].
  split; [exact Hb|exact Hcc].
Defined.

Lemma existing_identifiers_kept_witness :
  all_posts env_listed = Some three_posts_store
  /\ is_Some (category_id env_listed)
  /\ is_Some (tag_id env_listed)
  /\ is_Some (archive_id env_listed)
  /\ build_category_info "index" env_listed
     = (inr (categories_of "index" three_posts_store), env_listed)
  /\ build_tag_info "index" env_listed
     = (inr (tags_of "index" three_posts_store), env_listed)
  /\ build_archive_info "index" env_listed
     = (inr (archive_of "index" three_posts_store,
             archive_flat_of "index" three_posts_store), env_listed).
Proof.
  assert (is_Some (category_id env_listed)) as Hc
    by (vm_compute; eexists; reflexivity).
  assert (is_Some (tag_id env_listed)) as Ht
    by (vm_compute; eexists; reflexivity).
  assert (is_Some (archive_id env_listed)) as Hy
    by (vm_compute; eexists; reflexivity).
  assert (all_posts env_listed = Some three_posts_store) as Hposts
    by (vm_compute; reflexivity).
  destruct (existing_identifiers_kept "index" env_listed three_posts_store
              Hposts) as (Hcat & Htag & Hyear).
  split; [exact Hposts|]. split; [exact Hc|]. split; [exact Ht|].
  split; [exact Hy|]. split; [exact (Hcat Hc)|].
  split; [exact (Htag Ht)|exact (Hyear Hy)].
Defined.

(** C6 as the specification states it fails when a post of a new
    category is read after the categories were listed once: the later
    call files the post under b, and b receives no identifier. *)
Lemma new_key_gets_no_identifier :
  all_posts env_second_call = Some second_call_store
  /\ (exists ids, category_id env_second_call = Some ids
                  /\ ids !! "a" = Some "category-0")
  /\ exists categories env' ids',
       build_category_info "index" env_second_call
       = (inr categories, env')
       /\ is_Some (categories !! "b")
       /\ category_id env' = Some ids'
       /\ ids' !! "a" = Some "category-0"
       /\ ids' !! "b" = None.
Proof.
  split; [vm_compute; reflexivity|].
  split; [eexists; split; vm_compute; reflexivity|].
  eexists _, _, _. split; [vm_compute; reflexivity|].
  split; [vm_compute; eexists; reflexivity|].
  split; [vm_compute; reflexivity|].
  split; vm_compute; reflexivity.
Qed.

Lemma second_listing_directive_raises_witness :
  ("categories", BlogCategory) ∈ [("categories", BlogCategory)]
  /\ same_singleton BlogCategory BlogCategory = true
  /\ (exists st',
        run_directives [("categories", BlogCategory)] start
        = (inr [NCategory], st'))
  /\ fst (run_directives
            ([("categories", BlogCategory)]
             ++ ("archive", BlogCategory) :: []) start)
     = inl (ValueError "Only one category list is supported!").
Proof.
  assert (("categories", BlogCategory) ∈ [("categories", BlogCategory)])
    as Hin by apply list_elem_of_here.
  split; [exact Hin|]. split; [reflexivity|].
  split; [eexists; vm_compute; reflexivity|].
  destruct (second_listing_directive_raises
              [("categories", BlogCategory)] [] start "categories"
              BlogCategory "archive" BlogCategory Hin eq_refl)
    as (_ & Hsecond & _).
  assert (exists st',
            run_directives [("categories", BlogCategory)] start
            = (inr [NCategory], st')) as (st' & Hpre)
    by (eexists; vm_compute; reflexivity).
  rewrite (Hsecond _ _ Hpre). reflexivity.
Defined.

Lemma malformed_time_raises_before_store_witness :
  exists e,
    strptime
      (option_or_default stripped (options_of [("time", "tomorrow")])
         "time") date_format = inl e
    /\ BlogPostDirective_run (options_of [("time", "tomorrow")])
         (Some (env_after three_posts))
       = (inl e, Some (env_after three_posts))
    /\ (exists nodes,
          run_directives three_posts start
          = (inr nodes, Some (env_after three_posts)))
    /\ run_directives
         (three_posts
          ++ ("posts/four", BlogPost (options_of [("time", "tomorrow")]))
             :: [("categories", BlogCategory)]) start
       = (inl e, set_env_docname "posts/four"
                   <$> Some (env_after three_posts))
    /\ (set_env_docname "posts/four" <$> Some (env_after three_posts))
       ≫= all_posts
       = Some (env_after three_posts) ≫= all_posts.
Proof.
  eexists.
  assert (strptime
            (option_or_default stripped (options_of [("time", "tomorrow")])
               "time") date_format
          = inl (ValueError
                   "time data 'tomorrow' does not match format '%d.%m.%Y, %H:%M:%S'"))
    as Hparse by (vm_compute; reflexivity).
  assert (exists nodes,
            run_directives three_posts start
            = (inr nodes, Some (env_after three_posts))) as [nodes Hpre]
    by (eexists; vm_compute; reflexivity).
  destruct (malformed_time_raises_before_store
              (options_of [("time", "tomorrow")])
              (Some (env_after three_posts)) _ Hparse) as [Hrun Hbuild].
  destruct (Hbuild three_posts [("categories", BlogCategory)] "posts/four"
              start _ Hpre) as [Hend Hstore].
  split; [exact Hparse|]. split; [exact Hrun|].
  split; [exists nodes; exact Hpre|]. split; [exact Hend|exact Hstore].
Defined.

Lemma shorten_text_limit_50_witness :
  ((PyStr.len "short" <= 50)%nat /\ shorten_text_default "short" = "short")
  /\ (50 < PyStr.len spaced_51)%nat
  /\ exists head,
       shorten_text_default spaced_51 = head +:+ "..."
       /\ ((exists i, (i < 50)%nat
                      /\ PyStr.char_at i spaced_51 = Some " "%char
                      /\ (forall j, (i < j < 50)%nat ->
                            PyStr.char_at j spaced_51 <> Some " "%char)
                      /\ head = PyStr.slice_to i spaced_51)
           \/ ((forall j, (j < 50)%nat ->
                  PyStr.char_at j spaced_51 <> Some " "%char)
               /\ head = PyStr.slice_to 50 spaced_51)).
Proof.
  assert (PyStr.len "short" <= 50)%nat as Hshort by (vm_compute; lia).
  assert (50 < PyStr.len spaced_51)%nat as Hlong by (vm_compute; lia).
  split; [split; [exact Hshort|]|split; [exact Hlong|]].
  - exact (proj1 (shorten_text_limit_50 "short") Hshort).
  - exact (proj1 (proj2 (shorten_text_limit_50 spaced_51)) Hlong).
Defined.

(** C9 as the specification states it fails on a text of 51
    characters without a space: there is no space to cut at, and the
    result is the first 50 characters with "..." appended. *)
Lemma shorten_text_no_space_counterexample :
  PyStr.len no_space_51 = 51%nat
  /\ shorten_text_default no_space_51
     = PyStr.slice_to 50 no_space_51 +:+ "..."
  /\ PyStr.len (shorten_text_default no_space_51) = 53%nat
  /\ ~ exists i,
        (i < 50)%nat /\ PyStr.char_at i no_space_51 = Some " "%char
        /\ shorten_text_default no_space_51
           = PyStr.slice_to i no_space_51 +:+ "...".
Proof.
  split; [reflexivity|]. split; [reflexivity|]. split; [reflexivity|].
  intros (i & _ & Hspace & _). revert Hspace.
  by apply PyStrFacts.contains_false_char_at.
Qed.

(** C4 fails on a post whose tag list names a tag twice: the directive
    keeps both, and the tag grouping files the post twice under it. *)
Lemma duplicate_tag_files_post_twice :
  exists p tags env',
    twice_tagged_store = [p]
    /\ n_tags (pi_post_node p) = ["a"; "a"]
    /\ build_tag_info "tags" (env_after twice_tagged) = (inr tags, env')
    /\ tags !! "a" = Some [post_item "tags" p; post_item "tags" p].
Proof.
  eexists _, _, _. split; [vm_compute; reflexivity|].
  split; [vm_compute; reflexivity|]. split; [vm_compute; reflexivity|].
  vm_compute. reflexivity.
Qed.

End SampleRuns.

(** * Further properties of the code *)

(** ** The text helpers *)
Section MoreTextFacts.
Import PyStr PyStrFacts.

Lemma before_last_length sep s h :
  before_last sep s = Some h -> (len h < len s)%nat.
Proof.
  intros Hb. destruct (before_last_Some _ _ _ Hb) as (_ & Hc & _).
  by apply char_at_Some_lt in Hc.
Qed.

Lemma rsplit1_head_prefix sep s :
  rsplit1_head sep s = slice_to (len (rsplit1_head sep s)) s
  /\ (len (rsplit1_head sep s) <= len s)%nat.
Proof.
  unfold rsplit1_head. destruct (before_last sep s) as [h|] eqn:Hb.
  - destruct (before_last_Some _ _ _ Hb) as (Hh & _).
    apply before_last_length in Hb. split; [done|lia].
  - split; [|done]. symmetry. by apply slice_to_all.
Qed.

(** X1.  For every limit and suffix: a text no longer than the limit is
    returned as it is; a longer text gives a prefix of the text of at most
    [length] characters followed by the suffix, so the result never has
    more than [length] characters plus the suffix. *)
Theorem shorten_text_bound (text : string) (length : nat) (suffix : string) :
  ((len text <= length)%nat -> shorten_text text length suffix = text)
  /\ ((length < len text)%nat ->
      exists head,
        shorten_text text length suffix = head +:+ suffix
        /\ head = slice_to (len head) text /\ (len head <= length)%nat)
  /\ (len (shorten_text text length suffix) <= length + len suffix)%nat.
Proof.
  unfold shorten_text.
  destruct (rsplit1_head_prefix " " (slice_to length text)) as [Hpre Hlen].
  rewrite length_slice_to in Hlen.
  destruct (Nat.leb_spec (len text) length) as [Hle|Hgt].
  - split_and!; [done|lia|lia].
  - split_and!; [lia| |].
    + intros _. eexists. split; [done|]. split; [|lia].
      rewrite Hpre at 1. apply slice_to_slice_to. lia.
    + rewrite length_app. lia.
Qed.

Lemma contains_lstrip c s : contains c s = false -> contains c (lstrip s) = false.
Proof.
  induction s as [|d r IH]; [done|]. cbn [lstrip].
  destruct (isspace d); [|done]. cbn [contains].
  destruct (Ascii.eqb d c); [done|]. exact IH.
Qed.

Lemma contains_rstrip c s : contains c s = false -> contains c (rstrip s) = false.
Proof.
  induction s as [|d r IH]; [done|]. cbn [contains rstrip].
  destruct (Ascii.eqb_spec d c) as [->|Hne]; [done|]. intros Hr.
  specialize (IH Hr). destruct (rstrip r) as [|e r'].
  - destruct (isspace d); [done|]. cbn [contains].
    by destruct (Ascii.eqb_spec d c).
  - cbn [contains] in *. by destruct (Ascii.eqb_spec d c).
Qed.

Lemma lower_char_comma c :
  Ascii.eqb (lower_char c) ","%char = Ascii.eqb c ","%char.
Proof. by destruct c as [[] [] [] [] [] [] [] []]. Qed.

Lemma contains_lower s : contains "," (lower s) = contains "," s.
Proof.
  induction s as [|d r IH]; [done|]. cbn [lower contains].
  by rewrite lower_char_comma, IH.
Qed.

Lemma lstrip_trimmed s : trimmed s -> lstrip s = s.
Proof.
  intros [Hf _]. destruct s as [|c r]; [done|]. cbn [lstrip].
  by rewrite (Hf c eq_refl).
Qed.

Lemma rstrip_trimmed s :
  (forall c, last_char s = Some c -> isspace c = false) -> rstrip s = s.
Proof.
  induction s as [|c r IH]; [done|]. intros Hl. cbn [rstrip].
  destruct r as [|d r'].
  - cbn. by rewrite (Hl c eq_refl).
  - rewrite IH; [done|]. intros e He. by apply Hl.
Qed.

Lemma strip_fixed s : trimmed s -> strip s = s.
Proof.
  intros Ht. unfold strip. rewrite (lstrip_trimmed s Ht).
  apply rstrip_trimmed, Ht.
Qed.

Lemma lower_fixed s : lowercase s -> lower s = s.
Proof.
  unfold lowercase. induction s as [|c r IH]; [done|]. cbn [all_chars lower].
  intros [Hc Hr]%andb_prop. rewrite (IH Hr). unfold lower_char.
  by destruct (isupper c).
Qed.

Lemma split_join sep pieces :
  pieces <> [] -> Forall (fun p => contains sep p = false) pieces ->
  split sep (join (String sep "") pieces) = pieces.
Proof.
  intros Hne Hall. induction Hall as [|p ps Hp Hps IH]; [done|].
  clear Hne. destruct ps as [|q ps].
  - cbn [join]. clear IH Hps. induction p as [|c r IHr]; [done|].
    cbn [contains] in Hp. cbn [split].
    destruct (Ascii.eqb c sep); [done|]. by rewrite (IHr Hp).
  - specialize (IH ltac:(done)).
    change (join (String sep "") (p :: q :: ps))
      with (p +:+ String sep "" +:+ join (String sep "") (q :: ps)).
    induction p as [|c r IHr].
    + change (split sep (String sep (join (String sep "") (q :: ps)))
              = "" :: q :: ps).
      cbn [split]. by rewrite Ascii.eqb_refl, IH.
    + cbn [contains] in Hp.
      change (split sep
                (String c (r +:+ String sep ""
                           +:+ join (String sep "") (q :: ps)))
              = String c r :: q :: ps).
      cbn [split]. destruct (Ascii.eqb c sep); [done|]. by rewrite (IHr Hp).
Qed.

(** X2.  The values that [cvs_to_list] returns are in normal form: written
    out with commas between them and read again, they come back as they
    are. *)
Theorem cvs_to_list_join (argument : string) :
  cvs_to_list (Some (join "," (cvs_to_list (Some argument))))
  = cvs_to_list (Some argument).
Proof.
  assert (Forall (fun v => contains "," v = false /\ trimmed v /\ lowercase v)
            (cvs_to_list (Some argument))) as Hvalues.
  { unfold cvs_to_list. apply Forall_fmap.
    eapply Forall_impl; [apply (split_no_sep "," argument)|].
    intros piece Hp. cbn. split_and!.
    - rewrite contains_lower. by apply contains_rstrip, contains_lstrip.
    - apply lower_trimmed, strip_trimmed.
    - apply lower_lowercase. }
  assert (cvs_to_list (Some argument) <> []) as Hne.
  { unfold cvs_to_list. intros Hnil. apply fmap_nil_inv in Hnil.
    by apply split_not_nil in Hnil. }
  unfold cvs_to_list at 1.
  rewrite (split_join "," (cvs_to_list (Some argument)) Hne).
  - revert Hvalues. generalize (cvs_to_list (Some argument)).
    intros values Hvalues. induction Hvalues as [|v vs (_ & Ht & Hl) _ IH];
      [done|].
    rewrite fmap_cons, IH. by rewrite (strip_fixed v Ht), (lower_fixed v Hl).
  - eapply Forall_impl; [exact Hvalues|]. by intros v (Hc & _).
Qed.

(** X3.  [stripped] gives the empty text for a missing argument, a text
    without white space at either end otherwise, and applying it to its
    own result changes nothing. *)
Theorem stripped_spec (argument : option string) :
  stripped None = ""
  /\ trimmed (stripped argument)
  /\ stripped (Some (stripped argument)) = stripped argument.
Proof.
  split; [done|]. assert (trimmed (stripped argument)) as Ht.
  { destruct argument as [a|]; [apply strip_trimmed|]. by split. }
  split; [done|]. cbn [stripped]. by apply strip_fixed.
Qed.

End MoreTextFacts.

(** ** Navigation *)
Section MoreNavigationFacts.
Context `{H : Host}.
Implicit Types (l : nav_labels) (node : BlogNode).
Implicit Types (archive_flat : list FlatItem).

(** X4.  The linker never raises: its list indices are always in range.
    It returns the node as it is, or the node with only its four
    navigation keys set anew. *)
Theorem add_next_prev_total node archive_flat :
  exists linked legacy_linked,
    add_next_prev node archive_flat = inr linked
    /\ legacy_add_next_prev node archive_flat = inr legacy_linked
    /\ (linked = node
        \/ exists prev_text next_text next prev,
             linked = set_nav prev_text next_text next prev node)
    /\ (legacy_linked = node
        \/ exists prev_text next_text next prev,
             legacy_linked = set_nav prev_text next_text next prev node).
Proof.
  unfold add_next_prev, legacy_add_next_prev.
  rewrite !add_next_prev_loop_whole. eexists _, _.
  split; [done|]. split; [done|].
  destruct (last_match (n_time node) archive_flat) as [j|]; [|by split; left].
  split.
  - destruct (neighbours_at labels archive_flat j node) as [linked|] eqn:Hn;
      [|by left]. right. by apply neighbours_at_nav in Hn.
  - destruct (neighbours_at legacy_labels archive_flat j node)
      as [linked|] eqn:Hn; [|by left]. right.
    by apply neighbours_at_nav in Hn.
Qed.

(** X5.  The two copies of the linker give a post the same previous and
    next targets; they differ in the labels only. *)
Theorem legacy_links_agree node archive_flat :
  exists linked legacy_linked,
    add_next_prev node archive_flat = inr linked
    /\ legacy_add_next_prev node archive_flat = inr legacy_linked
    /\ n_next linked = n_next legacy_linked
    /\ n_prev linked = n_prev legacy_linked.
Proof.
  unfold add_next_prev, legacy_add_next_prev.
  rewrite !add_next_prev_loop_whole. eexists _, _.
  split; [done|]. split; [done|].
  destruct (last_match (n_time node) archive_flat) as [j|]; [|done].
  unfold neighbours_at.
  by repeat match goal with
            | |- context [archive_flat !! ?i] => destruct (archive_flat !! i)
            end.
Qed.

(** X6.  With one post in the list, the post is its own previous and its
    own next post, under the two wrap labels. *)
Theorem single_post_links_to_itself node p :
  n_time node = fi_time p ->
  add_next_prev node [p]
  = inr (set_nav "&olarr; Newest" "Oldest &orarr;"
           (get_relative_uri (n_docname node) (fi_docname p))
           (get_relative_uri (n_docname node) (fi_docname p)) node).
Proof.
  intros Ht. unfold add_next_prev. rewrite add_next_prev_loop_whole.
  cbn [last_match]. by rewrite Ht, dt_eqb_refl.
Qed.

(** The position of a time stamp that stands once in the list. *)
Lemma last_match_unique archive_flat i a :
  NoDup (fi_time <$> archive_flat) -> archive_flat !! i = Some a ->
  last_match (fi_time a) archive_flat = Some i.
Proof.
  intros Hnd Hi. apply (last_match_intro _ _ i a Hi eq_refl).
  intros j b Hlt Hj Heq.
  assert (i = j); [|lia].
  apply (NoDup_lookup _ i j (fi_time a) Hnd).
  - by rewrite list_lookup_fmap, Hi.
  - by rewrite list_lookup_fmap, Hj, <- Heq.
Qed.

Lemma add_next_prev_at archive_flat i a node :
  NoDup (fi_time <$> archive_flat) -> archive_flat !! i = Some a ->
  n_time node = fi_time a ->
  exists linked,
    neighbours_at labels archive_flat i node = Some linked
    /\ add_next_prev node archive_flat = inr linked.
Proof.
  intros Hnd Hi Ht. unfold add_next_prev.
  rewrite add_next_prev_loop_whole, Ht, (last_match_unique _ _ _ Hnd Hi).
  destruct (link_at_neighbours labels archive_flat i node)
    as (linked & Hn & _); [by apply lookup_lt_Some in Hi|].
  exists linked. by rewrite Hn.
Qed.

(** X7.  In a list whose time stamps are all different, next and previous
    undo each other: the next post of a post has that post as its previous
    post, and the previous post of a post has that post as its next
    post. *)
Theorem next_and_previous_are_inverse archive_flat i a :
  NoDup (fi_time <$> archive_flat) -> archive_flat !! i = Some a ->
  exists b c,
    b ∈ archive_flat /\ c ∈ archive_flat
    /\ (forall node, n_time node = fi_time a ->
          exists linked,
            add_next_prev node archive_flat = inr linked
            /\ n_next linked
               = Some (get_relative_uri (n_docname node) (fi_docname b))
            /\ n_prev linked
               = Some (get_relative_uri (n_docname node) (fi_docname c)))
    /\ (forall node, n_time node = fi_time b ->
          exists linked,
            add_next_prev node archive_flat = inr linked
            /\ n_prev linked
               = Some (get_relative_uri (n_docname node) (fi_docname a)))
    /\ (forall node, n_time node = fi_time c ->
          exists linked,
            add_next_prev node archive_flat = inr linked
            /\ n_next linked
               = Some (get_relative_uri (n_docname node) (fi_docname a))).
Proof.
  intros Hnd Hi. pose proof (lookup_lt_Some _ _ _ Hi) as Hlt.
  set (n := length archive_flat) in *.
  set (i_next := if decide (i = 0%nat) then (n - 1)%nat else (i - 1)%nat).
  set (i_prev := if decide (S i = n) then 0%nat else S i).
  destruct (lookup_lt_is_Some_2 archive_flat i_next) as [b Hb].
  { subst i_next. destruct (decide (i = 0%nat)); lia. }
  destruct (lookup_lt_is_Some_2 archive_flat i_prev) as [c Hc].
  { subst i_prev. destruct (decide (S i = n)); lia. }
  exists b, c.
  split; [by eapply list_elem_of_lookup_2|].
  split; [by eapply list_elem_of_lookup_2|]. split_and!.
  - intros node Ht.
    destruct (add_next_prev_at _ _ _ node Hnd Hi Ht) as (linked & Hn & Ha).
    exists linked. split; [done|]. unfold neighbours_at in Hn.
    fold n in Hn. fold i_next i_prev in Hn. rewrite Hb, Hc in Hn.
    by injection Hn as <-.
  - intros node Ht.
    destruct (add_next_prev_at _ _ _ node Hnd Hb Ht) as (linked & Hn & Ha).
    exists linked. split; [done|]. unfold neighbours_at in Hn. fold n in Hn.
    assert ((if decide (S i_next = n) then 0%nat else S i_next) = i) as Hback.
    { subst i_next. clear Hn. repeat case_decide; lia. }
    rewrite Hback, Hi in Hn.
    repeat match type of Hn with
           | context [archive_flat !! ?j] => destruct (archive_flat !! j)
           end; [|done..].
    by injection Hn as <-.
  - intros node Ht.
    destruct (add_next_prev_at _ _ _ node Hnd Hc Ht) as (linked & Hn & Ha).
    exists linked. split; [done|]. unfold neighbours_at in Hn. fold n in Hn.
    assert ((if decide (i_prev = 0%nat) then (n - 1)%nat
             else (i_prev - 1)%nat) = i) as Hback.
    { subst i_prev. clear Hn. repeat case_decide; lia. }
    rewrite Hback, Hi in Hn.
    repeat match type of Hn with
           | context [archive_flat !! ?j] => destruct (archive_flat !! j)
           end; [|done..].
    by injection Hn as <-.
Qed.

End MoreNavigationFacts.

(** ** Directives *)
Section MoreDirectiveFacts.
Context `{H : Host}.
Implicit Types (st : option BuildEnv) (d : directive) (env : BuildEnv).
Implicit Types (ds : list (string * directive)).

(** X8.  Outside a build, where the settings have no environment, a post
    directive with a time that parses returns its bare node, without
    document, target or references, and raises nothing; every other
    directive raises. *)
Theorem directives_outside_build :
  (forall options time,
     strptime (option_or_default stripped options "time") date_format
     = inr time ->
     exists node,
       BlogPostDirective_run options None = (inr [NBlog node], None)
       /\ n_time node = time /\ n_docname node = None
       /\ n_targetid node = None /\ n_category_ref node = None
       /\ n_tags node = option_or_default cvs_to_list options "tags")
  /\ (forall d, is_BlogPost d = false -> exists e, run d None = (inl e, None)).
Proof.
  split.
  - intros options time Hparse. eexists.
    unfold BlogPostDirective_run, bind, lift. rewrite Hparse. cbn.
    by split_and!.
  - intros [options| | | | |options] Hd; try done; cbn; eauto.
    unfold BlogRecentDirective_run, bind, lift.
    destruct (options !! "length"); cbn; eauto.
Qed.

(** X9.  In a build, a post directive with a time that parses adds one
    entry at the end of the store and leaves the entries before it; the
    entry carries the parsed time, the current document, the tags and the
    category of the options and the next serial number as its target, and
    the directive returns the target and the node last. *)
Theorem post_directive_appends options env time :
  strptime (option_or_default stripped options "time") date_format
  = inr time ->
  exists nodes env' p before,
    BlogPostDirective_run options (Some env) = (inr nodes, Some env')
    /\ all_posts env' = Some (store env ++ [p])
    /\ pi_time p = time /\ pi_docname p = env_docname env
    /\ pi_targetid p = "post-" +:+ pretty (next_serialno "post" env)
    /\ n_targetid (pi_post_node p) = Some (pi_targetid p)
    /\ n_docname (pi_post_node p) = Some (env_docname env)
    /\ n_tags (pi_post_node p) = option_or_default cvs_to_list options "tags"
    /\ n_category (pi_post_node p)
       = option_or_default stripped options "category"
    /\ n_year (pi_post_node p) = dt_year time
    /\ next_serialno "post" env' = S (next_serialno "post" env)
    /\ nodes = before ++ [NTarget (pi_targetnode p); NBlog (pi_post_node p)].
Proof.
  intros Hparse. unfold BlogPostDirective_run, bind, lift. rewrite Hparse.
  cbn. unfold store.
  destruct (decide (option_or_default stripped options "summary_image" = ""));
    cbn.
  - eexists _, _, _, []. split; [reflexivity|].
    split_and!; try reflexivity. exact (next_serialno_new "post" env).
  - eexists _, _, _, [_]. split; [reflexivity|].
    split_and!; try reflexivity. exact (next_serialno_new "post" env).
Qed.

(** What one directive does to the environment of a build. *)
Lemma run_effect d env :
  exists env' added,
    snd (run d (Some env)) = Some env'
    /\ store env' = store env ++ added
    /\ match fst (run d (Some env)) with
       | inr _ => length added = if is_BlogPost d then 1%nat else 0%nat
       | inl _ => added = []
       end
    /\ env_docname env' = env_docname env
    /\ forall d' v, singleton_docname d' env = Some v ->
                    singleton_docname d' env' = Some v.
Proof.
  destruct d as [options| | | | |options]; cbn.
  - unfold BlogPostDirective_run, bind, lift.
    destruct (strptime _ _) as [e|time]; cbn.
    { exists env, []. rewrite app_nil_r. by split_and!. }
    unfold store.
    destruct (decide (_ = "")); cbn; eexists _, [_]; (split; [done|]);
      cbn; (split_and!; [done..|]); by intros [].
  - unfold BlogCategoryDirective_run, bind, settings_env, on_env. cbn.
    destruct (category_docname env) eqn:Hc; cbn.
    + exists env, []. rewrite app_nil_r. by split_and!.
    + eexists _, []. rewrite app_nil_r. split_and!; try done.
      intros [] v; cbn; congruence.
  - unfold BlogTagDirective_run, bind, settings_env, on_env. cbn.
    destruct (tag_docname env) eqn:Hc; cbn.
    + exists env, []. rewrite app_nil_r. by split_and!.
    + eexists _, []. rewrite app_nil_r. split_and!; try done.
      intros [] v; cbn; congruence.
  - exists env, []. rewrite app_nil_r. by split_and!.
  - unfold BlogArchiveDirective_run, bind, settings_env, on_env. cbn.
    destruct (archive_docname env) eqn:Hc; cbn.
    + exists env, []. rewrite app_nil_r. by split_and!.
    + eexists _, []. rewrite app_nil_r. split_and!; try done.
      intros [] v; cbn; congruence.
  - unfold BlogRecentDirective_run, bind, lift, settings_env, on_env.
    destruct (options !! "length"); cbn.
    + destruct (recent_docname env) eqn:Hc; cbn.
      * exists env, []. rewrite app_nil_r. by split_and!.
      * eexists _, []. rewrite app_nil_r. split_and!; try done.
        intros [] v; cbn; congruence.
    + exists env, []. rewrite app_nil_r. by split_and!.
Qed.

Lemma run_directives_cons_snd docname d ds env env1 :
  snd (run d (Some (set_env_docname docname env))) = Some env1 ->
  snd (run_directives ((docname, d) :: ds) (Some env))
  = match fst (run d (Some (set_env_docname docname env))) with
    | inr _ => snd (run_directives ds (Some env1))
    | inl _ => Some env1
    end
  /\ match fst (run d (Some (set_env_docname docname env))) with
     | inr _ =>
         match fst (run_directives ds (Some env1)) with
         | inr _ => exists nodes,
             fst (run_directives ((docname, d) :: ds) (Some env)) = inr nodes
         | inl e =>
             fst (run_directives ((docname, d) :: ds) (Some env)) = inl e
         end
     | inl e => fst (run_directives ((docname, d) :: ds) (Some env)) = inl e
     end.
Proof.
  intros Hsnd. rewrite run_directives_cons.
  change (set_env_docname docname <$> Some env)
    with (Some (set_env_docname docname env)).
  destruct (run d _) as [[e|nodes] st1]; cbn in *; subst st1; [done|].
  destruct (run_directives ds (Some env1)) as [[e|nodes'] st2]; cbn; eauto.
Qed.

(** X10.  The store only grows at its end: whatever directives a build
    runs, and whether they return or one of them raises, the entries that
    were in the store stay where they were; when all directives return,
    the store has grown by one entry for each post directive. *)
Theorem store_is_append_only ds env :
  exists env' added,
    snd (run_directives ds (Some env)) = Some env'
    /\ store env' = store env ++ added
    /\ (length added <= length (filter (fun dd => is_BlogPost (snd dd)) ds))%nat
    /\ ((exists nodes, fst (run_directives ds (Some env)) = inr nodes) ->
        length added = length (filter (fun dd => is_BlogPost (snd dd)) ds)).
Proof.
  revert env. induction ds as [|[docname d] ds IH]; intros env.
  { exists env, []. rewrite app_nil_r. by split_and!. }
  destruct (run_effect d (set_env_docname docname env))
    as (env1 & added1 & Hsnd & Hstore1 & Hlen1 & _ & _).
  destruct (run_directives_cons_snd docname d ds env env1 Hsnd)
    as [Hs Hf].
  destruct (IH env1) as (env2 & added2 & Hsnd2 & Hstore2 & Hle2 & Heq2).
  assert (length (filter (fun dd => is_BlogPost (snd dd)) ((docname, d) :: ds))
          = ((if is_BlogPost d then 1 else 0)
             + length (filter (fun dd => is_BlogPost (snd dd)) ds))%nat)
    as ->.
  { destruct (is_BlogPost d) eqn:Hd.
    - rewrite filter_cons_True; [reflexivity|].
      cbn [snd]. rewrite Hd. exact I.
    - rewrite filter_cons_False; [reflexivity|].
      cbn [snd]. rewrite Hd. intros []. }
  destruct (fst (run d (Some (set_env_docname docname env)))) as [e|nodes].
  - subst added1. exists env1, []. rewrite Hs.
    rewrite app_nil_r in Hstore1. rewrite app_nil_r.
    split_and!; [done|done|cbn; lia|]. intros [nodes Hnodes]. congruence.
  - exists env2, (added1 ++ added2). rewrite Hs, Hsnd2.
    split_and!; [done|by rewrite Hstore2, Hstore1, app_assoc| |].
    + rewrite length_app, Hlen1. lia.
    + intros [nodes' Hnodes].
      destruct (fst (run_directives ds (Some env1))) as [e|nodes2];
        [congruence|].
      rewrite length_app, Hlen1, Heq2 by eauto. done.
Qed.

(** X11.  The document recorded for a listing directive is never
    overwritten: whatever directives follow, and whether they return or
    raise, the record stays as it is. *)
Theorem listing_record_is_kept ds d env v :
  singleton_docname d env = Some v ->
  exists env',
    snd (run_directives ds (Some env)) = Some env'
    /\ singleton_docname d env' = Some v.
Proof.
  revert env. induction ds as [|[docname d'] ds IH]; intros env Hrec.
  { by exists env. }
  destruct (run_effect d' (set_env_docname docname env))
    as (env1 & added1 & Hsnd & _ & _ & _ & Hkeep).
  destruct (run_directives_cons_snd docname d' ds env env1 Hsnd) as [Hs _].
  assert (singleton_docname d env1 = Some v) as Hrec1.
  { apply Hkeep. by destruct d. }
  rewrite Hs.
  destruct (fst (run d' (Some (set_env_docname docname env)))); [eauto|].
  by apply IH.
Qed.

(** X12.  A recent-posts directive without its [length] option raises
    [KeyError], on its first occurrence too, before it looks at the
    environment; with the option, the first occurrence records the current
    document and its node, which has no items yet. *)
Theorem recent_directive_spec options st :
  (options !! "length" = None ->
   BlogRecentDirective_run options st = (inl (KeyError "length"), st))
  /\ (forall v env,
        options !! "length" = Some v -> st = Some env ->
        recent_docname env = None ->
        exists env',
          BlogRecentDirective_run options st
          = (inr [NRecent (mk_RecentNode v [] 0)], Some env')
          /\ recent_docname env' = Some (env_docname env)
          /\ recent_nodes env'
             = Some (default [] (recent_nodes env)
                     ++ [mk_RecentNode v [] 0])
          /\ store env' = store env).
Proof.
  unfold BlogRecentDirective_run, bind, lift. split.
  - by intros ->.
  - intros v env -> -> Hnone. unfold settings_env, on_env. cbn.
    rewrite Hnone. cbn. eexists. by split_and!.
Qed.

(** X13.  The tag-list directive is no singleton: a build may hold any
    number of them.  A run of tag-list directives returns one node for
    each, with the document it stands in, and leaves the environment as it
    was but for the current document. *)
Theorem tag_list_directives_repeat ds env :
  Forall (fun dd => snd dd = BlogTagList) ds ->
  exists env',
    run_directives ds (Some env)
    = (inr ((fun dd => NTagList (fst dd)) <$> ds), Some env')
    /\ env' = set_env_docname (default (env_docname env) (last (fst <$> ds)))
               env.
Proof.
  intros Hall. revert env.
  induction Hall as [|[docname d] ds Hd Hall IH]; intros env.
  { exists env. split; [done|]. by destruct env. }
  cbn in Hd. subst d. rewrite run_directives_cons.
  destruct (IH (set_env_docname docname env)) as (env' & Hrun & Henv).
  cbn. rewrite Hrun. exists env'. split; [done|]. rewrite Henv.
  destruct ds as [|[dn d'] ds']; [by destruct env|].
  rewrite fmap_cons, last_cons_cons.
  destruct (last (_ :: _)) as [x|] eqn:E; [by destruct env|].
  by apply last_None in E.
Qed.

End MoreDirectiveFacts.

(** ** Aggregation *)
Section MoreAggregationFacts.
Context `{H : Host}.
Implicit Types (env : BuildEnv) (posts : list PostInfo).
Implicit Types (ds : list (string * directive)).

(** What one directive leaves as it is. *)
Lemma run_frame d env :
  exists env',
    snd (run d (Some env)) = Some env'
    /\ (is_BlogPost d = false -> all_posts env' = all_posts env)
    /\ category_id env' = category_id env
    /\ tag_id env' = tag_id env
    /\ archive_id env' = archive_id env
    /\ (forall d', same_singleton d d' = false ->
          singleton_docname d' env' = singleton_docname d' env).
Proof.
  destruct d as [options| | | | |options]; cbn.
  - unfold BlogPostDirective_run, bind, lift.
    destruct (strptime _ _) as [e|time]; cbn.
    { exists env. by split_and!. }
    destruct (decide (_ = "")); cbn; eexists; (split; [done|]);
      cbn; (split_and!; [done..|]); by intros [].
  - unfold BlogCategoryDirective_run, bind, settings_env, on_env. cbn.
    destruct (category_docname env) eqn:Hc; cbn.
    + exists env. by split_and!.
    + eexists. split_and!; try done. by intros [].
  - unfold BlogTagDirective_run, bind, settings_env, on_env. cbn.
    destruct (tag_docname env) eqn:Hc; cbn.
    + exists env. by split_and!.
    + eexists. split_and!; try done. by intros [].
  - exists env. by split_and!.
  - unfold BlogArchiveDirective_run, bind, settings_env, on_env. cbn.
    destruct (archive_docname env) eqn:Hc; cbn.
    + exists env. by split_and!.
    + eexists. split_and!; try done. by intros [].
  - unfold BlogRecentDirective_run, bind, lift, settings_env, on_env.
    destruct (options !! "length"); cbn.
    + destruct (recent_docname env) eqn:Hc; cbn.
      * exists env. by split_and!.
      * eexists. split_and!; try done. by intros [].
    + exists env. by split_and!.
Qed.

Lemma run_directives_frame ds env :
  exists env',
    snd (run_directives ds (Some env)) = Some env'
    /\ (Forall (fun dd => is_BlogPost (snd dd) = false) ds ->
        all_posts env' = all_posts env)
    /\ category_id env' = category_id env
    /\ tag_id env' = tag_id env
    /\ archive_id env' = archive_id env
    /\ (forall d', Forall (fun dd => same_singleton (snd dd) d' = false) ds ->
          singleton_docname d' env' = singleton_docname d' env).
Proof.
  revert env. induction ds as [|[docname d] ds IH]; intros env.
  { exists env. by split_and!. }
  destruct (run_frame d (set_env_docname docname env))
    as (env1 & Hsnd & Hposts1 & Hc1 & Ht1 & Ha1 & Hs1).
  destruct (run_directives_cons_snd docname d ds env env1 Hsnd) as [Hs _].
  destruct (IH env1) as (env2 & Hsnd2 & Hposts2 & Hc2 & Ht2 & Ha2 & Hs2).
  assert (forall d', singleton_docname d' (set_env_docname docname env)
                     = singleton_docname d' env) as Hdoc by (by intros []).
  rewrite Hs. destruct (fst (run d (Some (set_env_docname docname env)))).
  - exists env1. split_and!; [done| |done..|].
    + intros Hall. apply Forall_cons in Hall as [Hd _]. by rewrite Hposts1.
    + intros d' Hall. apply Forall_cons in Hall as [Hd _].
      by rewrite Hs1, Hdoc.
  - exists env2. split_and!; [done| | | | |].
    + intros Hall. apply Forall_cons in Hall as [Hd Hall].
      by rewrite Hposts2, Hposts1.
    + by rewrite Hc2, Hc1.
    + by rewrite Ht2, Ht1.
    + by rewrite Ha2, Ha1.
    + intros d' Hall. apply Forall_cons in Hall as [Hd Hall].
      by rewrite Hs2, Hs1, Hdoc.
Qed.

(** X14.  A build without a post directive has no store: after its
    directives, each of the three aggregation calls raises
    [AttributeError] and leaves the environment as it is, so a listing
    page alone cannot be resolved. *)
Theorem no_post_no_listing ds env fromdocname :
  all_posts env = None ->
  Forall (fun dd => is_BlogPost (snd dd) = false) ds ->
  exists env',
    snd (run_directives ds (Some env)) = Some env'
    /\ build_category_info fromdocname env'
       = (inl (AttributeError "all_posts"), env')
    /\ build_tag_info fromdocname env'
       = (inl (AttributeError "all_posts"), env')
    /\ build_archive_info fromdocname env'
       = (inl (AttributeError "all_posts"), env').
Proof.
  intros Hnone Hall.
  destruct (run_directives_frame ds env) as (env' & Hsnd & Hposts & _).
  exists env'. split; [done|].
  specialize (Hposts Hall). rewrite Hnone in Hposts.
  unfold build_category_info, build_tag_info, build_archive_info,
    make_references, bind, env_all_posts.
  by rewrite Hposts.
Qed.

Lemma nonempty_elem {A} (l : list A) : l <> [] <-> exists a, a ∈ l.
Proof.
  destruct l as [|a l]; split; try done.
  - by intros [a Ha%not_elem_of_nil].
  - intros _. exists a. left.
Qed.

Lemma fmap_filter_nonempty {A B} (f : A -> B) (P : A -> Prop)
    `{!forall a, Decision (P a)} (l : list A) :
  f <$> filter P l <> [] <-> exists a, a ∈ l /\ P a.
Proof.
  rewrite nonempty_elem. split.
  - intros [b Hb]. apply list_elem_of_fmap in Hb as (a & _ & Ha).
    apply list_elem_of_filter in Ha as [? ?]. eauto.
  - intros (a & Hin & HP). exists (f a).
    apply list_elem_of_fmap. exists a. split; [done|].
    by apply list_elem_of_filter.
Qed.

Lemma tag_entries_nonempty fromdocname posts tag :
  tag_entries fromdocname posts tag <> []
  <-> exists p, p ∈ posts /\ tag ∈ n_tags (pi_post_node p).
Proof.
  rewrite nonempty_elem. unfold tag_entries. split.
  - intros [b Hb]. apply list_elem_of_bind in Hb as (p & Hb & Hp).
    apply list_elem_of_fmap in Hb as (t & _ & Ht).
    apply list_elem_of_filter in Ht as [-> ?]. eauto.
  - intros (p & Hp & Ht). exists (post_item fromdocname p).
    apply list_elem_of_bind. exists p. split; [|done].
    apply list_elem_of_fmap. exists tag. split; [done|].
    by apply list_elem_of_filter.
Qed.

Lemma grouping_keys {K} `{Countable K} (d : gmap K (list Item))
    (entries : K -> list Item) :
  (forall k, d !! k = sort_items <$> extend None (entries k)) ->
  forall k,
    (is_Some (d !! k) <-> entries k <> [])
    /\ (forall l, d !! k = Some l ->
          l <> [] /\ length l = length (entries k)).
Proof.
  intros Hd k. rewrite Hd. split.
  - rewrite fmap_is_Some.
    destruct (entries k) as [|a l]; cbn; split.
    + by intros [? ?].
    + done.
    + done.
    + eauto.
  - intros l Hl. apply fmap_Some in Hl as (l0 & Hl0 & ->).
    apply extend_None_Some in Hl0 as [-> Hne]. unfold sort_items.
    rewrite length_sorted. split; [|done]. intros Hnil. apply Hne.
    apply length_zero_iff_nil.
    by rewrite <- (length_sorted dt_ltb it_time true), Hnil.
Qed.

(** X15.  The keys of the three groupings are the categories, the tags
    and the years that stand on a post of the store, no more and no less;
    no key holds an empty list, and the flattened list has one entry for
    each post. *)
Theorem groupings_cover_the_store fromdocname env posts :
  all_posts env = Some posts ->
  exists categories tags archive archive_flat e1 e2 e3,
    build_category_info fromdocname env = (inr categories, e1)
    /\ build_tag_info fromdocname env = (inr tags, e2)
    /\ build_archive_info fromdocname env
       = (inr (archive, archive_flat), e3)
    /\ (forall cat, is_Some (categories !! cat)
          <-> exists p, p ∈ posts /\ n_category (pi_post_node p) = cat)
    /\ (forall tag, is_Some (tags !! tag)
          <-> exists p, p ∈ posts /\ tag ∈ n_tags (pi_post_node p))
    /\ (forall year, is_Some (archive !! year)
          <-> exists p, p ∈ posts /\ n_year (pi_post_node p) = year)
    /\ (forall cat l, categories !! cat = Some l -> l <> [])
    /\ (forall tag l, tags !! tag = Some l -> l <> [])
    /\ (forall year l, archive !! year = Some l -> l <> [])
    /\ length archive_flat = length posts.
Proof.
  intros Hposts.
  rewrite (build_category_info_eq _ _ _ Hposts),
    (build_tag_info_eq _ _ _ Hposts), (build_archive_info_eq _ _ _ Hposts).
  eexists _, _, _, _, _, _, _.
  split; [done|]. split; [done|]. split; [done|].
  pose proof (grouping_keys _ _ (categories_of_lookup fromdocname posts))
    as Hcat.
  pose proof (grouping_keys _ _ (tags_of_lookup fromdocname posts)) as Htag.
  pose proof (grouping_keys _ _ (archive_of_lookup fromdocname posts))
    as Hyear.
  split_and!.
  - intros cat. rewrite (proj1 (Hcat cat)). apply fmap_filter_nonempty.
  - intros tag. rewrite (proj1 (Htag tag)). apply tag_entries_nonempty.
  - intros year. rewrite (proj1 (Hyear year)). apply fmap_filter_nonempty.
  - intros cat l Hl. by apply (proj2 (Hcat cat)).
  - intros tag l Hl. by apply (proj2 (Htag tag)).
  - intros year l Hl. by apply (proj2 (Hyear year)).
  - rewrite archive_flat_of_eq. unfold sort_flat_items.
    by rewrite length_sorted, length_fmap.
Qed.

Lemma filter_eq_distinct (tag : string) (ts : list string) :
  NoDup ts ->
  filter (fun t => t = tag) ts = if decide (tag ∈ ts) then [tag] else [].
Proof.
  induction 1 as [|t ts Hnotin Hnd IH]; [done|].
  rewrite filter_cons, IH. destruct (decide (t = tag)) as [->|Hne].
  - rewrite (decide_False (P := tag ∈ ts)) by done.
    by rewrite decide_True by left.
  - destruct (decide (tag ∈ ts)) as [Hin|Hin].
    + by rewrite decide_True by (by right).
    + rewrite decide_False; [done|]. intros Hc.
      apply elem_of_cons in Hc as [->|]; done.
Qed.

Lemma tag_posts_distinct posts tag :
  Forall (fun p => NoDup (n_tags (pi_post_node p))) posts ->
  tag_posts posts tag
  = filter (fun p => tag ∈ n_tags (pi_post_node p)) posts.
Proof.
  induction 1 as [|p posts Hp Hall IH]; [done|].
  unfold tag_posts in *. cbn [mbind list_bind]. rewrite IH, filter_cons.
  rewrite (filter_eq_distinct tag _ Hp).
  by destruct (decide (tag ∈ n_tags (pi_post_node p))).
Qed.

(** X16.  When no post writes a tag twice, the entries of the list of a
    tag stand, one for one, for the posts of the store that carry the tag:
    each such post once, and no other post. *)
Theorem distinct_tags_file_once fromdocname env posts :
  all_posts env = Some posts ->
  Forall (fun p => NoDup (n_tags (pi_post_node p))) posts ->
  exists tags e,
    build_tag_info fromdocname env = (inr tags, e)
    /\ forall tag,
         exists ps,
           Forall2 (stands_for fromdocname) (default [] (tags !! tag)) ps
           /\ ps ≡ₚ filter (fun p => tag ∈ n_tags (pi_post_node p)) posts.
Proof.
  intros Hposts Hnd. rewrite (build_tag_info_eq _ _ _ Hposts).
  eexists _, _. split; [done|]. intros tag.
  exists (sorted dt_ltb pi_time true (tag_posts posts tag)). split.
  - rewrite (grouping_stands_for _ (tag_posts posts) fromdocname).
    + apply Forall2_fmap_l, Forall_Forall2_diag, Forall_forall.
      intros p _. apply post_item_stands_for.
    + intros k. rewrite <- tag_entries_posts. apply tags_of_lookup.
  - rewrite sorted_Permutation. by rewrite tag_posts_distinct.
Qed.

End MoreAggregationFacts.

(** ** Identifier assignment *)
Section MoreIdentifierFacts.
Context `{H : Host}.
Implicit Types (env : BuildEnv) (posts : list PostInfo).

Lemma issued_ids_cover {K} `{Countable K} (lt : K -> K -> bool)
    (prefix : string) (first : nat) (d_keys : list K) (ids : gmap K string) :
  issued_in_key_order lt prefix first d_keys ids ->
  (forall k, is_Some (ids !! k) <-> k ∈ d_keys)
  /\ (forall k1 k2 v, ids !! k1 = Some v -> ids !! k2 = Some v -> k1 = k2).
Proof.
  intros (keys & Hp & Hs & Hin & Hout).
  assert (forall k, is_Some (ids !! k) -> k ∈ keys) as Hdom.
  { intros k [v Hv]. destruct (decide (k ∈ keys)) as [|Hk]; [done|].
    by rewrite (Hout k Hk) in Hv. }
  split.
  - intros k. rewrite <- Hp. split; [apply Hdom|].
    intros Hk. apply list_elem_of_lookup in Hk as [i Hi].
    rewrite (Hin i k Hi). eauto.
  - intros k1 k2 v H1 H2.
    assert (k1 ∈ keys) as Hk1 by (apply Hdom; eauto).
    assert (k2 ∈ keys) as Hk2 by (apply Hdom; eauto).
    apply list_elem_of_lookup in Hk1 as [i1 Hi1].
    apply list_elem_of_lookup in Hk2 as [i2 Hi2].
    rewrite (Hin i1 k1 Hi1) in H1. rewrite (Hin i2 k2 Hi2) in H2.
    assert (prefix +:+ pretty (first + i1)%nat
            = prefix +:+ pretty (first + i2)%nat) as Heq by congruence.
    apply (inj (String.app prefix)) in Heq. apply (inj pretty) in Heq.
    assert (i1 = i2) as -> by lia. congruence.
Qed.

(** X17.  The first assignment of a grouping kind gives every key of the
    grouping an identifier, gives nothing else one, and gives no two keys
    the same identifier. *)
Theorem first_identifiers_cover_keys fromdocname env posts :
  all_posts env = Some posts ->
  (category_id env = None ->
     exists categories env' ids,
       build_category_info fromdocname env = (inr categories, env')
       /\ category_id env' = Some ids
       /\ (forall k, is_Some (ids !! k) <-> is_Some (categories !! k))
       /\ (forall k1 k2 v,
             ids !! k1 = Some v -> ids !! k2 = Some v -> k1 = k2))
  /\ (tag_id env = None ->
        exists tags env' ids,
          build_tag_info fromdocname env = (inr tags, env')
          /\ tag_id env' = Some ids
          /\ (forall k, is_Some (ids !! k) <-> is_Some (tags !! k))
          /\ (forall k1 k2 v,
                ids !! k1 = Some v -> ids !! k2 = Some v -> k1 = k2))
  /\ (archive_id env = None ->
        exists archive archive_flat env' ids,
          build_archive_info fromdocname env
          = (inr (archive, archive_flat), env')
          /\ archive_id env' = Some ids
          /\ (forall k, is_Some (ids !! k) <-> is_Some (archive !! k))
          /\ (forall k1 k2 v,
                ids !! k1 = Some v -> ids !! k2 = Some v -> k1 = k2)).
Proof.
  intros Hposts. split_and!; intros Hnone.
  - destruct (first_category_assignment fromdocname env posts Hposts Hnone)
      as (categories & env' & Hrun & _ & ids & Hids & Hissued & _).
    destruct (issued_ids_cover _ _ _ _ _ Hissued) as [Hdom Hinj].
    exists categories, env', ids. split_and!; [done..| |done].
    intros k. by rewrite Hdom, elem_of_dict_keys.
  - destruct (first_tag_assignment fromdocname env posts Hposts Hnone)
      as (tags & env' & Hrun & ids & Hids & Hissued & _).
    destruct (issued_ids_cover _ _ _ _ _ Hissued) as [Hdom Hinj].
    exists tags, env', ids. split_and!; [done..| |done].
    intros k. by rewrite Hdom, elem_of_dict_keys.
  - destruct (first_year_assignment fromdocname env posts Hposts Hnone)
      as (archive & archive_flat & env' & Hrun & ids & Hids & Hissued & _).
    destruct (issued_ids_cover _ _ _ _ _ Hissued) as [Hdom Hinj].
    exists archive, archive_flat, env', ids. split_and!; [done..| |done].
    intros k. by rewrite Hdom, elem_of_dict_keys.
Qed.

End MoreIdentifierFacts.

(** ** Listing pages *)
Section ListingFacts.
Context `{Countable K} (show : K -> string).
Implicit Types (item_dict : gmap K (list Item)) (env_id : gmap K string).
Implicit Types (keys : list K) (doctree : list doc_node).

Lemma listing_of_keys_cons key keys item_dict env_id items key_id rest :
  item_dict !! key = Some items -> env_id !! key = Some key_id ->
  listing_of_keys show keys item_dict env_id = inr rest ->
  listing_of_keys show (key :: keys) item_dict env_id
  = inr (mk_listing
           (mk_id_reference
              (show key +:+ " (" +:+ pretty (length items) +:+ ")") key_id
            :: l_section_list rest)
           ((mk_section [key_id] [key_id]
               (Some (show key +:+ " (" +:+ pretty (length items) +:+ ")"))
               (Some (mk_id_reference
                        (show key +:+ " (" +:+ pretty (length items) +:+ ")")
                        key_id)),
             make_item_list items) :: l_sections rest)).
Proof.
  intros Hitems Hid Hrest. cbn [listing_of_keys]. unfold make_new_section.
  by rewrite Hitems, Hid, Hrest.
Qed.

Lemma listing_of_keys_ok keys item_dict env_id :
  (forall k, k ∈ keys -> is_Some (item_dict !! k) /\ is_Some (env_id !! k)) ->
  exists l,
    listing_of_keys show keys item_dict env_id = inr l
    /\ length (l_section_list l) = length keys
    /\ length (l_sections l) = length keys
    /\ forall i k, keys !! i = Some k ->
         exists items key_id,
           item_dict !! k = Some items /\ env_id !! k = Some key_id
           /\ l_section_list l !! i
              = Some (mk_id_reference
                        (show k +:+ " (" +:+ pretty (length items) +:+ ")")
                        key_id)
           /\ l_sections l !! i
              = Some (mk_section [key_id] [key_id]
                        (Some (show k +:+ " (" +:+ pretty (length items)
                               +:+ ")"))
                        (Some (mk_id_reference
                                 (show k +:+ " (" +:+ pretty (length items)
                                  +:+ ")") key_id)),
                      make_item_list items).
Proof.
  induction keys as [|key keys IH]; intros Hall.
  { exists (mk_listing [] []). by split_and!. }
  destruct (Hall key) as [[items Hitems] [key_id Hid]]; [left|].
  destruct IH as (rest & Hrest & Hlen1 & Hlen2 & Hat).
  { intros k Hk. apply Hall. by right. }
  eexists. split; [by apply listing_of_keys_cons|].
  cbn [l_section_list l_sections length]. split_and!; [congruence..|].
  intros [|i] k Hk.
  - injection Hk as <-. by exists items, key_id.
  - by apply Hat.
Qed.

Lemma listing_of_keys_raises keys item_dict env_id :
  (forall k, k ∈ keys -> is_Some (item_dict !! k)) ->
  (exists k, k ∈ keys /\ env_id !! k = None) ->
  exists k,
    k ∈ keys /\ env_id !! k = None
    /\ listing_of_keys show keys item_dict env_id = inl (KeyError (show k)).
Proof.
  induction keys as [|key keys IH]; intros Hall (k & Hk & Hnone).
  { by apply not_elem_of_nil in Hk. }
  destruct (Hall key) as [items Hitems]; [left|].
  destruct (env_id !! key) as [key_id|] eqn:Hid.
  - destruct IH as (k' & Hk' & Hnone' & Hraise).
    { intros k' Hk'. apply Hall. by right. }
    { exists k. split; [|done].
      apply elem_of_cons in Hk as [->|Hk]; [congruence|done]. }
    exists k'. split_and!; [by right|done|].
    cbn [listing_of_keys]. unfold make_new_section.
    by rewrite Hitems, Hid, Hraise.
  - exists key. split_and!; [left|done|].
    cbn [listing_of_keys]. unfold make_new_section.
    by rewrite Hitems, Hid.
Qed.

Lemma sorted_keys_elem (lt : K -> K -> bool) reverse item_dict k :
  k ∈ sorted lt id reverse (dict_keys item_dict) <-> is_Some (item_dict !! k).
Proof. by rewrite sorted_Permutation, elem_of_dict_keys. Qed.

(** X18.  When every key of the dictionary has an identifier, the content
    of a listing is made without an exception: one section and one entry
    of the bullet list for each key, in the sorted order of the keys, the
    section carrying the identifier of the key and the title
    [key (number of posts)], followed by the summaries of the posts of
    the key. *)
Theorem listing_sections_in_key_order (lt : K -> K -> bool) item_dict env_id
    reverse :
  (forall k, is_Some (item_dict !! k) -> is_Some (env_id !! k)) ->
  exists l,
    listing_content lt show item_dict env_id reverse = inr l
    /\ length (l_section_list l) = size item_dict
    /\ length (l_sections l) = size item_dict
    /\ forall i k,
         sorted lt id reverse (dict_keys item_dict) !! i = Some k ->
         exists items key_id,
           item_dict !! k = Some items /\ env_id !! k = Some key_id
           /\ l_section_list l !! i
              = Some (mk_id_reference
                        (show k +:+ " (" +:+ pretty (length items) +:+ ")")
                        key_id)
           /\ l_sections l !! i
              = Some (mk_section [key_id] [key_id]
                        (Some (show k +:+ " (" +:+ pretty (length items)
                               +:+ ")"))
                        (Some (mk_id_reference
                                 (show k +:+ " (" +:+ pretty (length items)
                                  +:+ ")") key_id)),
                      make_item_list items).
Proof.
  intros Hids. unfold listing_content.
  destruct (listing_of_keys_ok
              (sorted lt id reverse (dict_keys item_dict)) item_dict env_id)
    as (l & Hl & Hlen1 & Hlen2 & Hat).
  { intros k Hk. apply sorted_keys_elem in Hk. auto. }
  exists l. rewrite length_sorted, length_dict_keys in Hlen1, Hlen2.
  by split_and!.
Qed.

(** X19.  When a key of the dictionary has no identifier, the content of
    a listing is not made: [KeyError] is raised for a key that has
    none. *)
Theorem listing_needs_every_identifier (lt : K -> K -> bool) item_dict env_id
    reverse k :
  is_Some (item_dict !! k) -> env_id !! k = None ->
  exists k',
    is_Some (item_dict !! k') /\ env_id !! k' = None
    /\ listing_content lt show item_dict env_id reverse
       = inl (KeyError (show k')).
Proof.
  intros Hk Hnone. unfold listing_content.
  destruct (listing_of_keys_raises
              (sorted lt id reverse (dict_keys item_dict)) item_dict env_id)
    as (k' & Hk' & Hnone' & Hraise).
  { intros k0 Hk0. by apply sorted_keys_elem in Hk0. }
  { exists k. split; [|done]. by apply sorted_keys_elem. }
  exists k'. split_and!; [|done..]. by apply sorted_keys_elem in Hk'.
Qed.

Lemma update_node_replace_none (lt : K -> K -> bool) doctree obj item_dict
    env_id reverse :
  Forall (fun dn => obj dn = false) doctree ->
  update_node_replace lt show doctree obj item_dict env_id reverse
  = inr doctree.
Proof.
  induction 1 as [|dn doctree Hdn Hall IH]; [done|].
  cbn [update_node_replace]. by rewrite Hdn, IH.
Qed.


End ListingFacts.

(** ** The table of contents *)
Section TocFacts.
Context `{Countable K} (show : K -> string).
Implicit Types (item_dict : gmap K (list Item)) (env_id : gmap K string).

Lemma toc_lines_listing_of_keys (keys : list K) item_dict env_id l :
  listing_of_keys show keys item_dict env_id = inr l ->
  toc_lines (fst <$> l_sections l)
  = inr ((fun r => toc_entry ("#" +:+ ir_refid r) (ir_text r))
           <$> l_section_list l).
Proof.
  revert l. induction keys as [|key keys IH]; intros l Hl.
  { by injection Hl as <-. }
  cbn [listing_of_keys] in Hl. unfold make_new_section in Hl.
  destruct (item_dict !! key) as [items|]; [|done].
  destruct (env_id !! key) as [key_id|]; [|done].
  destruct (listing_of_keys show keys item_dict env_id) as [e|rest];
    [done|].
  injection Hl as <-. cbn [l_sections l_section_list fmap list_fmap fst].
  cbn [toc_lines s_blog s_ids]. rewrite (list_get_0 [key_id] key_id eq_refl).
  by rewrite (IH rest eq_refl).
Qed.

(** X21.  The table of contents of a listing page follows the listing:
    one line for each entry of the bullet list, in the same order, with
    the text of the entry and a link to its identifier; making it raises
    nothing. *)
Theorem toc_follows_listing (lt : K -> K -> bool) item_dict env_id reverse l
    head :
  listing_content lt show item_dict env_id reverse = inr l ->
  toc_lines (fst <$> l_sections l)
  = inr ((fun r => toc_entry ("#" +:+ ir_refid r) (ir_text r))
           <$> l_section_list l)
  /\ exists first second,
       make_toc (fst <$> l_sections l) head
       = inr (PyStr.join linefeed
                ([first; second]
                 ++ ((fun r => toc_entry ("#" +:+ ir_refid r) (ir_text r))
                       <$> l_section_list l)
                 ++ ["</ul>"; "</li>"; "</ul>"])).
Proof.
  intros Hl. apply toc_lines_listing_of_keys in Hl. split; [done|].
  unfold make_toc. rewrite Hl. by eexists _, _.
Qed.

End TocFacts.

(** ** The resolve phase *)
Section ResolveFacts.
Context `{H : Host}.
Implicit Types (env : BuildEnv) (posts : list PostInfo).
Implicit Types (node : BlogNode) (archive_flat : list FlatItem).

Lemma issue_ids_None_frame {K} `{Countable K} {V} prefix kind
    (lt : K -> K -> bool) (d : gmap K V)
    (set : gmap K string -> BuildEnv -> BuildEnv) env :
  exists td ids,
    issue_ids prefix kind lt None d set env = set ids (set_temp_data td env).
Proof.
  unfold issue_ids.
  assert (NoDup (sorted lt id false (dict_keys d))) as Hnd.
  { rewrite sorted_Permutation. apply dict_keys_NoDup. }
  destruct (assign_ids_spec prefix kind _ env Hnd)
    as (_ & _ & _ & Hframe & _).
  destruct (assign_ids prefix kind _ env) as [ids e'] eqn:E.
  cbn [snd] in Hframe. exists (temp_data e'), ids. by f_equal.
Qed.

Lemma first_category_call fromdocname env posts :
  all_posts env = Some posts -> category_id env = None ->
  exists cids td,
    build_category_info fromdocname env
    = (inr (categories_of fromdocname posts),
       set_category_id cids (set_temp_data td env))
    /\ (forall k, is_Some (categories_of fromdocname posts !! k)
                  <-> is_Some (cids !! k)).
Proof.
  intros Hposts Hnone.
  destruct (first_category_assignment fromdocname env posts Hposts Hnone)
    as (categories & env' & Hrun & -> & ids & Hids & Hissued & _).
  rewrite (build_category_info_eq _ _ _ Hposts) in Hrun |- *.
  rewrite Hnone in Hrun |- *.
  destruct (issue_ids_None_frame "category-" "category" String.ltb
              (categories_of fromdocname posts) set_category_id env)
    as (td & cids & Hf).
  rewrite Hf in Hrun |- *. injection Hrun as <-.
  injection Hids as <-. exists cids, td. split; [done|].
  destruct (issued_ids_cover _ _ _ _ _ Hissued) as [Hdom _].
  intros k. by rewrite Hdom, elem_of_dict_keys.
Qed.

Lemma first_tag_call fromdocname env posts :
  all_posts env = Some posts -> tag_id env = None ->
  exists tids td,
    build_tag_info fromdocname env
    = (inr (tags_of fromdocname posts),
       set_tag_id tids (set_temp_data td env))
    /\ (forall k, is_Some (tags_of fromdocname posts !! k)
                  <-> is_Some (tids !! k)).
Proof.
  intros Hposts Hnone.
  destruct (first_tag_assignment fromdocname env posts Hposts Hnone)
    as (tags & env' & Hrun & ids & Hids & Hissued & _).
  rewrite (build_tag_info_eq _ _ _ Hposts) in Hrun |- *.
  rewrite Hnone in Hrun |- *.
  destruct (issue_ids_None_frame "tag-" "tag" String.ltb
              (tags_of fromdocname posts) set_tag_id env)
    as (td & tids & Hf).
  rewrite Hf in Hrun |- *. injection Hrun as <- <-.
  injection Hids as <-. exists tids, td. split; [done|].
  destruct (issued_ids_cover _ _ _ _ _ Hissued) as [Hdom _].
  intros k. by rewrite Hdom, elem_of_dict_keys.
Qed.

Lemma first_year_call fromdocname env posts :
  all_posts env = Some posts -> archive_id env = None ->
  exists yids td,
    build_archive_info fromdocname env
    = (inr (archive_of fromdocname posts, archive_flat_of fromdocname posts),
       set_archive_id yids (set_temp_data td env))
    /\ (forall k, is_Some (archive_of fromdocname posts !! k)
                  <-> is_Some (yids !! k)).
Proof.
  intros Hposts Hnone.
  destruct (first_year_assignment fromdocname env posts Hposts Hnone)
    as (archive & archive_flat & env' & Hrun & ids & Hids & Hissued & _).
  rewrite (build_archive_info_eq _ _ _ Hposts) in Hrun |- *.
  rewrite Hnone in Hrun |- *.
  destruct (issue_ids_None_frame "year-" "year" Z.ltb
              (archive_of fromdocname posts) set_archive_id env)
    as (td & yids & Hf).
  rewrite Hf in Hrun |- *. injection Hrun as <- <- <-.
  injection Hids as <-. exists yids, td. split; [done|].
  destruct (issued_ids_cover _ _ _ _ _ Hissued) as [Hdom _].
  intros k. by rewrite Hdom, elem_of_dict_keys.
Qed.

Lemma update_node_replace_returns {K} `{Countable K} (lt : K -> K -> bool)
    (show : K -> string) (doctree : list doc_node) obj
    (item_dict : gmap K (list Item)) (env_id : gmap K string) reverse :
  (forall k, is_Some (item_dict !! k) -> is_Some (env_id !! k)) ->
  exists doctree',
    update_node_replace lt show doctree obj item_dict env_id reverse
    = inr doctree'.
Proof.
  intros Hids.
  destruct (listing_of_keys_ok show
              (sorted lt id reverse (dict_keys item_dict)) item_dict env_id)
    as (l & Hl & _).
  { intros k Hk. apply sorted_keys_elem in Hk. auto. }
  induction doctree as [|dn doctree (rest & Hrest)].
  - by exists [].
  - cbn [update_node_replace]. unfold listing_content. rewrite Hl, Hrest.
    destruct (obj dn); eauto.
Qed.

(** X22.  In a build with posts, the first resolve of a document makes
    the three groupings, gives every key its identifier and replaces the
    three kinds of listing nodes without an exception; the store is as it
    was. *)
Theorem listing_pages_build fromdocname env posts (doctree : list doc_node) :
  all_posts env = Some posts ->
  category_id env = None -> tag_id env = None -> archive_id env = None ->
  exists categories tags archive archive_flat e1 e2 e3 cids tids yids
         d1 d2 d3,
    build_category_info fromdocname env = (inr categories, e1)
    /\ build_tag_info fromdocname e1 = (inr tags, e2)
    /\ build_archive_info fromdocname e2
       = (inr (archive, archive_flat), e3)
    /\ category_id e3 = Some cids /\ tag_id e3 = Some tids
    /\ archive_id e3 = Some yids
    /\ update_node_replace String.ltb id doctree is_CategoryNode categories
         cids false = inr d1
    /\ update_node_replace String.ltb id d1 is_TagNode tags tids false
       = inr d2
    /\ update_node_replace Z.ltb pretty d2 is_ArchiveNode archive yids true
       = inr d3
    /\ all_posts e3 = Some posts.
Proof.
  intros Hposts Hc Ht Ha.
  destruct (first_category_call fromdocname env posts Hposts Hc)
    as (cids & td1 & Hrun1 & Hdom1).
  destruct (first_tag_call fromdocname
              (set_category_id cids (set_temp_data td1 env)) posts Hposts Ht)
    as (tids & td2 & Hrun2 & Hdom2).
  destruct (first_year_call fromdocname
              (set_tag_id tids
                 (set_temp_data td2
                    (set_category_id cids (set_temp_data td1 env))))
              posts Hposts Ha)
    as (yids & td3 & Hrun3 & Hdom3).
  destruct (update_node_replace_returns String.ltb id doctree
              is_CategoryNode (categories_of fromdocname posts) cids false)
    as (d1 & Hd1); [intros k; apply Hdom1|].
  destruct (update_node_replace_returns String.ltb id d1
              is_TagNode (tags_of fromdocname posts) tids false)
    as (d2 & Hd2); [intros k; apply Hdom2|].
  destruct (update_node_replace_returns Z.ltb pretty d2
              is_ArchiveNode (archive_of fromdocname posts) yids true)
    as (d3 & Hd3); [intros k; apply Hdom3|].
  eexists _, _, _, _, _, _, _, cids, tids, yids, d1, d2, d3.
  split; [exact Hrun1|]. split; [exact Hrun2|]. split; [exact Hrun3|].
  by split_and!.
Qed.

Lemma tag_refs_ok env from tags tdoc tids :
  tag_docname env = Some tdoc -> tag_id env = Some tids ->
  (forall t, t ∈ tags -> is_Some (tids !! t)) ->
  exists refs,
    tag_refs env from tags = inr refs
    /\ Forall2 (fun tag ref =>
                  exists tid, tids !! tag = Some tid
                    /\ ref = get_relative_uri from tdoc +:+ "#" +:+ tid)
         tags refs.
Proof.
  intros Hdoc Hid. induction tags as [|tag tags IH]; intros Hall.
  { exists []. by split. }
  destruct (Hall tag) as [tid Htid]; [left|].
  destruct IH as (refs & Hrefs & Hall2).
  { intros t Ht. apply Hall. by right. }
  eexists. cbn [tag_refs]. rewrite Hdoc, Hid, Htid, Hrefs.
  split; [done|]. constructor; [|done]. by exists tid.
Qed.

Lemma add_next_prev_keeps node archive_flat :
  exists linked,
    add_next_prev node archive_flat = inr linked
    /\ n_category_ref linked = n_category_ref node
    /\ n_tags_ref linked = n_tags_ref node
    /\ n_tags_and_ref linked = n_tags_and_ref node
    /\ ((exists item, item ∈ archive_flat /\ fi_time item = n_time node) ->
        is_Some (n_next linked) /\ is_Some (n_prev linked)).
Proof.
  unfold add_next_prev. rewrite add_next_prev_loop_whole. eexists.
  split; [done|].
  destruct (last_match (n_time node) archive_flat) as [j|] eqn:Hlast.
  - apply last_match_Some in Hlast as (item & Hj & _).
    apply lookup_lt_Some in Hj.
    destruct (link_at_neighbours labels archive_flat j node Hj)
      as (linked & Hn & _).
    rewrite Hn. cbn [default].
    apply neighbours_at_nav in Hn as (a & b & c & d & ->).
    cbn. split_and!; [done..|]. intros _. split; eauto.
  - split_and!; try done. intros (item & Hin & Htime).
    by destruct (proj1 (last_match_None _ _) Hlast item Hin).
Qed.

(** X23.  After the three aggregation calls of the first resolve, every
    post of the store resolves without an exception when the categories
    page and the tags page exist: its category reference and one reference
    for each of its tags point at the identifiers issued, and when the
    time of its node is the time of its entry it has a next and a previous
    post. *)
Theorem stored_posts_resolve fromdocname env posts cdoc tdoc :
  all_posts env = Some posts ->
  category_id env = None -> tag_id env = None -> archive_id env = None ->
  category_docname env = Some cdoc -> tag_docname env = Some tdoc ->
  exists categories tags archive archive_flat e1 e2 e3 cids tids,
    build_category_info fromdocname env = (inr categories, e1)
    /\ build_tag_info fromdocname e1 = (inr tags, e2)
    /\ build_archive_info fromdocname e2
       = (inr (archive, archive_flat), e3)
    /\ category_id e3 = Some cids /\ tag_id e3 = Some tids
    /\ forall p, p ∈ posts ->
         exists cid linked,
           resolve_blog_node e3 archive_flat (pi_post_node p) = inr linked
           /\ cids !! n_category (pi_post_node p) = Some cid
           /\ n_category_ref linked
              = Some (get_relative_uri (n_docname (pi_post_node p)) cdoc
                      +:+ "#" +:+ cid)
           /\ Forall2
                (fun tag ref =>
                   exists tid, tids !! tag = Some tid
                     /\ ref = Some (get_relative_uri
                                      (n_docname (pi_post_node p)) tdoc
                                    +:+ "#" +:+ tid))
                (n_tags (pi_post_node p)) (n_tags_ref linked)
           /\ (n_time (pi_post_node p) = pi_time p ->
               is_Some (n_next linked) /\ is_Some (n_prev linked)).
Proof.
  intros Hposts Hc Ht Ha Hcdoc Htdoc.
  destruct (first_category_call fromdocname env posts Hposts Hc)
    as (cids & td1 & Hrun1 & Hdom1).
  destruct (first_tag_call fromdocname
              (set_category_id cids (set_temp_data td1 env)) posts Hposts Ht)
    as (tids & td2 & Hrun2 & Hdom2).
  destruct (first_year_call fromdocname
              (set_tag_id tids
                 (set_temp_data td2
                    (set_category_id cids (set_temp_data td1 env))))
              posts Hposts Ha)
    as (yids & td3 & Hrun3 & Hdom3).
  eexists _, _, _, _, _, _, _, cids, tids.
  split; [exact Hrun1|]. split; [exact Hrun2|]. split; [exact Hrun3|].
  split; [done|]. split; [done|]. intros p Hp.
  set (e3 := set_archive_id yids _).
  assert (is_Some (cids !! n_category (pi_post_node p))) as [cid Hcid].
  { apply Hdom1. apply elem_of_dict_keys, categories_of_keys. eauto. }
  destruct (tag_refs_ok e3 (n_docname (pi_post_node p))
              (n_tags (pi_post_node p)) tdoc tids) as (refs & Hrefs & Hall);
    [done..| |].
  { intros t Htag. apply Hdom2.
    apply (grouping_keys _ _ (tags_of_lookup fromdocname posts)).
    apply tag_entries_nonempty. eauto. }
  destruct (add_next_prev_keeps
              (set_refs (get_relative_uri (n_docname (pi_post_node p)) cdoc
                         +:+ "#" +:+ cid) refs (pi_post_node p))
              (archive_flat_of fromdocname posts))
    as (linked & Hlinked & Hcref & Htref & _ & Hnav).
  exists cid, linked. unfold resolve_blog_node.
  change (category_docname e3) with (category_docname env).
  change (category_id e3) with (Some cids).
  rewrite Hcdoc, Hcid, Hrefs. split_and!; [done..| |].
  - rewrite Htref. cbn [set_refs n_tags_ref].
    apply Forall2_fmap_r. eapply Forall2_impl; [exact Hall|].
    intros tag ref (tid & Htid & ->). eauto.
  - intros Htime. apply Hnav.
    exists (post_flat_item fromdocname p). split; [|by cbn; rewrite Htime].
    rewrite archive_flat_of_eq. unfold sort_flat_items.
    rewrite sorted_Permutation. apply list_elem_of_fmap. eauto.
Qed.

(** X24.  A post needs the categories page, and a post with a tag needs
    the tags page as well: after the aggregation calls of the first
    resolve, in a build without a categories directive every post node
    fails to resolve with [AttributeError]; in a build with a categories
    directive and without a tags directive a post with a tag fails, while
    a post without tags resolves and gets its category reference. *)
Theorem posts_need_the_listing_pages fromdocname env posts :
  all_posts env = Some posts ->
  category_id env = None -> tag_id env = None -> archive_id env = None ->
  exists categories tags archive archive_flat e1 e2 e3,
    build_category_info fromdocname env = (inr categories, e1)
    /\ build_tag_info fromdocname e1 = (inr tags, e2)
    /\ build_archive_info fromdocname e2
       = (inr (archive, archive_flat), e3)
    /\ (category_docname env = None ->
        forall node,
          resolve_blog_node e3 archive_flat node
          = inl (AttributeError "category_docname"))
    /\ (forall cdoc,
          category_docname env = Some cdoc -> tag_docname env = None ->
          forall p, p ∈ posts ->
            (n_tags (pi_post_node p) <> [] ->
             resolve_blog_node e3 archive_flat (pi_post_node p)
             = inl (AttributeError "tag_docname"))
            /\ (n_tags (pi_post_node p) = [] ->
                exists cid linked,
                  resolve_blog_node e3 archive_flat (pi_post_node p)
                  = inr linked
                  /\ category_id e3 ≫= (.!! n_category (pi_post_node p))
                     = Some cid
                  /\ n_category_ref linked
                     = Some (get_relative_uri (n_docname (pi_post_node p))
                               cdoc +:+ "#" +:+ cid)
                  /\ n_tags_ref linked = [])).
Proof.
  intros Hposts Hc Ht Ha.
  destruct (first_category_call fromdocname env posts Hposts Hc)
    as (cids & td1 & Hrun1 & Hdom1).
  destruct (first_tag_call fromdocname
              (set_category_id cids (set_temp_data td1 env)) posts Hposts Ht)
    as (tids & td2 & Hrun2 & Hdom2).
  destruct (first_year_call fromdocname
              (set_tag_id tids
                 (set_temp_data td2
                    (set_category_id cids (set_temp_data td1 env))))
              posts Hposts Ha)
    as (yids & td3 & Hrun3 & Hdom3).
  eexists _, _, _, _, _, _, _.
  split; [exact Hrun1|]. split; [exact Hrun2|]. split; [exact Hrun3|].
  set (e3 := set_archive_id yids _). split.
  - intros Hnone node. unfold resolve_blog_node.
    change (category_docname e3) with (category_docname env).
    by rewrite Hnone.
  - intros cdoc Hcdoc Htdoc p Hp.
    assert (is_Some (cids !! n_category (pi_post_node p))) as [cid Hcid].
    { apply Hdom1. apply elem_of_dict_keys, categories_of_keys. eauto. }
    unfold resolve_blog_node.
    change (category_docname e3) with (category_docname env).
    change (category_id e3) with (Some cids).
    rewrite Hcdoc, Hcid. split.
    + destruct (n_tags (pi_post_node p)) as [|tag tags]; [done|]. intros _.
      cbn [tag_refs]. change (tag_docname e3) with (tag_docname env).
      by rewrite Htdoc.
    + intros Hnil. rewrite Hnil. cbn [tag_refs].
      destruct (add_next_prev_keeps
                  (set_refs (get_relative_uri (n_docname (pi_post_node p))
                               cdoc +:+ "#" +:+ cid) [] (pi_post_node p))
                  (archive_flat_of fromdocname posts))
        as (linked & Hlinked & Hcref & Htref & _).
      exists cid, linked. by split_and!.
Qed.

End ResolveFacts.

(** * The further properties on the sample builds *)
Section MoreSampleRuns.
Import Samples.
Local Existing Instance SampleHost.host.

Lemma single_post_links_to_itself_witness :
  n_time (node_of (noon 1) "p") = fi_time (entry_of (noon 1) "p")
  /\ add_next_prev (node_of (noon 1) "p") [entry_of (noon 1) "p"]
     = inr (set_nav "&olarr; Newest" "Oldest &orarr;" "p.html" "p.html"
              (node_of (noon 1) "p")).
Proof.
  split; [reflexivity|].
  exact (single_post_links_to_itself (node_of (noon 1) "p")
           (entry_of (noon 1) "p") eq_refl).
Defined.

Lemma three_days_distinct : NoDup (fi_time <$> three_days).
Proof.
  cbn.
  repeat (apply NoDup_cons; split;
          [rewrite ?elem_of_cons, elem_of_nil; intros ?;
           intuition discriminate|]).
  apply NoDup_nil_2.
Qed.

Lemma next_and_previous_are_inverse_witness :
  NoDup (fi_time <$> three_days)
  /\ three_days !! 1%nat = Some (entry_of (noon 2) "p2")
  /\ exists b c,
       b ∈ three_days /\ c ∈ three_days
       /\ (forall node, n_time node = noon 2 ->
             exists linked,
               add_next_prev node three_days = inr linked
               /\ n_next linked
                  = Some (get_relative_uri (n_docname node) (fi_docname b))
               /\ n_prev linked
                  = Some (get_relative_uri (n_docname node) (fi_docname c)))
       /\ (forall node, n_time node = fi_time b ->
             exists linked,
               add_next_prev node three_days = inr linked
               /\ n_prev linked = Some "p2.html")
       /\ (forall node, n_time node = fi_time c ->
             exists linked,
               add_next_prev node three_days = inr linked
               /\ n_next linked = Some "p2.html").
Proof.
  split; [exact three_days_distinct|]. split; [reflexivity|].
  exact (next_and_previous_are_inverse three_days 1 (entry_of (noon 2) "p2")
           three_days_distinct eq_refl).
Defined.

Lemma directives_outside_build_witness :
  strptime
    (option_or_default stripped
       (options_of [("time", "01.02.2018, 10:00:00"); ("tags", "x, y")])
       "time") date_format
  = inr (mk_datetime 2018 2 1 10 0 0)
  /\ (exists node,
        BlogPostDirective_run
          (options_of [("time", "01.02.2018, 10:00:00"); ("tags", "x, y")])
          None
        = (inr [NBlog node], None)
        /\ n_docname node = None /\ n_targetid node = None)
  /\ exists e, run BlogCategory None = (inl e, None).
Proof.
  assert (strptime
            (option_or_default stripped
               (options_of [("time", "01.02.2018, 10:00:00");
                            ("tags", "x, y")]) "time") date_format
          = inr (mk_datetime 2018 2 1 10 0 0)) as Htime
    by (vm_compute; reflexivity).
  split; [exact Htime|]. split.
  - destruct (proj1 directives_outside_build _ _ Htime)
      as (node & Hrun & _ & Hdoc & Htarget & _).
    exists node. split; [exact Hrun|]. split; [exact Hdoc|exact Htarget].
  - exact (proj2 directives_outside_build BlogCategory eq_refl).
Defined.

Lemma post_directive_appends_witness :
  strptime
    (option_or_default stripped
       (options_of [("time", "01.02.2018, 10:00:00"); ("tags", "x, y")])
       "time") date_format
  = inr (mk_datetime 2018 2 1 10 0 0)
  /\ exists nodes env' p,
       BlogPostDirective_run
         (options_of [("time", "01.02.2018, 10:00:00"); ("tags", "x, y")])
         (Some (fresh_env "posts/one"))
       = (inr nodes, Some env')
       /\ all_posts env' = Some [p]
       /\ pi_time p = mk_datetime 2018 2 1 10 0 0
       /\ pi_docname p = "posts/one"
       /\ n_tags (pi_post_node p) = ["x"; "y"].
Proof.
  assert (strptime
            (option_or_default stripped
               (options_of [("time", "01.02.2018, 10:00:00");
                            ("tags", "x, y")]) "time") date_format
          = inr (mk_datetime 2018 2 1 10 0 0)) as Htime
    by (vm_compute; reflexivity).
  split; [exact Htime|].
  destruct (post_directive_appends _ (fresh_env "posts/one") _ Htime)
    as (nodes & env' & p & before & Hrun & Hposts & Ht & Hdoc & _ & _ & _
        & Htags & _).
  exists nodes, env', p. split; [exact Hrun|]. split; [exact Hposts|].
  split; [exact Ht|]. split; [exact Hdoc|].
  rewrite Htags. vm_compute. reflexivity.
Defined.

Lemma listing_record_is_kept_witness :
  singleton_docname BlogCategory (env_after listing_only) = Some "categories"
  /\ exists env',
       snd (run_directives three_posts (Some (env_after listing_only)))
       = Some env'
       /\ singleton_docname BlogCategory env' = Some "categories".
Proof.
  assert (singleton_docname BlogCategory (env_after listing_only)
          = Some "categories") as Hrec by (vm_compute; reflexivity).
  split; [exact Hrec|].
  exact (listing_record_is_kept three_posts BlogCategory
           (env_after listing_only) "categories" Hrec).
Defined.

Lemma recent_directive_spec_witness :
  (∅ : gmap string Z) !! "length" = None
  /\ BlogRecentDirective_run ∅ start = (inl (KeyError "length"), start).
Proof.
  assert ((∅ : gmap string Z) !! "length" = None) as Hnone
    by (vm_compute; reflexivity).
  split; [exact Hnone|].
  exact (proj1 (recent_directive_spec ∅ start) Hnone).
Defined.

Lemma tag_list_directives_repeat_witness :
  Forall (fun dd => snd dd = BlogTagList) tag_lists
  /\ exists env',
       run_directives tag_lists (Some (fresh_env ""))
       = (inr [NTagList "one"; NTagList "two"], Some env')
       /\ env' = set_env_docname "two" (fresh_env "").
Proof.
  assert (Forall (fun dd : string * directive => snd dd = BlogTagList)
            tag_lists) as Hall by (repeat constructor).
  split; [exact Hall|].
  exact (tag_list_directives_repeat tag_lists (fresh_env "") Hall).
Defined.

Lemma no_post_no_listing_witness :
  all_posts (fresh_env "") = None
  /\ Forall (fun dd => is_BlogPost (snd dd) = false) listing_only
  /\ exists env',
       snd (run_directives listing_only (Some (fresh_env ""))) = Some env'
       /\ build_category_info "index" env'
          = (inl (AttributeError "all_posts"), env')
       /\ build_tag_info "index" env'
          = (inl (AttributeError "all_posts"), env')
       /\ build_archive_info "index" env'
          = (inl (AttributeError "all_posts"), env').
Proof.
  assert (Forall (fun dd : string * directive => is_BlogPost (snd dd) = false)
            listing_only) as Hall by (repeat constructor).
  split; [reflexivity|]. split; [exact Hall|].
  exact (no_post_no_listing listing_only (fresh_env "") "index" eq_refl Hall).
Defined.

Lemma three_posts_stored :
  all_posts (env_after three_posts) = Some three_posts_store.
Proof. vm_compute. reflexivity. Qed.

Lemma groupings_cover_the_store_witness :
  all_posts (env_after three_posts) = Some three_posts_store
  /\ exists categories tags archive archive_flat e1 e2 e3,
       build_category_info "index" (env_after three_posts)
       = (inr categories, e1)
       /\ build_tag_info "index" (env_after three_posts) = (inr tags, e2)
       /\ build_archive_info "index" (env_after three_posts)
          = (inr (archive, archive_flat), e3)
       /\ (forall cat, is_Some (categories !! cat)
             <-> exists p, p ∈ three_posts_store
                           /\ n_category (pi_post_node p) = cat)
       /\ (forall tag, is_Some (tags !! tag)
             <-> exists p, p ∈ three_posts_store
                           /\ tag ∈ n_tags (pi_post_node p))
       /\ (forall year, is_Some (archive !! year)
             <-> exists p, p ∈ three_posts_store
                           /\ n_year (pi_post_node p) = year)
       /\ (forall cat l, categories !! cat = Some l -> l <> [])
       /\ (forall tag l, tags !! tag = Some l -> l <> [])
       /\ (forall year l, archive !! year = Some l -> l <> [])
       /\ length archive_flat = length three_posts_store.
Proof.
  split; [exact three_posts_stored|].
  exact (groupings_cover_the_store "index" (env_after three_posts)
           three_posts_store three_posts_stored).
Defined.

Lemma three_posts_distinct_tags :
  Forall (fun p => NoDup (n_tags (pi_post_node p))) three_posts_store.
Proof. compute_done. Qed.

Lemma distinct_tags_file_once_witness :
  all_posts (env_after three_posts) = Some three_posts_store
  /\ Forall (fun p => NoDup (n_tags (pi_post_node p))) three_posts_store
  /\ exists tags e,
       build_tag_info "index" (env_after three_posts) = (inr tags, e)
       /\ forall tag,
            exists ps,
              Forall2 (stands_for "index") (default [] (tags !! tag)) ps
              /\ ps ≡ₚ filter (fun p => tag ∈ n_tags (pi_post_node p))
                         three_posts_store.
Proof.
  split; [exact three_posts_stored|].
  split; [exact three_posts_distinct_tags|].
  exact (distinct_tags_file_once "index" (env_after three_posts)
           three_posts_store three_posts_stored three_posts_distinct_tags).
Defined.

Lemma three_posts_no_category_id : category_id (env_after three_posts) = None.
Proof. vm_compute. reflexivity. Qed.

Lemma first_identifiers_cover_keys_witness :
  all_posts (env_after three_posts) = Some three_posts_store
  /\ category_id (env_after three_posts) = None
  /\ exists categories env' ids,
       build_category_info "index" (env_after three_posts)
       = (inr categories, env')
       /\ category_id env' = Some ids
       /\ (forall k, is_Some (ids !! k) <-> is_Some (categories !! k))
       /\ (forall k1 k2 v,
             ids !! k1 = Some v -> ids !! k2 = Some v -> k1 = k2).
Proof.
  split; [exact three_posts_stored|].
  split; [exact three_posts_no_category_id|].
  exact (proj1 (first_identifiers_cover_keys "index" (env_after three_posts)
                  three_posts_store three_posts_stored)
           three_posts_no_category_id).
Defined.

Lemma listed_categories_have_ids k :
  is_Some (listed_categories !! k) -> is_Some (listed_category_id !! k).
Proof.
  assert (dom listed_categories ⊆ dom listed_category_id) as Hsub.
  { compute_done. }
  intros Hk. apply elem_of_dom, Hsub. by apply elem_of_dom.
Qed.

Lemma listing_sections_in_key_order_witness :
  (forall k, is_Some (listed_categories !! k)
             -> is_Some (listed_category_id !! k))
  /\ exists l,
       listing_content String.ltb id listed_categories listed_category_id
         false = inr l
       /\ length (l_section_list l) = size listed_categories
       /\ length (l_sections l) = size listed_categories
       /\ forall i k,
            sorted String.ltb id false (dict_keys listed_categories) !! i
            = Some k ->
            exists items key_id,
              listed_categories !! k = Some items
              /\ listed_category_id !! k = Some key_id
              /\ l_section_list l !! i
                 = Some (mk_id_reference
                           (k +:+ " (" +:+ pretty (length items) +:+ ")")
                           key_id)
              /\ l_sections l !! i
                 = Some (mk_section [key_id] [key_id]
                           (Some (k +:+ " (" +:+ pretty (length items)
                                  +:+ ")"))
                           (Some (mk_id_reference
                                    (k +:+ " (" +:+ pretty (length items)
                                     +:+ ")") key_id)),
                         make_item_list items).
Proof.
  split; [exact listed_categories_have_ids|].
  exact (listing_sections_in_key_order id String.ltb listed_categories
           listed_category_id false listed_categories_have_ids).
Defined.

Lemma listing_needs_every_identifier_witness :
  is_Some (late_categories !! "b") /\ late_category_id !! "b" = None
  /\ exists k',
       is_Some (late_categories !! k') /\ late_category_id !! k' = None
       /\ listing_content String.ltb id late_categories late_category_id
            false
          = inl (KeyError k').
Proof.
  assert (is_Some (late_categories !! "b")) as Hb.
  { compute_done. }
  assert (late_category_id !! "b" = None) as Hnone
    by (vm_compute; reflexivity).
  split; [exact Hb|]. split; [exact Hnone|].
  exact (listing_needs_every_identifier id String.ltb late_categories
           late_category_id false "b" Hb Hnone).
Defined.

Lemma categories_listing_made :
  listing_content String.ltb id listed_categories listed_category_id false
  = inr categories_listing.
Proof. vm_compute. reflexivity. Qed.



Lemma toc_follows_listing_witness :
  listing_content String.ltb id listed_categories listed_category_id false
  = inr categories_listing
  /\ toc_lines (fst <$> l_sections categories_listing)
     = inr ((fun r => toc_entry ("#" +:+ ir_refid r) (ir_text r))
              <$> l_section_list categories_listing).
Proof.
  split; [exact categories_listing_made|].
  exact (proj1 (toc_follows_listing id String.ltb listed_categories
                  listed_category_id false categories_listing "Categories"
                  categories_listing_made)).
Defined.

Lemma site_stored : all_posts (env_after site) = Some site_store.
Proof. vm_compute. reflexivity. Qed.

Lemma site_no_category_id : category_id (env_after site) = None.
Proof. vm_compute. reflexivity. Qed.

Lemma site_no_tag_id : tag_id (env_after site) = None.
Proof. vm_compute. reflexivity. Qed.

Lemma site_no_archive_id : archive_id (env_after site) = None.
Proof. vm_compute. reflexivity. Qed.

Lemma site_category_docname :
  category_docname (env_after site) = Some "categories".
Proof. vm_compute. reflexivity. Qed.

Lemma site_tag_docname : tag_docname (env_after site) = Some "tags".
Proof. vm_compute. reflexivity. Qed.

Lemma listing_pages_build_witness :
  all_posts (env_after site) = Some site_store
  /\ category_id (env_after site) = None
  /\ tag_id (env_after site) = None
  /\ archive_id (env_after site) = None
  /\ exists categories tags archive archive_flat e1 e2 e3 cids tids yids
            d1 d2 d3,
       build_category_info "categories" (env_after site)
       = (inr categories, e1)
       /\ build_tag_info "categories" e1 = (inr tags, e2)
       /\ build_archive_info "categories" e2
          = (inr (archive, archive_flat), e3)
       /\ category_id e3 = Some cids /\ tag_id e3 = Some tids
       /\ archive_id e3 = Some yids
       /\ update_node_replace String.ltb id page is_CategoryNode categories
            cids false = inr d1
       /\ update_node_replace String.ltb id d1 is_TagNode tags tids false
          = inr d2
       /\ update_node_replace Z.ltb pretty d2 is_ArchiveNode archive yids
            true = inr d3
       /\ all_posts e3 = Some site_store.
Proof.
  split; [exact site_stored|]. split; [exact site_no_category_id|].
  split; [exact site_no_tag_id|]. split; [exact site_no_archive_id|].
  exact (listing_pages_build "categories" (env_after site) site_store page
           site_stored site_no_category_id site_no_tag_id
           site_no_archive_id).
Defined.

Lemma stored_posts_resolve_witness :
  all_posts (env_after site) = Some site_store
  /\ category_id (env_after site) = None
  /\ tag_id (env_after site) = None
  /\ archive_id (env_after site) = None
  /\ category_docname (env_after site) = Some "categories"
  /\ tag_docname (env_after site) = Some "tags"
  /\ exists categories tags archive archive_flat e1 e2 e3 cids tids,
       build_category_info "posts/one" (env_after site)
       = (inr categories, e1)
       /\ build_tag_info "posts/one" e1 = (inr tags, e2)
       /\ build_archive_info "posts/one" e2
          = (inr (archive, archive_flat), e3)
       /\ category_id e3 = Some cids /\ tag_id e3 = Some tids
       /\ forall p, p ∈ site_store ->
            exists cid linked,
              resolve_blog_node e3 archive_flat (pi_post_node p)
              = inr linked
              /\ cids !! n_category (pi_post_node p) = Some cid
              /\ n_category_ref linked
                 = Some (get_relative_uri (n_docname (pi_post_node p))
                           "categories" +:+ "#" +:+ cid)
              /\ Forall2
                   (fun tag ref =>
                      exists tid, tids !! tag = Some tid
                        /\ ref = Some (get_relative_uri
                                         (n_docname (pi_post_node p)) "tags"
                                       +:+ "#" +:+ tid))
                   (n_tags (pi_post_node p)) (n_tags_ref linked)
              /\ (n_time (pi_post_node p) = pi_time p ->
                  is_Some (n_next linked) /\ is_Some (n_prev linked)).
Proof.
  split; [exact site_stored|]. split; [exact site_no_category_id|].
  split; [exact site_no_tag_id|]. split; [exact site_no_archive_id|].
  split; [exact site_category_docname|]. split; [exact site_tag_docname|].
  exact (stored_posts_resolve "posts/one" (env_after site) site_store
           "categories" "tags" site_stored site_no_category_id
           site_no_tag_id site_no_archive_id site_category_docname
           site_tag_docname).
Defined.

Lemma categories_only_stored :
  all_posts (env_after categories_only_site) = Some categories_only_store.
Proof. vm_compute. reflexivity. Qed.

Lemma categories_only_no_category_id :
  category_id (env_after categories_only_site) = None.
Proof. vm_compute. reflexivity. Qed.

Lemma categories_only_no_tag_id :
  tag_id (env_after categories_only_site) = None.
Proof. vm_compute. reflexivity. Qed.

Lemma categories_only_no_archive_id :
  archive_id (env_after categories_only_site) = None.
Proof. vm_compute. reflexivity. Qed.

Lemma posts_need_the_listing_pages_witness :
  all_posts (env_after categories_only_site) = Some categories_only_store
  /\ category_id (env_after categories_only_site) = None
  /\ tag_id (env_after categories_only_site) = None
  /\ archive_id (env_after categories_only_site) = None
  /\ category_docname (env_after categories_only_site) = Some "categories"
  /\ tag_docname (env_after categories_only_site) = None
  /\ exists p q e3 archive_flat,
       categories_only_store = [p; q]
       /\ n_tags (pi_post_node p) = ["x"] /\ n_tags (pi_post_node q) = []
       /\ resolve_blog_node e3 archive_flat (pi_post_node p)
          = inl (AttributeError "tag_docname")
       /\ exists linked,
            resolve_blog_node e3 archive_flat (pi_post_node q) = inr linked
            /\ n_tags_ref linked = [].
Proof.
  split; [exact categories_only_stored|].
  split; [exact categories_only_no_category_id|].
  split; [exact categories_only_no_tag_id|].
  split; [exact categories_only_no_archive_id|].
  assert (category_docname (env_after categories_only_site)
          = Some "categories") as Hcdoc by (vm_compute; reflexivity).
  assert (tag_docname (env_after categories_only_site) = None) as Htdoc
    by (vm_compute; reflexivity).
  split; [exact Hcdoc|]. split; [exact Htdoc|].
  destruct (posts_need_the_listing_pages "posts/one"
              (env_after categories_only_site) categories_only_store
              categories_only_stored categories_only_no_category_id
              categories_only_no_tag_id categories_only_no_archive_id)
    as (categories & tags & archive & archive_flat & e1 & e2 & e3
        & _ & _ & _ & _ & Hposts).
  specialize (Hposts "categories" Hcdoc Htdoc). clear Hcdoc Htdoc.
  assert (exists p q, categories_only_store = [p; q]
                      /\ n_tags (pi_post_node p) = ["x"]
                      /\ n_tags (pi_post_node q) = [])
    as (p & q & Hstore & Hp & Hq).
  { eexists _, _. vm_compute. split_and!; reflexivity. }
  exists p, q, e3, archive_flat. split; [exact Hstore|].
  split; [exact Hp|]. split; [exact Hq|].
  assert (p ∈ categories_only_store) as Hinp by (rewrite Hstore; left).
  assert (q ∈ categories_only_store) as Hinq
    by (rewrite Hstore; right; left).
  split.
  - apply (proj1 (Hposts p Hinp)). rewrite Hp. discriminate.
  - destruct (proj2 (Hposts q Hinq) Hq) as (cid & linked & Hr & _ & _ & Ht).
    exists linked. split; [exact Hr|exact Ht].
Defined.

End MoreSampleRuns.
